(** * CloudMap assistant pipeline: a shallow embedding and its properties

    The development follows the TypeScript sources of the assistant
    ("Jarvis") pipeline: intent detection (ai/intent/inferIntent), context
    and prompt assembly (ai/context, ai/prompt), response post-processing
    (ai/response), the integration and orchestration layers, the
    in-memory architecture store with the routes that read it, and the
    retry helper.

    Conventions of the embedding.
    - A JavaScript string is a [string]; texts are taken over the ASCII
      range, one character per code unit.
    - A value of type [any] that travels as JSON is a [json] value.
    - Builtins of the platform that the sources call but do not define
      (JSON.parse, JSON.stringify, the chat client of the vendor SDK, the
      process environment) are the fields of the class [Platform].
    - A function that can throw returns an [option] (or a sum): [None]
      is the thrown exception.
    - Global mutable objects are threaded explicitly: the session
      table and the architecture store are object literals, kept as
      their own properties and read through the prototype chain.
      Object.prototype is taken as the platform provides it. *)

From Stdlib Require Import ZArith QArith Qround Lia Lqa Ascii String Bool.
From stdpp Require Import gmap strings list.

Set Warnings "-register-all".
Close Scope Q_scope.
Open Scope nat_scope.

(* ===================================================================== *)
(** * JavaScript strings *)
(* ===================================================================== *)

Module JsString.

(** The double quote and the line feed, as one-character strings. *)
Definition dq : string := String "034"%char "".
Definition nl : string := String "010"%char "".

(** White space and line terminators below code 128:
    TAB, LF, VT, FF, CR and SPACE. *)
Definition isWhiteSpace (c : ascii) : bool := Ascii.is_space c.

Definition isUpper (c : ascii) : bool :=
  let n := nat_of_ascii c in (65 <=? n) && (n <=? 90).
Definition isLower (c : ascii) : bool :=
  let n := nat_of_ascii c in (97 <=? n) && (n <=? 122).
Definition isDigit (c : ascii) : bool :=
  let n := nat_of_ascii c in (48 <=? n) && (n <=? 57).
Definition isWordChar (c : ascii) : bool :=
  isUpper c || isLower c || isDigit c || Ascii.eqb c "_"%char.

Definition lowerChar (c : ascii) : ascii :=
  if isUpper c then ascii_of_nat (nat_of_ascii c + 32) else c.
Definition upperChar (c : ascii) : ascii :=
  if isLower c then ascii_of_nat (nat_of_ascii c - 32) else c.

(** [s.toLowerCase()] *)
Fixpoint toLowerCase (s : string) : string :=
  match s with
  | EmptyString => EmptyString
  | String c s' => String (lowerChar c) (toLowerCase s')
  end.

(** [s.toUpperCase()] *)
Fixpoint toUpperCase (s : string) : string :=
  match s with
  | EmptyString => EmptyString
  | String c s' => String (upperChar c) (toUpperCase s')
  end.

(** [s.indexOf(sub)]: [None] stands for -1. *)
Definition indexOf (s sub : string) : option nat := String.index 0 sub s.

(** [s.includes(sub)] *)
Definition includes (s sub : string) : bool :=
  match indexOf s sub with Some _ => true | None => false end.

(** [s.startsWith(p)] *)
Definition startsWith (s p : string) : bool := String.prefix p s.

(** [s.substring(a, b)] for [a <= b]. *)
Definition substring (s : string) (a b : nat) : string :=
  String.substring a (b - a) s.

(** [s.substring(a)]: the suffix from index [a]. *)
Fixpoint substringFrom (n : nat) (s : string) : string :=
  match n, s with
  | O, _ => s
  | S n', String _ s' => substringFrom n' s'
  | S _, EmptyString => EmptyString
  end.

Fixpoint trimStart (s : string) : string :=
  match s with
  | String c s' => if isWhiteSpace c then trimStart s' else s
  | EmptyString => EmptyString
  end.

Definition trimEnd (s : string) : string :=
  String.rev (trimStart (String.rev s)).

(** [s.trim()] *)
Definition trim (s : string) : string := trimEnd (trimStart s).

(** A string is truthy when it is not empty. *)
Definition truthy (s : string) : bool :=
  match s with EmptyString => false | _ => true end.

(** [a || b] on strings. *)
Definition orElse (a b : string) : string := if truthy a then a else b.

(** [s.split(sep)] for a non-empty separator [sep]: [cur] holds the
    characters of the current piece, most recent first. *)
Fixpoint split_go (fuel : nat) (sep cur s : string) : list string :=
  match fuel with
  | O => [String.rev cur]
  | S fuel' =>
      if String.prefix sep s
      then String.rev cur :: split_go fuel' sep "" (substringFrom (String.length sep) s)
      else match s with
           | EmptyString => [String.rev cur]
           | String c s' => split_go fuel' sep (String c cur) s'
           end
  end.

Definition split (s sep : string) : list string :=
  split_go (S (String.length s)) sep "" s.

(** [parts.join(sep)] *)
Definition join (sep : string) (parts : list string) : string :=
  String.concat sep parts.

(** [s.repeat(n)] *)
Fixpoint repeat (s : string) (n : nat) : string :=
  match n with O => "" | S n' => s +:+ repeat s n' end.

(** Decimal rendering of a non-negative integer, as [String(n)] gives. *)
Definition digitChar (d : nat) : ascii := ascii_of_nat (48 + d).

Fixpoint ofNat_go (fuel n : nat) (acc : string) : string :=
  match fuel with
  | O => acc
  | S fuel' =>
      let acc' := String (digitChar (n mod 10)) acc in
      if n <? 10 then acc' else ofNat_go fuel' (n / 10) acc'
  end.

Definition ofNat (n : nat) : string := ofNat_go (S n) n "".

End JsString.

(* ===================================================================== *)
(** * Regular expressions *)
(* ===================================================================== *)

(** A backtracking matcher in continuation-passing style, after the
    pattern semantics of ECMA-262 (22.2.2), for the constructs the
    sources use: alternation, concatenation, greedy and lazy quantifiers,
    capturing and non-capturing groups, character classes, the escapes
    \s \S \d \w \b \n, the anchors ^ and $, and the flags i and g.
    Patterns are written below exactly as in the sources and read by
    [parse]. *)

Module Regex.
Import JsString.

Inductive cset : Type :=
| COne (c : ascii)
| CRange (lo hi : ascii)
| CSpace
| CNonSpace
| CDigit
| CWord.

Inductive re : Type :=
| Eps
| Chr (c : ascii)
| Dot
| Class (invert : bool) (items : list cset)
| Seq (r1 r2 : re)
| Alt (r1 r2 : re)
| Rep (min : nat) (max : option nat) (greedy : bool) (r : re)
| Group (n : nat) (r : re)
| Bol
| Eol
| WordBoundary
| Never.

(** ** Matching *)

Record state : Type := mkState {
  pos : nat;                      (* endIndex *)
  rest : string;                  (* the input from [pos] on *)
  prev : option ascii;            (* the character before [pos] *)
  caps : list (nat * string)      (* captures, most recent first *)
}.

Definition isLineTerminator (c : ascii) : bool :=
  Ascii.eqb c "010"%char || Ascii.eqb c "013"%char.

Definition in_item (it : cset) (c : ascii) : bool :=
  match it with
  | COne a => Ascii.eqb a c
  | CRange lo hi =>
      (nat_of_ascii lo <=? nat_of_ascii c) && (nat_of_ascii c <=? nat_of_ascii hi)
  | CSpace => isWhiteSpace c
  | CNonSpace => negb (isWhiteSpace c)
  | CDigit => isDigit c
  | CWord => isWordChar c
  end.

Definition in_items (items : list cset) (c : ascii) : bool :=
  existsb (fun it => in_item it c) items.

(** CharacterSetMatcher: with the i flag a character matches when some
    member of the set has the same canonical (upper-case) form. *)
Definition class_match (ci invert : bool) (items : list cset) (c : ascii) : bool :=
  let found :=
    if ci
    then in_items items c || in_items items (lowerChar c) || in_items items (upperChar c)
    else in_items items c in
  xorb invert found.

Definition char_match (ci : bool) (a c : ascii) : bool :=
  if ci then Ascii.eqb (upperChar a) (upperChar c) else Ascii.eqb a c.

Definition eat (p : ascii -> bool) (x : state) (k : state -> option state)
  : option state :=
  match rest x with
  | String c s' =>
      if p c then k (mkState (S (pos x)) s' (Some c) (caps x)) else None
  | EmptyString => None
  end.

Definition isWordAt (o : option ascii) : bool :=
  match o with Some c => isWordChar c | None => false end.

Definition nextChar (x : state) : option ascii :=
  match rest x with String c _ => Some c | EmptyString => None end.

Definition set_cap (n : nat) (v : string) (x : state) : state :=
  mkState (pos x) (rest x) (prev x) ((n, v) :: caps x).

(** The capture groups that occur in a pattern. *)
Fixpoint groups_of (r : re) : list nat :=
  match r with
  | Seq r1 r2 | Alt r1 r2 => groups_of r1 ++ groups_of r2
  | Rep _ _ _ r1 => groups_of r1
  | Group n r1 => n :: groups_of r1
  | _ => []
  end.

(** RepeatMatcher step 4: the captures of the repeated atom are
    reset at the start of every iteration. *)
Definition clear_caps (gs : list nat) (x : state) : state :=
  mkState (pos x) (rest x) (prev x)
    (List.filter (fun p => negb (existsb (Nat.eqb (fst p)) gs)) (caps x)).

Definition pred_max (mx : option nat) : option nat :=
  match mx with Some n => Some (Nat.pred n) | None => None end.

Definition or_else {A} (a : option A) (b : unit -> option A) : option A :=
  match a with Some z => Some z | None => b tt end.

(** [run ci r x k]: match [r] at [x], then continue with [k]. A
    quantifier iterates at most [min + remaining length] times, since
    past [min] an iteration that consumes nothing is rejected. *)
Fixpoint run (ci : bool) (r : re) (x : state) (k : state -> option state)
  {struct r} : option state :=
  match r with
  | Eps => k x
  | Chr a => eat (char_match ci a) x k
  | Dot => eat (fun c => negb (isLineTerminator c)) x k
  | Class inv items => eat (class_match ci inv items) x k
  | Seq r1 r2 => run ci r1 x (fun y => run ci r2 y k)
  | Alt r1 r2 => or_else (run ci r1 x k) (fun _ => run ci r2 x k)
  | Rep mn mx greedy r1 =>
      (fix rep (fuel mn : nat) (mx : option nat) (x : state) {struct fuel}
         : option state :=
         match fuel with
         | O => None
         | S fuel' =>
             match mx with
             | Some O => k x
             | _ =>
                 let d := fun y : state =>
                   if (mn =? 0) && (pos y =? pos x) then None
                   else rep fuel' (Nat.pred mn) (pred_max mx) y in
                 let x' := clear_caps (groups_of r1) x in
                 if negb (mn =? 0) then run ci r1 x' d
                 else if greedy
                      then or_else (run ci r1 x' d) (fun _ => k x)
                      else or_else (k x) (fun _ => run ci r1 x' d)
             end
         end) (mn + S (S (String.length (rest x)))) mn mx x
  | Group n r1 =>
      run ci r1 x
        (fun y => k (set_cap n (String.substring 0 (pos y - pos x) (rest x)) y))
  | Bol => if pos x =? 0 then k x else None
  | Eol => match rest x with EmptyString => k x | _ => None end
  | WordBoundary =>
      if xorb (isWordAt (prev x)) (isWordAt (nextChar x)) then k x else None
  | Never => None
  end.

(** A compiled pattern with its flags. *)
Record regexp : Type := mkRegexp {
  source : string;
  body : re;
  ignoreCase : bool;
  global : bool
}.

(** The result of a successful match. *)
Record match_result : Type := mkMatch {
  index : nat;                    (* where the match starts *)
  lastIndex : nat;                (* where it ends *)
  groups : list (nat * string)
}.

(** One attempt, at position [i] exactly. *)
Definition match_at (rx : regexp) (i : nat) (before : option ascii) (s : string)
  : option match_result :=
  match run (ignoreCase rx) (body rx) (mkState i s before []) Some with
  | Some y => Some (mkMatch i (pos y) (caps y))
  | None => None
  end.

(** Try every start position from [i] on, leftmost first. *)
Fixpoint search (rx : regexp) (i : nat) (before : option ascii) (s : string)
  : option match_result :=
  match match_at rx i before s with
  | Some m => Some m
  | None =>
      match s with
      | String c s' => search rx (S i) (Some c) s'
      | EmptyString => None
      end
  end.

(** [rx.exec(s)] for a pattern without sticky state. *)
Definition exec (rx : regexp) (s : string) : option match_result :=
  search rx 0 None s.

(** [rx.test(s)] *)
Definition test (rx : regexp) (s : string) : bool :=
  match exec rx s with Some _ => true | None => false end.

(** [match[0]] *)
Definition matched (s : string) (m : match_result) : string :=
  JsString.substring s (index m) (lastIndex m).

(** [match[n]] for [n >= 1]: [None] is undefined. *)
Fixpoint assoc (n : nat) (l : list (nat * string)) : option string :=
  match l with
  | [] => None
  | (k, v) :: l' => if k =? n then Some v else assoc n l'
  end.

Definition group (m : match_result) (n : nat) : option string :=
  assoc n (groups m).

(** [s.replace(rx, by)] for a replacement text without dollar signs:
    the first match when [rx] is not global, every match otherwise. *)
Fixpoint replace_go (fuel : nat) (rx : regexp) (i : nat) (before : option ascii)
  (s by_ : string) : string :=
  match fuel with
  | O => s
  | S fuel' =>
      match search rx i before s with
      | None => s
      | Some m =>
          let skipped := String.substring 0 (index m - i) s in
          let len := lastIndex m - index m in
          let after := substringFrom (lastIndex m - i) s in
          if negb (global rx) then skipped +:+ by_ +:+ after
          else
            match len, after with
            | O, String c after' =>
                (* an empty match: step over one character *)
                skipped +:+ by_ +:+ String c
                  (replace_go fuel' rx (S (lastIndex m)) (Some c) after' by_)
            | O, EmptyString => skipped +:+ by_
            | S _, _ =>
                let last := String.get (lastIndex m - i - 1) s in
                skipped +:+ by_ +:+ replace_go fuel' rx (lastIndex m) last after by_
            end
      end
  end.

Definition replace (s : string) (rx : regexp) (by_ : string) : string :=
  replace_go (S (String.length s)) rx 0 None s by_.

(** [s.split(rx)] for a pattern without capture groups (ECMA-262,
    RegExp.prototype[@@split]): [p] is where the current piece starts,
    [q] the position tried next, [piece] the characters from [p] to
    [q], most recent first. *)
Fixpoint split_go (fuel : nat) (rx : regexp) (p q : nat) (before : option ascii)
  (piece s : string) : list string :=
  match fuel with
  | O => [String.rev piece +:+ s]
  | S fuel' =>
      match s with
      | EmptyString => [String.rev piece]
      | String c s' =>
          match match_at rx q before s with
          | None => split_go fuel' rx p (S q) (Some c) (String c piece) s'
          | Some m =>
              let e := lastIndex m in
              if e =? p
              then split_go fuel' rx p (S q) (Some c) (String c piece) s'
              else
                let before' :=
                  if e =? q then before else String.get (e - q - 1) s in
                String.rev piece
                :: split_go fuel' rx e e before' "" (substringFrom (e - q) s)
          end
      end
  end.

Definition split (s : string) (rx : regexp) : list string :=
  match s with
  | EmptyString =>
      match match_at rx 0 None s with Some _ => [] | None => [s] end
  | _ => split_go (2 * S (String.length s)) rx 0 0 None "" s
  end.

(** ** Reading a pattern *)

Definition escape_item (c : ascii) : cset :=
  if Ascii.eqb c "s" then CSpace
  else if Ascii.eqb c "S" then CNonSpace
  else if Ascii.eqb c "d" then CDigit
  else if Ascii.eqb c "w" then CWord
  else if Ascii.eqb c "n" then COne "010"
  else if Ascii.eqb c "t" then COne "009"
  else if Ascii.eqb c "r" then COne "013"
  else COne c.

Definition escape_atom (c : ascii) : re :=
  if Ascii.eqb c "b" then WordBoundary
  else match escape_item c with
       | COne a => Chr a
       | it => Class false [it]
       end.

(** The items of a character class, up to the closing bracket. *)
Fixpoint parse_class (fuel : nat) (s : string) : option (list cset * string) :=
  match fuel with
  | O => None
  | S fuel' =>
      match s with
      | EmptyString => None
      | String "]" s' => Some ([], s')
      | String "\" (String c s') =>
          match parse_class fuel' s' with
          | Some (items, s'') => Some (escape_item c :: items, s'')
          | None => None
          end
      | String lo (String "-" (String hi s')) =>
          if Ascii.eqb hi "]"
          then match parse_class fuel' (String "-" (String hi s')) with
               | Some (items, s'') => Some (COne lo :: items, s'')
               | None => None
               end
          else match parse_class fuel' s' with
               | Some (items, s'') => Some (CRange lo hi :: items, s'')
               | None => None
               end
      | String c s' =>
          match parse_class fuel' s' with
          | Some (items, s'') => Some (COne c :: items, s'')
          | None => None
          end
      end
  end.

(** A quantifier after an atom, if any. *)
Definition parse_quant (r : re) (s : string) : re * string :=
  let lazy_of (mn : nat) (mx : option nat) (s' : string) :=
    match s' with
    | String "?" s'' => (Rep mn mx false r, s'')
    | _ => (Rep mn mx true r, s')
    end in
  match s with
  | String "*" s' => lazy_of 0 None s'
  | String "+" s' => lazy_of 1 None s'
  | String "?" s' => lazy_of 0 (Some 1) s'
  | _ => (r, s)
  end.

(** Disjunction, Alternative and Term of the pattern grammar; [gi] is
    the number of capture groups opened so far. *)
Fixpoint parse_disj (fuel gi : nat) (s : string) {struct fuel}
  : option (re * nat * string) :=
  match fuel with
  | O => None
  | S fuel' =>
      match parse_seq fuel' gi s with
      | Some (r1, gi1, String "|" s1) =>
          match parse_disj fuel' gi1 s1 with
          | Some (r2, gi2, s2) => Some (Alt r1 r2, gi2, s2)
          | None => None
          end
      | other => other
      end
  end
with parse_seq (fuel gi : nat) (s : string) {struct fuel}
  : option (re * nat * string) :=
  match fuel with
  | O => None
  | S fuel' =>
      match s with
      | EmptyString => Some (Eps, gi, s)
      | String "|" _ => Some (Eps, gi, s)
      | String ")" _ => Some (Eps, gi, s)
      | _ =>
          match parse_term fuel' gi s with
          | Some (t, gi1, s1) =>
              match parse_seq fuel' gi1 s1 with
              | Some (Eps, gi2, s2) => Some (t, gi2, s2)
              | Some (r, gi2, s2) => Some (Seq t r, gi2, s2)
              | None => None
              end
          | None => None
          end
      end
  end
with parse_term (fuel gi : nat) (s : string) {struct fuel}
  : option (re * nat * string) :=
  match fuel with
  | O => None
  | S fuel' =>
      match s with
      | EmptyString => None
      | String "^" s' => Some (Bol, gi, s')
      | String "$" s' => Some (Eol, gi, s')
      | String "\" (String c s') =>
          let (r, s'') := parse_quant (escape_atom c) s' in Some (r, gi, s'')
      | String "." s' =>
          let (r, s'') := parse_quant Dot s' in Some (r, gi, s'')
      | String "[" (String "^" s') =>
          match parse_class fuel' s' with
          | Some (items, s1) =>
              let (r, s'') := parse_quant (Class true items) s1 in Some (r, gi, s'')
          | None => None
          end
      | String "[" s' =>
          match parse_class fuel' s' with
          | Some (items, s1) =>
              let (r, s'') := parse_quant (Class false items) s1 in Some (r, gi, s'')
          | None => None
          end
      | String "(" (String "?" (String ":" s')) =>
          match parse_disj fuel' gi s' with
          | Some (r1, gi1, String ")" s1) =>
              let (r, s'') := parse_quant r1 s1 in Some (r, gi1, s'')
          | _ => None
          end
      | String "(" s' =>
          match parse_disj fuel' (S gi) s' with
          | Some (r1, gi1, String ")" s1) =>
              let (r, s'') := parse_quant (Group (S gi) r1) s1 in Some (r, gi1, s'')
          | _ => None
          end
      | String c s' =>
          let (r, s'') := parse_quant (Chr c) s' in Some (r, gi, s'')
      end
  end.

(** The pattern of a regular-expression literal; a text that is not a
    pattern of the supported grammar gives [Never]. *)
Definition parse (src : string) : re :=
  match parse_disj (3 * S (String.length src)) 0 src with
  | Some (r, _, EmptyString) => r
  | _ => Never
  end.

Definition wellFormed (src : string) : bool :=
  match parse_disj (3 * S (String.length src)) 0 src with
  | Some (_, _, EmptyString) => true
  | _ => false
  end.

(** [/src/], [/src/i] and [/src/g]. *)
Definition rx (src : string) : regexp := mkRegexp src (parse src) false false.
Definition rxi (src : string) : regexp := mkRegexp src (parse src) true false.
Definition rxg (src : string) : regexp := mkRegexp src (parse src) false true.

(** [rx.toString()] *)
Definition toString (r : regexp) : string :=
  "/" +:+ source r +:+ "/"
  +:+ (if global r then "g" else "") +:+ (if ignoreCase r then "i" else "").

(** [match.length]: the whole match and one entry per capture group. *)
Definition matchLength (r : regexp) : nat := S (List.length (groups_of (body r))).

End Regex.

(* ===================================================================== *)
(** * Intent detection (ai/intent/inferIntent) *)
(* ===================================================================== *)

Module IntentDetection.
Import JsString Regex.

Inductive Intent : Type :=
| architecture_update
| cdk_generation
| code_generation
| code_explanation
| architecture_explanation
| architecture_rationale
| system_design
| comparison
| question
| greeting
| general_chat.

#[global] Instance Intent_eq_dec : EqDecision Intent.
Proof. solve_decision. Defined.

(** The string behind each member of the union type. *)
Definition intentName (i : Intent) : string :=
  match i with
  | architecture_update => "architecture_update"
  | cdk_generation => "cdk_generation"
  | code_generation => "code_generation"
  | code_explanation => "code_explanation"
  | architecture_explanation => "architecture_explanation"
  | architecture_rationale => "architecture_rationale"
  | system_design => "system_design"
  | comparison => "comparison"
  | question => "question"
  | greeting => "greeting"
  | general_chat => "general_chat"
  end.

(** [keywordSets] is optional; an absent [requiresContext] reads as
    false. *)
Record IntentRule : Type := mkRule {
  intent : Intent;
  patterns : list regexp;
  keywordSets : option (list (list string));
  requiresContext : bool;
  weight : Z
}.

Definition intentRules : list IntentRule := [
  mkRule greeting
    [ rxi "^(hi|hello|hey|greetings|howdy|good (morning|afternoon|evening)|what'?s up)" ]
    None false 10;
  mkRule architecture_update
    [ rxi "update (the|this|my|our) (architecture|diagram|system)";
      rxi "add .+ to (the|this|my|our) (architecture|diagram|system)";
      rxi "modify (the|this|my|our) (architecture|diagram|system)";
      rxi "change (the|this|my|our) (architecture|diagram|system)";
      rxi "redesign (the|this|my|our) (architecture|diagram|system)" ]
    (Some [ ["add"; "architecture"];
            ["update"; "architecture"];
            ["modify"; "architecture"];
            ["change"; "architecture"];
            ["redesign"; "architecture"] ])
    true 90;
  mkRule architecture_rationale
    [ rxi "provide.*(rationale|explanation|analysis|assessment|evaluation|review|breakdown|cost analysis|costing).*(for|of|about).*(this|the|current|existing).*(architecture|design|system|diagram)";
      rxi "generate.*(rationale|explanation|analysis|assessment|evaluation|review|breakdown|cost analysis|costing).*(for|of|about).*(this|the|current|existing).*(architecture|design|system|diagram)";
      rxi "explain.*(rationale|reasoning|thinking|logic|decision|costs?|pricing).*(behind|for|of).*(this|the|current|existing).*(architecture|design|system|diagram)";
      rxi "(analyze|assess|evaluate|review).*(this|the|current|existing).*(architecture|design|system|diagram)";
      rxi "what('s| is| are).*(the).*(costs?|pricing|expenses?|budget).*(of|for).*(this|the|current|existing).*(architecture|design|system|diagram)";
      rxi "how much.*(would|does|will).*(this|the|current|existing).*(architecture|design|system|diagram).*(cost)";
      rxi "break down.*(this|the|current).*(architecture|design|system|diagram)" ]
    (Some [ ["rationale"; "architecture"];
            ["explain"; "architecture"];
            ["analyze"; "architecture"];
            ["cost"; "architecture"];
            ["costs"; "architecture"];
            ["pricing"; "architecture"];
            ["evaluation"; "architecture"];
            ["breakdown"; "architecture"];
            ["analysis"; "architecture"];
            ["assessment"; "architecture"] ])
    true 85;
  mkRule cdk_generation
    [ rxi "generate.*(cdk|cloud development kit).*(code|implementation)";
      rxi "create.*(cdk|cloud development kit).*(code|implementation)";
      rxi "write.*(cdk|cloud development kit).*(code|implementation)";
      rxi "implement.*(architecture|diagram|design).*(using|with|in).*(cdk|cloud development kit)";
      rxi "convert.*(architecture|diagram|design).*(to|into).*(cdk|cloud development kit)" ]
    (Some [ ["generate"; "cdk"];
            ["create"; "cdk"];
            ["write"; "cdk"];
            ["implement"; "cdk"];
            ["convert"; "cdk"] ])
    true 100;
  mkRule code_generation
    [ rxi "generate.*(code|function|class|module)";
      rxi "write.*(code|function|class|module)";
      rxi "create.*(code|function|class|module)";
      rxi "implement.*(in|using).*(javascript|typescript|python|java|c#|go)";
      rxi "code.*(for|that).*(does|performs|handles|implements)" ]
    (Some [ ["generate"; "code"];
            ["write"; "code"];
            ["create"; "code"];
            ["implement"; "function"];
            ["code"; "for"] ])
    false 80;
  mkRule code_explanation
    [ rxi "explain.*(this|the).*(code|function|class|module)";
      rxi "how.*(does|do).*(this|the).*(code|function|class|module).*(work|function)";
      rxi "what.*(does|do).*(this|the).*(code|function|class|module).*(do|mean)";
      rxi "understand.*(this|the).*(code|function|class|module)";
      rxi "analyze.*(this|the).*(code|function|class|module)" ]
    (Some [ ["explain"; "code"];
            ["how"; "code"; "work"];
            ["what"; "code"; "do"];
            ["understand"; "code"];
            ["analyze"; "code"] ])
    false 70;
  mkRule architecture_explanation
    [ rxi "explain.*(this|the).*(architecture|diagram|system|design)";
      rxi "how.*(does|do).*(this|the).*(architecture|diagram|system|design).*(work|function)";
      rxi "what.*(does|do).*(this|the).*(architecture|diagram|system|design).*(do|mean)";
      rxi "understand.*(this|the).*(architecture|diagram|system|design)";
      rxi "analyze.*(this|the).*(architecture|diagram|system|design)" ]
    (Some [ ["explain"; "architecture"];
            ["how"; "architecture"; "work"];
            ["what"; "architecture"; "do"];
            ["understand"; "architecture"];
            ["analyze"; "architecture"] ])
    true 75;
  mkRule system_design
    [ rxi "design.*(a|an).*(architecture|system|solution)";
      rxi "create.*(a|an).*(architecture|system|solution).*(for|that)";
      rxi "architect.*(a|an).*(system|solution).*(for|that)";
      rxi "how.*(would|should|could).*(you|we|I).*(architect|design|build|create).*(a|an).*(system|solution)";
      rxi "what.*(architecture|system|solution).*(would|should|could).*(you|we|I).*(use|implement|create).*(for|to)" ]
    (Some [ ["design"; "architecture"];
            ["create"; "system"];
            ["architect"; "solution"];
            ["how"; "design"; "system"];
            ["what"; "architecture"; "use"] ])
    false 85;
  mkRule comparison
    [ rxi "compare.*(between|with|and)";
      rxi "difference.*(between|with|and)";
      rxi "similarities.*(between|with|and)";
      rxi "pros.*(and).*(cons|benefits|advantages|disadvantages)";
      rxi "better.*(option|choice|alternative|approach)";
      rxi "which.*(is|are).*(better|best|optimal|preferred)" ]
    (Some [ ["compare"];
            ["difference"; "between"];
            ["similarities"];
            ["pros"; "cons"];
            ["better"; "option"];
            ["which"; "better"] ])
    false 60;
  mkRule question
    [ rxi "^(what|how|why|when|where|who|which|can|could|would|should|is|are|do|does|did|has|have|had)";
      rx "\?(.*)?$" ]
    None false 20;
  (* the fallback intent, with the lowest weight *)
  mkRule general_chat
    [ rx ".+" ]
    None false 1
].

(** A candidate pushed on [matches]. *)
Record IntentMatch : Type := mkIntentMatch {
  matchIntent : Intent;
  matchWeight : Z
}.

(** [rule.patterns.some(pattern => pattern.test(message))] *)
Definition patternMatched (rule : IntentRule) (message : string) : bool :=
  existsb (fun pattern => test pattern message) (patterns rule).

(** [keywordSet.every(keyword =>
      message.toLowerCase().includes(keyword.toLowerCase()))] *)
Definition keywordSetPresent (message : string) (keywordSet : list string) : bool :=
  forallb (fun keyword => includes (toLowerCase message) (toLowerCase keyword))
    keywordSet.

Definition keywordMatched (rule : IntentRule) (message : string) : bool :=
  match keywordSets rule with
  | Some sets => existsb (keywordSetPresent message) sets
  | None => true
  end.

(** The loop over the rules: the matches, in rule order. *)
Fixpoint collectMatches (rules : list IntentRule) (message : string)
  (hasArchitectureContext : bool) : list IntentMatch :=
  match rules with
  | [] => []
  | rule :: rules' =>
      let others := collectMatches rules' message hasArchitectureContext in
      if requiresContext rule && negb hasArchitectureContext then others
      else if patternMatched rule message && keywordMatched rule message
           then mkIntentMatch (intent rule) (weight rule) :: others
           else others
  end.

(** [Array.prototype.sort] with a comparator is stable: elements that
    compare equal keep their order. *)
Fixpoint insertSorted {A} (cmp : A -> A -> Z) (x : A) (l : list A) : list A :=
  match l with
  | [] => [x]
  | y :: l' => if (cmp x y <=? 0)%Z then x :: l else y :: insertSorted cmp x l'
  end.

Definition stableSort {A} (cmp : A -> A -> Z) (l : list A) : list A :=
  foldr (insertSorted cmp) [] l.

Definition inferIntent (message : string) (hasArchitectureContext : bool) : Intent :=
  let matches := collectMatches intentRules message hasArchitectureContext in
  let sorted :=
    stableSort (fun a b => (matchWeight b - matchWeight a)%Z) matches in
  match sorted with
  | top :: _ => matchIntent top
  | [] => general_chat
  end.

(** [hasArchitectureContext] defaults to false. *)
Definition isGreeting (message : string) : bool :=
  bool_decide (inferIntent message false = greeting).

Definition cdkGenerationPatterns : list regexp := [
  rxi "cdk|cloud development kit";
  rxi "infrastructure as code";
  rxi "iac";
  rxi "cloudformation"
].

(** The first rule of the cascade that fires, if any. *)
Fixpoint firstLanguage (rules : list (regexp * string)) (s : string)
  : option string :=
  match rules with
  | [] => None
  | (pattern, lang) :: rules' =>
      if test pattern s then Some lang else firstLanguage rules' s
  end.

Definition languageRules : list (regexp * string) := [
  (rxi "python|boto3|django|flask|pandas|numpy|pip|\.py", "python");
  (rxi "typescript|ts|angular|vue|react|\.ts", "typescript");
  (rxi "javascript|js|node|express|\.js", "javascript");
  (rxi "java|spring|maven|gradle|\.java", "java");
  (rxi "c#|\.net|asp\.net|azure|\.cs", "csharp");
  (rxi "golang|go\s+lang|\.go", "go");
  (rxi "rust|cargo|\.rs", "rust");
  (rxi "ruby|rails|\.rb", "ruby");
  (rxi "php|laravel|symfony|\.php", "php");
  (rxi "yaml|yml", "yaml");
  (rxi "bash|shell|sh|command line|terminal", "bash");
  (* explicit language mentions *)
  (rxi "\b(?:in|using|with)\s+python\b", "python");
  (rxi "\b(?:in|using|with)\s+typescript\b", "typescript");
  (rxi "\b(?:in|using|with)\s+javascript\b", "javascript");
  (rxi "\b(?:in|using|with)\s+java\b", "java");
  (rxi "\b(?:in|using|with)\s+c#\b", "csharp");
  (rxi "\b(?:in|using|with)\s+go\b", "go");
  (rxi "\b(?:in|using|with)\s+rust\b", "rust");
  (rxi "\b(?:in|using|with)\s+ruby\b", "ruby");
  (rxi "\b(?:in|using|with)\s+php\b", "php")
].

(** [None] is the null result. *)
Definition detectProgrammingLanguage (message : string) : option string :=
  let lowerMessage := toLowerCase message in
  match firstLanguage languageRules lowerMessage with
  | Some lang => Some lang
  | None =>
      (* the default for CDK is TypeScript *)
      if existsb (fun pattern => test pattern lowerMessage) cdkGenerationPatterns
      then Some "typescript"
      else None
  end.

End IntentDetection.

(* ===================================================================== *)
(** * JSON values and the platform *)
(* ===================================================================== *)

Module Json.
Import JsString.

(** A JSON value. A number is kept as the text JavaScript prints for
    it; no arithmetic is done on the numbers of an architecture. *)
Inductive json : Type :=
| JNull
| JBool (b : bool)
| JNum (repr : string)
| JStr (s : string)
| JArr (items : list json)
| JObj (fields : list (string * json)).

(** A JavaScript value read out of JSON data: [None] is undefined. *)
Definition value : Type := option json.

(** The own property [k] of an object; a missing key, and a property
    of a value that is not an object, read as undefined. *)
Fixpoint lookup_field (k : string) (fields : list (string * json)) : value :=
  match fields with
  | [] => None
  | (k', v) :: fields' => if String.eqb k' k then Some v else lookup_field k fields'
  end.

(** [v.k]: reading a property of undefined or null throws. *)
Definition member (v : value) (k : string) : option value :=
  match v with
  | None | Some JNull => None
  | Some (JObj fields) => Some (lookup_field k fields)
  | Some _ => Some None
  end.

(** [v?.k] *)
Definition optMember (v : value) (k : string) : option value :=
  match v with
  | None | Some JNull => Some None
  | _ => member v k
  end.

(** ToBoolean *)
Definition truthy (v : value) : bool :=
  match v with
  | None | Some JNull => false
  | Some (JBool b) => b
  | Some (JNum repr) => negb (String.eqb repr "0")
  | Some (JStr s) => JsString.truthy s
  | Some (JArr _) | Some (JObj _) => true
  end.

(** ToString, as a template literal applies it. Objects are plain
    records: they print as [object Object]; an array prints its
    elements separated by commas, null as the empty text. *)
Fixpoint toStr (j : json) : string :=
  match j with
  | JNull => "null"
  | JBool true => "true"
  | JBool false => "false"
  | JNum repr => repr
  | JStr s => s
  | JArr items =>
      String.concat ","
        (List.map (fun x => match x with JNull => "" | _ => toStr x end) items)
  | JObj _ => "[object Object]"
  end.

Definition toString (v : value) : string :=
  match v with None => "undefined" | Some j => toStr j end.

(** [a === b] for values read from two different places of parsed
    JSON: primitives compare by value, objects and arrays are distinct
    references. *)
Definition strictEq (a b : value) : bool :=
  match a, b with
  | None, None => true
  | Some JNull, Some JNull => true
  | Some (JBool x), Some (JBool y) => Bool.eqb x y
  | Some (JNum x), Some (JNum y) => String.eqb x y
  | Some (JStr x), Some (JStr y) => String.eqb x y
  | _, _ => false
  end.

(** [Array.isArray(v)] *)
Definition isArray (v : value) : bool :=
  match v with Some (JArr _) => true | _ => false end.

(** [{...fields, k: v}]: an existing key keeps its place and takes the
    new value, a new key goes last. *)
Fixpoint set_field (k : string) (v : json) (fields : list (string * json))
  : list (string * json) :=
  match fields with
  | [] => [(k, v)]
  | (k', v') :: fields' =>
      if String.eqb k' k then (k, v) :: fields'
      else (k', v') :: set_field k v fields'
  end.

(** The shape shared by the interfaces [Architecture] (store) and
    [ArchitectureContext] (context manager): [nodes] and [edges] are
    arrays of [any], [metadata] is an optional object. *)
Record Architecture : Type := mkArchitecture {
  nodes : list json;
  edges : list json;
  metadata : option (list (string * json))
}.

(** The members of Object.prototype. An object written as a literal
    inherits them, so reading one of these names from it yields the
    member when the object has no property of its own by that name. *)
Definition objectPrototypeMembers : list string :=
  ["constructor"; "__defineGetter__"; "__defineSetter__"; "hasOwnProperty";
   "__lookupGetter__"; "__lookupSetter__"; "isPrototypeOf";
   "propertyIsEnumerable"; "toString"; "valueOf"; "__proto__";
   "toLocaleString"].

End Json.

(** What the sources take from the platform. The effectful builtins are
    oracles indexed by the number of effects performed so far. *)
Module Platform.
Import Json.

(** The argument of [cohereClient.chat]. *)
Record ChatCall : Type := mkChatCall {
  call_model : string;
  call_message : string;
  call_temperature : Q;
  call_maxTokens : nat;
  call_chatHistory : list (string * string);   (* role, message *)
  call_preamble : option string
}.

Class Platform : Type := {
  (** [JSON.parse(text)]; [None] is a SyntaxError. *)
  JSON_parse : string -> option json;
  (** [JSON.stringify(v, null, 2)] *)
  JSON_stringify : json -> string;
  (** [cohereClient.chat(call)] then [response.text]; [inl] is the
      message of the error it throws. *)
  cohereClient_chat : nat -> ChatCall -> string + string;
  (** [process.env.COHERE_MODEL] *)
  env_COHERE_MODEL : option string;
  (** [Date.now()] *)
  Date_now : nat -> Z;
  (** [new Date().toISOString()] *)
  Date_toISOString : nat -> string;
  (** [performance.now()] *)
  performance_now : nat -> Q;
  (** [Math.random()] *)
  Math_random : nat -> Q
}.

End Platform.

(* ===================================================================== *)
(** * Context generation (ai/context/contextManager) *)
(* ===================================================================== *)

Module ContextManager.
Import JsString Json Platform IntentDetection.

Inductive ContextLevel : Type :=
| none        (* no architecture context *)
| minimal     (* counts and the original requirement *)
| summary     (* services and connections, without JSON *)
| full.       (* the complete architecture JSON *)

#[global] Instance ContextLevel_eq_dec : EqDecision ContextLevel.
Proof. solve_decision. Defined.

(** The interface [ArchitectureContext] is [Json.Architecture]. *)

Definition getContextLevelForIntent (intent : Intent) : ContextLevel :=
  match intent with
  | architecture_update => full
  | cdk_generation => full
  | code_generation | code_explanation | system_design => summary
  | architecture_explanation | comparison | question => minimal
  | greeting | general_chat => none
  | _ => none
  end.

(** [xs.map(f)] for a callback that can throw. *)
Fixpoint mapM {A B} (f : A -> option B) (xs : list A) : option (list B) :=
  match xs with
  | [] => Some []
  | x :: xs' =>
      match f x with
      | None => None
      | Some y =>
          match mapM f xs' with
          | None => None
          | Some ys => Some (y :: ys)
          end
      end
  end.

(** [v || fallback] inside a template literal. *)
Definition showOr (v : value) (fallback : string) : string :=
  if truthy v then toString v else fallback.

(** The line of one node:
    [node.data.service (node.data.label): node.data.description || 'No description'] *)
Definition serviceLine (node : json) : option string :=
  data ← member (Some node) "data";
  service ← member data "service";
  label ← member data "label";
  description ← member data "description";
  Some (toString service +:+ " (" +:+ toString label +:+ "): "
        +:+ showOr description "No description").

(** [nodes.find(n => n.id === edge[key])] *)
Fixpoint findNode (nodes : list json) (edge : json) (key : string)
  : option value :=
  match nodes with
  | [] => Some None
  | n :: nodes' =>
      id ← member (Some n) "id";
      endpoint ← member (Some edge) key;
      if strictEq id endpoint then Some (Some n) else findNode nodes' edge key
  end.

(** [node?.data.label] *)
Definition labelOf (node : value) : option value :=
  match node with
  | None | Some JNull => Some None
  | _ => data ← member node "data"; member data "label"
  end.

(** The line of one edge:
    [source label || 'Unknown' → target label || 'Unknown' (edge.data?.protocol || 'default')] *)
Definition connectionLine (nodes : list json) (edge : json) : option string :=
  sourceNode ← findNode nodes edge "source";
  targetNode ← findNode nodes edge "target";
  sourceLabel ← labelOf sourceNode;
  targetLabel ← labelOf targetNode;
  edgeData ← member (Some edge) "data";
  protocol ← optMember edgeData "protocol";
  Some (showOr sourceLabel "Unknown" +:+ " → " +:+ showOr targetLabel "Unknown"
        +:+ " (" +:+ showOr protocol "default" +:+ ")").

Definition servicesSummaryOf (architecture : Architecture) : option string :=
  lines ← mapM serviceLine (nodes architecture);
  Some (join (nl +:+ "- ") lines).

Definition connectionsSummaryOf (architecture : Architecture) : option string :=
  lines ← mapM (connectionLine (nodes architecture)) (edges architecture);
  Some (join (nl +:+ "- ") lines).

(** [architecture.metadata?.prompt] *)
Definition metadataPrompt (architecture : Architecture) : value :=
  match metadata architecture with
  | None => None
  | Some fields => lookup_field "prompt" fields
  end.

Definition originalRequirementOf (architecture : Architecture) : string :=
  if truthy (metadataPrompt architecture)
  then "Original requirement: " +:+ toString (metadataPrompt architecture)
  else "No original requirement specified".

Section WithPlatform.
Context `{Platform}.

(** [None]: a node or an edge of the wrong shape made a property
    access throw. *)
Definition generateContextString (architecture : Architecture)
  (level : ContextLevel) : option string :=
  match level with
  | none => Some ""
  | _ =>
      (* basic counts for all levels *)
      let serviceCount := List.length (nodes architecture) in
      let connectionCount := List.length (edges architecture) in
      let originalRequirement := originalRequirementOf architecture in
      match level with
      | minimal =>
          Some (nl +:+ "CURRENT ARCHITECTURE (MINIMAL):" +:+ nl
                +:+ "- " +:+ ofNat serviceCount +:+ " services" +:+ nl
                +:+ "- " +:+ ofNat connectionCount +:+ " connections" +:+ nl
                +:+ originalRequirement +:+ nl)
      | _ =>
          servicesSummary ← servicesSummaryOf architecture;
          connectionsSummary ← connectionsSummaryOf architecture;
          match level with
          | summary =>
              Some (nl +:+ "CURRENT ARCHITECTURE SUMMARY:" +:+ nl
                    +:+ "Services (" +:+ ofNat serviceCount +:+ "):" +:+ nl
                    +:+ "- " +:+ servicesSummary +:+ nl
                    +:+ nl
                    +:+ "Connections (" +:+ ofNat connectionCount +:+ "):" +:+ nl
                    +:+ "- " +:+ connectionsSummary +:+ nl
                    +:+ nl
                    +:+ originalRequirement +:+ nl)
          | _ =>
              (* the full level includes the JSON data *)
              let nodesJson := JSON_stringify (JArr (nodes architecture)) in
              let edgesJson := JSON_stringify (JArr (edges architecture)) in
              Some (nl +:+ "FULL CURRENT ARCHITECTURE:" +:+ nl
                    +:+ "Nodes JSON: " +:+ nl
                    +:+ "```json" +:+ nl
                    +:+ nodesJson +:+ nl
                    +:+ "```" +:+ nl
                    +:+ nl
                    +:+ "Edges JSON: " +:+ nl
                    +:+ "```json" +:+ nl
                    +:+ edgesJson +:+ nl
                    +:+ "```" +:+ nl
                    +:+ nl
                    +:+ "Services Summary:" +:+ nl
                    +:+ "- " +:+ servicesSummary +:+ nl
                    +:+ nl
                    +:+ "Connections Summary:" +:+ nl
                    +:+ "- " +:+ connectionsSummary +:+ nl
                    +:+ nl
                    +:+ originalRequirement +:+ nl)
          end
      end
  end.

End WithPlatform.

(** [xs.slice(-limit)] for an integer [limit]: a relative start
    below zero counts from the end, and is zero when it reaches past
    the beginning. *)
Definition sliceFromEnd {A} (limit : Z) (xs : list A) : list A :=
  let len := Z.of_nat (List.length xs) in
  let relativeStart := (- limit)%Z in
  let from :=
    if (relativeStart <? 0)%Z then Z.max (len + relativeStart) 0
    else Z.min relativeStart len in
  drop (Z.to_nat from) xs.

(** The line of one message: [msg.role.toUpperCase(): msg.content];
    a role that is not a string makes the code throw. *)
Definition historyLine (msg : json) : option string :=
  role ← member (Some msg) "role";
  content ← member (Some msg) "content";
  match role with
  | Some (JStr r) => Some (toUpperCase r +:+ ": " +:+ toString content)
  | _ => None
  end.

(** Generate the message history context from previous messages;
    [limit] defaults to 10. *)
Definition generateMessageHistoryContext (messages : option (list json))
  (limit : option Z) : option string :=
  match messages with
  | None | Some [] => Some ""
  | Some messages =>
      (* take only the last few messages for context *)
      let recentMessages := sliceFromEnd (default 10%Z limit) messages in
      historyLines ← mapM historyLine recentMessages;
      Some (nl +:+ "CONVERSATION HISTORY:" +:+ nl
            +:+ join (nl +:+ nl) historyLines +:+ nl)
  end.

End ContextManager.

(* ===================================================================== *)
(** * Prompt templates (ai/prompt/promptTemplates) *)
(* ===================================================================== *)

Module PromptTemplates.
Import JsString IntentDetection.

(** A template literal, line by line. *)
Definition lines (ls : list string) : string := join nl ls.

Record PromptTemplate : Type := mkTemplate {
  systemPrompt : string;
  userPromptPrefix : option string;
  userPromptSuffix : option string;
  temperature : option Q;
  model : option string
}.

Definition BASE_SYSTEM_PROMPT : string := lines [
  "You are Jarvis, an intelligent AI assistant specialized in cloud architecture and system design.";
  "You provide helpful, accurate, and concise responses. ";
  "Always prioritize clarity, security best practices, and scalable design when giving recommendations.";
  "" ].

Definition ARCHITECTURE_SYSTEM_PROMPT : string := lines [
  BASE_SYSTEM_PROMPT;
  "You excel at cloud architecture design using AWS services. When analyzing or modifying architectures:";
  "1. Focus on security, scalability, and cost-effectiveness";
  "2. Use appropriate AWS services for each requirement";
  "3. Consider separation of concerns and system boundaries";
  "4. Suggest efficient data flows between services";
  "5. Recommend appropriate connection protocols between services";
  "" ].

Definition CODE_SYSTEM_PROMPT : string := lines [
  BASE_SYSTEM_PROMPT;
  "You excel at writing clean, efficient, and well-documented code. When generating code:";
  "1. Follow best practices and design patterns for the target language";
  "2. Include necessary error handling and edge cases";
  "3. Write clear comments explaining complex logic";
  "4. Structure the code for maintainability and extensibility";
  "5. Use modern syntax and features when appropriate";
  "" ].

Definition CDK_SYSTEM_PROMPT : string := lines [
  CODE_SYSTEM_PROMPT;
  "You specialize in AWS CDK (Cloud Development Kit) using TypeScript. When generating CDK code:";
  "1. Use L2 constructs when available for better abstractions";
  "2. Apply security best practices (least privilege IAM, encryption)";
  "3. Create reusable and modular constructs ";
  "4. Use proper CDK patterns and idioms";
  "5. Include necessary imports and explicit dependencies";
  "6. Consider resource removal policies and retention strategies";
  "" ].

Definition promptTemplates (intent : Intent) : PromptTemplate :=
  match intent with
  | architecture_update =>
      mkTemplate
        (lines [
           ARCHITECTURE_SYSTEM_PROMPT;
           "When updating an architecture based on user requirements:";
           "1. Always maintain the structure of the existing architecture where possible";
           "2. Add or modify only the necessary components to fulfill the request";
           "3. Preserve IDs and relationships of existing components";
           "4. Explain your reasoning for each change";
           "5. Return the updated nodes and edges JSON that can be directly used to replace the existing architecture" ])
        (Some "Please update the current architecture based on this requirement: ")
        None (Some 0.2%Q) None
  | architecture_rationale =>
      mkTemplate
        (lines [
           ARCHITECTURE_SYSTEM_PROMPT;
           "When providing a comprehensive architecture rationale:";
           "1. Analyze the current architecture in detail including costs, scalability, and security";
           "2. Estimate the cost of each AWS service and provide a total monthly cost estimate";
           "3. Describe the purpose and importance of each component in the system";
           "4. Explain data flows and service connections, including why certain connections exist";
           "5. Evaluate the security, compliance, and operational aspects of the design";
           "6. Provide relevant best practices and potential improvements";
           "7. Format your response with clear markdown headings and structure" ])
        (Some "Please provide a comprehensive rationale and analysis for this architecture: ")
        None (Some 0.3%Q) (Some "gpt-4")
  | cdk_generation =>
      mkTemplate
        (lines [
           CDK_SYSTEM_PROMPT;
           "When generating CDK code for the architecture:";
           "1. Create TypeScript CDK constructs that implement the entire architecture";
           "2. Organize code into logical stacks based on service boundaries";
           "3. Include all necessary connections and permissions between services";
           "4. Add appropriate comments explaining implementation decisions";
           "5. Format your response as compilable TypeScript code in markdown code blocks" ])
        (Some "Generate AWS CDK TypeScript code for the following architecture: ")
        None (Some 0.2%Q) (Some "gpt-4")
  | code_generation =>
      mkTemplate
        (lines [
           CODE_SYSTEM_PROMPT;
           "When generating code based on requirements:";
           "1. Implement a complete solution that meets all specified requirements";
           "2. Structure the code logically with proper separation of concerns";
           "3. Include error handling, validation, and edge case management";
           "4. Add appropriate comments explaining implementation decisions";
           "5. Format your response as compilable code in markdown code blocks" ])
        (Some "Please generate code for the following requirement: ")
        None (Some 0.3%Q) None
  | code_explanation =>
      mkTemplate
        (lines [
           BASE_SYSTEM_PROMPT;
           "When explaining code:";
           "1. First summarize what the code does at a high level";
           "2. Break down key sections and explain their purpose";
           "3. Identify important patterns, algorithms, or techniques used";
           "4. Note any potential issues, optimizations, or security concerns";
           "5. Use clear, educational language assuming the user has technical background" ])
        (Some "Please explain this code: ")
        None (Some 0.3%Q) None
  | architecture_explanation =>
      mkTemplate
        (lines [
           ARCHITECTURE_SYSTEM_PROMPT;
           "When explaining an architecture:";
           "1. Provide a high-level overview of the system and its purpose";
           "2. Describe each component and its role in the architecture";
           "3. Explain the data flow and interactions between components";
           "4. Highlight key design decisions and their rationales";
           "5. Discuss scalability, security, and resilience aspects" ])
        (Some "Please explain this architecture: ")
        None (Some 0.3%Q) None
  | system_design =>
      mkTemplate
        (lines [
           ARCHITECTURE_SYSTEM_PROMPT;
           "When designing a system from requirements:";
           "1. First analyze the functional and non-functional requirements";
           "2. Propose a high-level architecture with appropriate services";
           "3. Justify your choice of components and their relationships";
           "4. Consider scalability, security, reliability, and cost";
           "5. Suggest implementation approaches and potential challenges" ])
        (Some "Please design a system for these requirements: ")
        None (Some 0.4%Q) None
  | comparison =>
      mkTemplate
        (lines [
           BASE_SYSTEM_PROMPT;
           "When making comparisons:";
           "1. Identify the key dimensions for comparison";
           "2. Objectively evaluate each option against these dimensions";
           "3. Highlight the strengths and weaknesses of each option";
           "4. Consider contextual factors that might affect the decision";
           "5. Provide a balanced assessment without unwarranted bias" ])
        (Some "Compare the following: ")
        None (Some 0.3%Q) None
  | question =>
      mkTemplate BASE_SYSTEM_PROMPT None None (Some 0.4%Q) None
  | greeting =>
      mkTemplate
        (lines [
           BASE_SYSTEM_PROMPT;
           "When greeting users:";
           "1. Be friendly, concise, and professional";
           "2. Briefly mention your capabilities relevant to cloud architecture";
           "3. Ask how you can assist them with their cloud architecture needs" ])
        None None (Some 0.7%Q) None
  | general_chat =>
      mkTemplate BASE_SYSTEM_PROMPT None None (Some 0.5%Q) None
  end.

(** Every intent has an entry, so the fallback to [general_chat] of
    the source never fires. *)
Definition getPromptTemplateForIntent (intent : Intent) : PromptTemplate :=
  promptTemplates intent.

Definition buildSystemPrompt (intent : Intent) (contextString : string) : string :=
  let template := getPromptTemplateForIntent intent in
  (* add the context to the system prompt if available *)
  if truthy contextString
  then lines [ systemPrompt template; "    "; "CONTEXT:"; contextString ]
  else systemPrompt template.

Definition formatUserMessage (intent : Intent) (userMessage : string) : string :=
  let template := getPromptTemplateForIntent intent in
  let formattedMessage := userMessage in
  let formattedMessage :=
    match userPromptPrefix template with
    | Some prefix => if truthy prefix then prefix +:+ formattedMessage else formattedMessage
    | None => formattedMessage
    end in
  match userPromptSuffix template with
  | Some suffix => if truthy suffix then formattedMessage +:+ suffix else formattedMessage
  | None => formattedMessage
  end.

(** [template.temperature || 0.4] *)
Definition getModelConfigForIntent (intent : Intent) : Q * option string :=
  let template := getPromptTemplateForIntent intent in
  (match temperature template with
   | Some t => if Qeq_bool t 0 then 0.4%Q else t
   | None => 0.4%Q
   end,
   model template).

End PromptTemplates.

(* ===================================================================== *)
(** * Response post-processing (ai/response/formatResponse) *)
(* ===================================================================== *)

Module ResponseFormatter.
Import JsString Regex IntentDetection.

Inductive ResponseFormat : Type :=
| fmt_markdown
| fmt_code
| fmt_code_with_explanation
| fmt_architecture_update
| fmt_list
| fmt_comparison
| fmt_conversation.

Definition getResponseFormatForIntent (intent : Intent) : ResponseFormat :=
  match intent with
  | architecture_update => fmt_architecture_update
  | cdk_generation | code_generation => fmt_code
  | code_explanation => fmt_code_with_explanation
  | architecture_explanation | system_design => fmt_markdown
  | question | comparison => fmt_list
  | greeting | general_chat => fmt_conversation
  | _ => fmt_conversation
  end.

(** [language || fallback], for a language that is a string, null or
    undefined. *)
Definition languageOr (language : option string) (fallback : string) : string :=
  match language with
  | Some l => orElse l fallback
  | None => fallback
  end.

(** A markdown fence. *)
Definition fence : string := "```".

Definition codeBlockPattern : regexp := rxi "```[a-z]*\n[\s\S]+?```".
Definition codeSectionPattern : regexp :=
  rxi "(?:Here'?s the code|Implementation:|Code example)".
Definition numberedItemPattern : regexp := rx "^\d+\.\s*".

Definition postProcessResponse (intent : Intent) (rawResponse : string)
  (language : option string) : string :=
  match intent with
  | architecture_update =>
      (* architecture updates are handled separately *)
      rawResponse
  | cdk_generation | code_generation =>
      if negb (includes rawResponse fence) then
        (* no code block: wrap the entire response *)
        let lang :=
          languageOr language
            (if bool_decide (intent = cdk_generation) then "typescript" else "javascript") in
        fence +:+ lang +:+ nl +:+ trim rawResponse +:+ nl +:+ fence
      else
        (* extract the first code block with an optional brief intro *)
        match exec codeBlockPattern rawResponse with
        | Some codeBlockMatch =>
            let block := matched rawResponse codeBlockMatch in
            let introText :=
              trim (JsString.substring rawResponse 0
                      (default 0 (indexOf rawResponse fence))) in
            if String.length introText <? 100 then
              if truthy introText then introText +:+ nl +:+ nl +:+ block else block
            else block
        | None => rawResponse
        end
  | code_explanation =>
      if negb (includes rawResponse fence) then
        (* split into explanation and code if possible *)
        match Regex.split rawResponse codeSectionPattern with
        | part0 :: part1 :: _ =>
            let explanation := trim part0 in
            let code := trim part1 in
            let lang := languageOr language "javascript" in
            explanation +:+ nl +:+ nl +:+ fence +:+ lang +:+ nl +:+ code +:+ nl +:+ fence
        | _ => rawResponse
        end
      else rawResponse
  | architecture_explanation | system_design | question | comparison =>
      let header : option string :=
        if negb (includes rawResponse "#") then
          let lines := JsString.split rawResponse nl in
          if (3 <? List.length lines)
             && negb (startsWith (default "" (head lines)) "#") then
            match intent with
            | architecture_explanation =>
                Some ("## Architecture Explanation" +:+ nl +:+ nl +:+ rawResponse)
            | system_design =>
                Some ("## System Design" +:+ nl +:+ nl +:+ rawResponse)
            | comparison =>
                Some ("## Comparison" +:+ nl +:+ nl +:+ rawResponse)
            | _ => None
            end
          else None
        else None in
      match header with
      | Some withHeader => withHeader
      | None =>
          (* paragraphs to bullet points *)
          if (bool_decide (intent = comparison) || bool_decide (intent = question))
             && negb (includes rawResponse "-")
             && negb (includes rawResponse "*")
             && (2 <? List.length (JsString.split rawResponse (nl +:+ nl))) then
            let paragraphs := JsString.split rawResponse (nl +:+ nl) in
            let bulletPoints :=
              List.map (fun p => replace (trim p) numberedItemPattern "- ") paragraphs in
            join (nl +:+ nl) bulletPoints
          else rawResponse
      end
  | greeting | general_chat =>
      (* keep it simple for conversational responses *)
      trim rawResponse
  | _ => rawResponse
  end.

End ResponseFormatter.

(* ===================================================================== *)
(** * The chat completion call (ai/cohere-chat) *)
(* ===================================================================== *)

Module CohereChat.
Import JsString Platform.

Record CohereChatOptions : Type := mkOptions {
  opt_model : option string;
  opt_message : string;
  opt_promptContext : option string;
  opt_temperature : option Q;
  opt_maxTokens : option nat;
  opt_chatHistory : option (list (string * string))   (* role, content *)
}.

Section WithPlatform.
Context `{Platform}.

(** The call made at logical time [clock]; [inl] carries the message
    of the error thrown. *)
Definition generateCohereChatCompletion (clock : nat)
  (options : CohereChatOptions) : string + string :=
  let model := default "command-r-plus" (opt_model options) in
  let promptContext := default "" (opt_promptContext options) in
  let temperature := default 0.7%Q (opt_temperature options) in
  let maxTokens := default 1000 (opt_maxTokens options) in
  let chatHistory := default [] (opt_chatHistory options) in
  let cohereHistory :=
    List.map
      (fun msg : string * string =>
         ((if String.eqb (fst msg) "user" then "USER" else "CHATBOT"), snd msg))
      chatHistory in
  match
    cohereClient_chat clock
      (mkChatCall model (opt_message options) temperature maxTokens cohereHistory
         (if truthy promptContext then Some promptContext else None))
  with
  | inr text => inr text
  | inl error => inl ("Failed to generate chat completion: " +:+ error)
  end.

End WithPlatform.

End CohereChat.

(* ===================================================================== *)
(** * The integration layer (ai/jarvis-integration) *)
(* ===================================================================== *)

Module JarvisIntegration.
Import JsString Regex Json Platform IntentDetection ContextManager
       PromptTemplates ResponseFormatter CohereChat.

Record EnhancedIntentMatch : Type := mkEnhanced {
  intentType : Intent;
  confidence : Q;
  subType : option string;
  entities : option (list (string * string));
  trigger : option string
}.

Record ArchitectureIntent : Type := mkArchIntent {
  pattern : regexp;
  ai_subType : string;
  entityKeys : list string
}.

(** Architecture modification subtypes and entity extraction patterns. *)
Definition architectureIntents : list ArchitectureIntent := [
  mkArchIntent
    (rxi "(?:add|include|incorporate)\s+(?:a|an)?\s*([A-Za-z0-9\s]+)(?:\s+to|\s+in|\s+into|\s+for)?")
    "add_service" ["serviceName"];
  mkArchIntent
    (rxi "(?:remove|delete|exclude)\s+(?:the|a|an)?\s*([A-Za-z0-9\s]+)(?:\s+from|\s+in)?\s*(?:the|my|our)?\s*(?:architecture|system|diagram|project)?")
    "remove_service" ["serviceName"];
  mkArchIntent
    (rxi "(?:connect|link|integrate)\s+(?:the|a|an)?\s*([A-Za-z0-9\s]+)\s+(?:to|with|and)\s+(?:the|a|an)?\s*([A-Za-z0-9\s]+)")
    "connect_services" ["sourceService"; "targetService"];
  mkArchIntent
    (rxi "(?:edit|modify|change|update)\s+(?:the|a|an)?\s*([A-Za-z0-9\s]+)")
    "edit_service" ["serviceName"]
].

(** [entities[k] = v] on a record keyed by strings. *)
Fixpoint set_entity (k v : string) (l : list (string * string))
  : list (string * string) :=
  match l with
  | [] => [(k, v)]
  | (k', v') :: l' =>
      if String.eqb k' k then (k, v) :: l' else (k', v') :: set_entity k v l'
  end.

(** The loop [for (i = 0; i < entityKeys.length && i + 1 < match.length; i++)]
    with body [entities[entityKeys[i]] = match[i + 1]?.trim() || '']. *)
Fixpoint extractEntities (keys : list string) (i matchLen : nat)
  (m : match_result) (acc : list (string * string)) : list (string * string) :=
  match keys with
  | [] => acc
  | key :: keys' =>
      if i + 1 <? matchLen then
        let v := match group m (i + 1) with
                 | Some g => orElse (trim g) ""
                 | None => ""
                 end in
        extractEntities keys' (S i) matchLen m (set_entity key v acc)
      else acc
  end.

(** The first architecture intent whose pattern matches the message. *)
Fixpoint firstArchitectureIntent (candidates : list ArchitectureIntent)
  (message : string) : option (ArchitectureIntent * match_result) :=
  match candidates with
  | [] => None
  | candidate :: candidates' =>
      match exec (pattern candidate) message with
      | Some m => Some (candidate, m)
      | None => firstArchitectureIntent candidates' message
      end
  end.

(** Adjust the confidence from message characteristics. *)
Definition adjustIntentConfidence (intent : EnhancedIntentMatch) (message : string)
  : EnhancedIntentMatch :=
  let c0 := confidence intent in
  (* 1. question mark detection *)
  let c1 :=
    if includes message "?" && negb (bool_decide (intentType intent = question))
    then (c0 - 0.15)%Q else c0 in
  (* 2. code-related keywords *)
  let c2 :=
    if (includes message "code" || includes message "script" || includes message "snippet")
       && negb (bool_decide (intentType intent = code_generation))
       && negb (bool_decide (intentType intent = cdk_generation))
    then (c1 - 0.1)%Q else c1 in
  (* 3. CDK priority *)
  let c3 :=
    if includes (toLowerCase message) "cdk"
       && negb (bool_decide (intentType intent = cdk_generation))
    then (c2 - 0.2)%Q else c2 in
  (* 4. very short messages are likely not architecture updates *)
  let c4 :=
    if bool_decide (intentType intent = architecture_update)
       && (String.length message <? 15)
    then (c3 - 0.3)%Q else c3 in
  mkEnhanced (intentType intent) c4 (subType intent) (entities intent) (trigger intent).

(** Intent detection combined with entity extraction. *)
Definition detectEnhancedIntent (message : string) (hasArchitecture : bool)
  : EnhancedIntentMatch :=
  (* the inferIntent system is the primary classifier *)
  let primaryIntent := inferIntent message hasArchitecture in
  let enhancedIntent := mkEnhanced primaryIntent 0.9%Q None None None in
  let enhancedIntent :=
    if bool_decide (primaryIntent = architecture_update) then
      match firstArchitectureIntent architectureIntents message with
      | Some (found, m) =>
          let ents :=
            if (1 <? matchLength (pattern found)) && (0 <? List.length (entityKeys found))
            then extractEntities (entityKeys found) 0 (matchLength (pattern found)) m []
            else [] in
          mkEnhanced primaryIntent 0.9%Q (Some (ai_subType found)) (Some ents)
            (Some (Regex.toString (pattern found)))
      | None => enhancedIntent
      end
    else enhancedIntent in
  adjustIntentConfidence enhancedIntent message.

Section WithPlatform.
Context `{Platform}.

(** The prompt for the model; [None] when reading the architecture
    throws. *)
Definition generateAIPrompt (intent : EnhancedIntentMatch) (message : string)
  (architecture : Architecture) (targetLanguage : string) : option string :=
  let contextLevel := getContextLevelForIntent (intentType intent) in
  contextString ← generateContextString architecture contextLevel;
  let systemPrompt := buildSystemPrompt (intentType intent) contextString in
  let formattedUserMessage := formatUserMessage (intentType intent) message in
  match intentType intent with
  | architecture_update =>
      let nodesJson := JSON_stringify (JArr (nodes architecture)) in
      let edgesJson := JSON_stringify (JArr (edges architecture)) in
      let editType :=
        match subType intent with Some s => orElse s "modify" | None => "modify" end in
      Some (lines [
        "";
        "You are an AWS architecture expert modifying a diagram JSON based on a user request.";
        "CURRENT ARCHITECTURE JSON:";
        "```json";
        "{ " +:+ dq +:+ "nodes" +:+ dq +:+ ": " +:+ nodesJson +:+ ", "
          +:+ dq +:+ "edges" +:+ dq +:+ ": " +:+ edgesJson +:+ " }";
        "```";
        "USER REQUEST: " +:+ dq +:+ message +:+ dq;
        "TASK: Directly modify the architecture JSON to perform the '" +:+ editType +:+ "' action.";
        "OUTPUT FORMAT (Strictly follow):";
        "<architecture>";
        "{ " +:+ dq +:+ "nodes" +:+ dq +:+ ": [...], "
          +:+ dq +:+ "edges" +:+ dq +:+ ": [...] }";
        "</architecture>";
        "<explanation>";
        "Brief bullet points of changes made.";
        "</explanation>";
        "IMPORTANT: Return the COMPLETE, modified architecture JSON. Ensure nodes/edges arrays are valid.";
        "" ])
  | architecture_rationale =>
      let nodesJson := JSON_stringify (JArr (nodes architecture)) in
      let edgesJson := JSON_stringify (JArr (edges architecture)) in
      servicesSummary ← servicesSummaryOf architecture;
      Some (lines [
        "";
        "You are an AWS architecture expert providing a comprehensive rationale and analysis.";
        "CURRENT ARCHITECTURE JSON:";
        "```json";
        "{ " +:+ dq +:+ "nodes" +:+ dq +:+ ": " +:+ nodesJson +:+ ", "
          +:+ dq +:+ "edges" +:+ dq +:+ ": " +:+ edgesJson +:+ " }";
        "```";
        "";
        "Services Summary:";
        "- " +:+ servicesSummary;
        "";
        "USER REQUEST: " +:+ dq +:+ message +:+ dq;
        "";
        "TASK: Provide a detailed rationale and analysis of this AWS architecture, responding to the user's specific request.";
        "";
        "Include in your comprehensive analysis:";
        "1. Executive Summary - Brief overview of the architecture's purpose and design";
        "2. Cost Analysis - Estimated monthly costs for each AWS service and approximate total cost";
        "3. Architecture Components - Detailed explanation of each service's purpose";
        "4. Data Flow - How information moves through the system";
        "5. Security Assessment - Security features and potential improvements";
        "6. Scalability Analysis - How the system handles increased load";
        "7. Reliability & Availability - Disaster recovery and high availability features";
        "8. Operational Excellence - Monitoring, alerting, and management";
        "9. Best Practices - AWS recommendations that are followed or could be implemented";
        "10. Trade-offs - Key design decisions and their implications";
        "";
        "FORMAT: Use proper markdown formatting with clear headings, bullet points, and tables where appropriate.";
        "For the cost analysis, include a table with service names, estimated usage, and monthly costs.";
        "";
        "IMPORTANT: Make all cost estimates realistic based on typical usage patterns for this type of architecture.";
        "" ])
  | cdk_generation =>
      Some (lines [
        "";
        "You are an AWS CDK expert generating COMPLETE, production-ready Infrastructure as Code.";
        contextString;
        "USER REQUEST: " +:+ dq +:+ message +:+ dq;
        "TASK: Generate complete AWS CDK v2 code in " +:+ targetLanguage
          +:+ " for the user's request, based on the provided architecture context.";
        "OUTPUT FORMAT:";
        "- Start with a brief one-sentence description (optional).";
        "- Provide the code ONLY within a single markdown code block with the correct language tag (e.g., ```"
          +:+ targetLanguage +:+ " ... ```).";
        "- Include necessary imports and structure the code properly (e.g., Stack class).";
        "- DO NOT include explanations outside the code block unless specifically asked.";
        "" ])
  | code_generation =>
      Some (lines [
        "";
        "You are a software engineer generating a concise code snippet.";
        contextString;
        "USER REQUEST: " +:+ dq +:+ message +:+ dq;
        "TASK: Generate a code snippet in " +:+ targetLanguage
          +:+ " that fulfills the user's request, referencing the provided architecture context if needed.";
        "OUTPUT FORMAT:";
        "- Start with a brief one-sentence description (optional, max 1 sentence).";
        "- Provide the code ONLY within a single markdown code block with the correct language tag (```"
          +:+ targetLanguage +:+ " ... ```).";
        "- Include necessary imports/setup for the snippet to be understandable.";
        "- DO NOT include lengthy explanations outside the code block.";
        "" ])
  | _ =>
      (* the standard prompt for the other intents *)
      Some (systemPrompt +:+ nl +:+ nl +:+ "USER MESSAGE: " +:+ formattedUserMessage)
  end.

(** The extraction patterns, in the order they are tried. *)
Definition architecturePatterns : list regexp := [
  (* XML-style tags (the primary pattern) *)
  rx "<architecture>([\s\S]*?)<\/architecture>";
  (* a JSON code block with an architecture label *)
  rx "```(?:json)?\s*(?:architecture|diagram)?\s*([\s\S]*?)```";
  (* fallback: any JSON code block *)
  rx "```json\s*([\s\S]*?)```";
  (* last resort: any JSON object with nodes and edges *)
  rx ("(\{[\s\S]*?" +:+ dq +:+ "nodes" +:+ dq +:+ "\s*:\s*\[[\s\S]*?"
      +:+ dq +:+ "edges" +:+ dq +:+ "\s*:\s*\[[\s\S]*?\})")
].

Definition explanationRegex : regexp := rx "<explanation>([\s\S]*?)<\/explanation>".

(** Markdown artifacts removed from a candidate before it is parsed. *)
Definition fenceArtifacts : regexp := rxg "^```json\s*|\s*```$".

(** [match[1]] when it is a non-empty text. *)
Definition capture1 (pattern : regexp) (s : string) : option string :=
  match exec pattern s with
  | Some m =>
      match group m 1 with
      | Some g => if JsString.truthy g then Some g else None
      | None => None
      end
  | None => None
  end.

(** The text handed to [JSON.parse] for one pattern. *)
Definition candidateText (pattern : regexp) (rawResponse : string)
  : option string :=
  match capture1 pattern rawResponse with
  | Some g => Some (replace (trim g) fenceArtifacts "")
  | None => None
  end.

(** A proper architecture object: truthy, with [nodes] and [edges]
    both arrays. *)
Definition isArchitectureObject (parsed : json) : bool :=
  truthy (Some parsed)
  && isArray (default None (member (Some parsed) "nodes"))
  && isArray (default None (member (Some parsed) "edges")).

(** The loop over the patterns; [parsedArchitecture] is the variable
    of that name, [None] being null. *)
Fixpoint tryPatterns (patterns : list regexp) (rawResponse : string)
  (parsedArchitecture : option json) : option json :=
  match patterns with
  | [] => parsedArchitecture
  | pattern :: patterns' =>
      match candidateText pattern rawResponse with
      | Some architectureText =>
          match JSON_parse architectureText with
          | Some parsed =>
              if isArchitectureObject parsed
              then Some parsed                        (* break *)
              else tryPatterns patterns' rawResponse None
          | None =>
              (* parse error: continue to the next pattern *)
              tryPatterns patterns' rawResponse parsedArchitecture
          end
      | None => tryPatterns patterns' rawResponse parsedArchitecture
      end
  end.

Definition defaultExplanation : string := "Architecture updated.".

Definition processArchitectureUpdate (rawResponse : string)
  : option json * string :=
  let parsedArchitecture := tryPatterns architecturePatterns rawResponse None in
  let explanation :=
    match capture1 explanationRegex rawResponse with
    | Some g => trim g
    | None =>
        (* no explanation tag: the response text minus any JSON blocks *)
        let cleanedResponse :=
          foldl (fun cleaned pattern => replace cleaned pattern "")
            rawResponse architecturePatterns in
        let explanation := orElse (trim cleanedResponse) defaultExplanation in
        (* trim an explanation that is too long *)
        if 1500 <? String.length explanation
        then JsString.substring explanation 0 1500 +:+ "..."
        else explanation
    end in
  (parsedArchitecture, explanation).

Record JarvisResult : Type := mkResult {
  response : string;
  architectureUpdated : bool;
  updatedArchitecture : option json     (* [None]: the key is absent *)
}.

Definition errorResult : JarvisResult :=
  mkResult "Sorry, I encountered an error while processing your request." false None.

(** The options of the chat completion call. *)
Definition completionOptions (enhancedIntent : EnhancedIntentMatch)
  (message aiPrompt : string) : CohereChatOptions :=
  mkOptions
    (Some (match env_COHERE_MODEL with
           | Some m => orElse m "command-r-plus"
           | None => "command-r-plus"
           end))
    message
    (Some aiPrompt)
    (Some (if includes (intentName (intentType enhancedIntent)) "code"
           then 0.5%Q else 0.7%Q))
    (Some 2000)
    None.

Definition updateFailedResponse : string :=
  "I tried to update the architecture, but couldn't parse the result properly. Please try rephrasing your request.".

(** The body of the try block, [None] when it throws. *)
Definition runPipeline (clock : nat) (message : string)
  (architecture : Architecture) : option JarvisResult :=
  (* layer 1: intent detection *)
  let enhancedIntent := detectEnhancedIntent message true in
  (* layer 2: language detection *)
  let targetLanguage :=
    languageOr (detectProgrammingLanguage message) "typescript" in
  (* layer 3: the prompt *)
  aiPrompt ← generateAIPrompt enhancedIntent message architecture targetLanguage;
  (* layer 4: the response of the model *)
  match
    generateCohereChatCompletion clock
      (completionOptions enhancedIntent message aiPrompt)
  with
  | inl _ => None
  | inr rawResponse =>
      (* layer 5: process the response *)
      if bool_decide (intentType enhancedIntent = architecture_update) then
        let '(parsedArchitecture, explanation) := processArchitectureUpdate rawResponse in
        match parsedArchitecture with
        | Some parsed =>
            if truthy (Some parsed)
               && truthy (default None (member (Some parsed) "nodes"))
               && truthy (default None (member (Some parsed) "edges"))
            then
              Some (mkResult
                      ("âœ… Architecture updated successfully." +:+ nl +:+ nl +:+ explanation)
                      true (Some parsed))
            else Some (mkResult updateFailedResponse false None)
        | None => Some (mkResult updateFailedResponse false None)
        end
      else
        Some (mkResult
                (postProcessResponse (intentType enhancedIntent) rawResponse
                   (Some targetLanguage))
                false None)
  end.

(** The pipeline of one request; [messageHistory] is accepted and
    not used. *)
Definition processJarvisRequest (clock : nat) (message : string)
  (architecture : Architecture) (messageHistory : option (list json))
  : JarvisResult :=
  match runPipeline clock message architecture with
  | Some result => result
  | None => errorResult
  end.

End WithPlatform.

End JarvisIntegration.

(* ===================================================================== *)
(** * The orchestrator (ai/jarvis-orchestrator) *)
(* ===================================================================== *)

Module JarvisOrchestrator.
Import JsString Json Platform IntentDetection JarvisIntegration.

Record IntentEntry : Type := mkEntry {
  entryIntent : Intent;
  entryTimestamp : Z
}.

Record ChatMessage : Type := mkMessage {
  role : string;
  content : string;
  timestamp : option string
}.

Record ConversationSession : Type := mkSession {
  id : string;
  messageCount : nat;
  lastMessageTimestamp : Z;
  intents : list IntentEntry;
  conversationSummary : option string;
  messages : option (list ChatMessage)
}.

(** The module-level state: the own properties of the global session
    table [activeSessions], and the logical time at which the platform
    is read next. The prototype of the table is Object.prototype, as
    the platform provides it: nothing in the module replaces it. *)
Record Globals : Type := mkGlobals {
  activeSessions : gmap string ConversationSession;
  clock : nat
}.

(** What reading a property of [activeSessions] yields. The table is
    an object literal: a key that has no session of its own and names
    a member of Object.prototype reads as that member, a function or,
    for __proto__, Object.prototype itself. *)
Inductive SessionRef : Type :=
| aSession (session : ConversationSession)
| anInherited (name : string).

(** [activeSessions[key]]; [None] is undefined. What it yields
    otherwise is an object or a function, hence truthy. *)
Definition readSession (sessions : gmap string ConversationSession) (key : string)
  : option SessionRef :=
  match sessions !! key with
  | Some session => Some (aSession session)
  | None =>
      if bool_decide (key ∈ objectPrototypeMembers)
      then Some (anInherited key) else None
  end.

(** How a call ends: it returns or it throws. *)
Inductive Completion (A : Type) : Type :=
| Normal (a : A)
| Throw.
Arguments Normal {A} a.
Arguments Throw {A}.

(** Computations over the globals. *)
Definition M (A : Type) : Type := Globals -> A * Globals.

#[global] Instance M_ret : MRet M := fun A (a : A) (g : Globals) => (a, g).
#[global] Instance M_bind : MBind M :=
  fun A B (f : A -> M B) (m : M A) (g : Globals) => let (a, g') := m g in f a g'.

Definition getSessions : M (gmap string ConversationSession) :=
  fun g => (activeSessions g, g).
Definition putSession (key : string) (session : ConversationSession) : M unit :=
  fun g => (tt, mkGlobals (<[key := session]> (activeSessions g)) (clock g)).
Definition deleteSession (key : string) : M unit :=
  fun g => (tt, mkGlobals (delete key (activeSessions g)) (clock g)).
(** Read the platform: the current logical time, which then advances. *)
Definition tick : M nat :=
  fun g => (clock g, mkGlobals (activeSessions g) (S (clock g))).

Record ResponseMetrics : Type := mkMetrics {
  intentDetectionTimeMs : Q;
  promptGenerationTimeMs : Q;
  aiRequestTimeMs : Q;
  responseProcessingTimeMs : Q;
  totalProcessingTimeMs : Q
}.

Record ResponseMetadata : Type := mkMetadata {
  meta_intent : Intent;
  meta_subIntent : option string;
  meta_confidence : Q;
  meta_metrics : option ResponseMetrics;
  meta_suggestedFollowups : option (list string)
}.

Record EnhancedResponse : Type := mkEnhancedResponse {
  er_response : string;
  er_architectureUpdated : bool;
  er_updatedArchitecture : option json;
  er_metadata : option ResponseMetadata
}.

(** The argument of [updateSession], of type [any]: the two keys it
    reads. *)
Record SessionUpdate : Type := mkUpdate {
  upd_messages : option (list ChatMessage);
  upd_intent : option Intent
}.

(** [xs.slice(-n)] *)
Definition lastN {A} (n : nat) (xs : list A) : list A :=
  drop (List.length xs - n) xs.

(** [xs.some(f)] for a callback that can throw. *)
Fixpoint someM {A} (f : A -> option bool) (xs : list A) : option bool :=
  match xs with
  | [] => Some false
  | x :: xs' =>
      match f x with
      | None => None
      | Some true => Some true
      | Some false => someM f xs'
      end
  end.

(** [s.includes(needle)] for [s] of type [any]: a string searches a
    substring, an array an element, anything else throws. *)
Definition anyIncludes (s : value) (needle : string) : option bool :=
  match s with
  | Some (JStr text) => Some (includes text needle)
  | Some (JArr items) =>
      Some (existsb (fun x => strictEq (Some x) (Some (JStr needle))) items)
  | _ => None
  end.

Definition includesEither (a b : string) (s : value) : option bool :=
  match anyIncludes s a with
  | None => None
  | Some true => Some true
  | Some false => anyIncludes s b
  end.

(** Swap the elements at [i] and [j]. *)
Definition swap {A} (i j : nat) (xs : list A) : list A :=
  match xs !! i, xs !! j with
  | Some a, Some b => <[i := b]> (<[j := a]> xs)
  | _, _ => xs
  end.

Section WithPlatform.
Context `{Platform}.

Definition dateNow : M Z := t ← tick; mret (Date_now t).
Definition performanceNow : M Q := t ← tick; mret (performance_now t).
Definition mathRandom : M Q := t ← tick; mret (Math_random t).

(** Initialize or retrieve a conversation session. What the table
    yields under the id is returned as it is, a session or an
    inherited member; a session is created only when it yields
    nothing. *)
Definition getOrCreateSession (architectureId : string) : M SessionRef :=
  sessions ← getSessions;
  match readSession sessions architectureId with
  | Some session => mret session
  | None =>
      now ← dateNow;
      let session := mkSession architectureId 0 now [] None None in
      _ ← putSession architectureId session;
      mret (aSession session)
  end.

(** The updates applied to a session object. The object is mutated
    in place: the result is written back under its key. *)
Definition updateStored (sessionId : string) (session : ConversationSession)
  (update : SessionUpdate) : M unit :=
  (* apply the updates *)
  let session :=
    match upd_messages update with
    | Some msgs =>
        mkSession (id session) (List.length msgs) (lastMessageTimestamp session)
          (intents session) (conversationSummary session) (Some msgs)
    | None => session
    end in
  session ←
    match upd_intent update with
    | Some intent =>
        (* add the intent to the history *)
        now ← dateNow;
        let pushed := intents session ++ [mkEntry intent now] in
        (* limit the history size *)
        let limited :=
          if 20 <? List.length pushed then lastN 20 pushed else pushed in
        mret (mkSession (id session) (messageCount session)
                (lastMessageTimestamp session) limited
                (conversationSummary session) (messages session))
    | None => mret session
    end;
  (* update the timestamp *)
  now ← dateNow;
  putSession sessionId
    (mkSession (id session) (messageCount session) now (intents session)
       (conversationSummary session) (messages session)).

(** The same statements when the session is a member of
    Object.prototype. The messages and the timestamp are assigned as
    properties of the member; the member has no [intents], so an
    update with an intent throws at [session.intents.push], before
    Date.now is read. The properties assigned are no part of the
    state kept here: on one of the functions nothing described reads
    them, and for Object.prototype see [writesObjectPrototype]. *)
Definition updateInherited (update : SessionUpdate) : M (Completion unit) :=
  match upd_intent update with
  | Some _ => mret Throw
  | None =>
      (* update the timestamp *)
      now ← dateNow;
      mret (Normal tt)
  end.

(** Update a session with new message information. *)
Definition updateSession (sessionId : string) (update : SessionUpdate)
  : M (Completion unit) :=
  (* get the session *)
  session ← getOrCreateSession sessionId;
  match session with
  | aSession session =>
      _ ← updateStored sessionId session update;
      mret (Normal tt)
  | anInherited _ => updateInherited update
  end.

(** Whether [updateSession] assigns a property of Object.prototype:
    the session is Object.prototype itself, read under __proto__, and
    the messages are assigned to it, or, the update having no intent,
    the timestamp. Object.prototype is taken as the platform provides
    it, and this effect is on no part of [Globals]: the states
    described are those in which no call has had it. *)
Definition writesObjectPrototype (sessionId : string) (update : SessionUpdate)
  (g : Globals) : bool :=
  match readSession (activeSessions g) sessionId with
  | Some (anInherited name) =>
      bool_decide (name = "__proto__")
      && match upd_messages update, upd_intent update with
         | None, Some _ => false
         | _, _ => true
         end
  | _ => false
  end.

(** The Fisher-Yates loop, [i] running from [n] down to 1. *)
Fixpoint shuffleFrom {A} (i : nat) (newArray : list A) : M (list A) :=
  match i with
  | O => mret newArray
  | S i' =>
      r ← mathRandom;
      let j := Z.to_nat (Qfloor (r * inject_Z (Z.of_nat (i + 1)))) in
      shuffleFrom i' (swap i j newArray)
  end.

Definition shuffleArray {A} (array : list A) : M (list A) :=
  shuffleFrom (List.length array - 1) array.

Definition intentSuggestions (intent : Intent) : list string :=
  match intent with
  | architecture_update =>
      [ "Generate CDK code for this architecture";
        "What are the security considerations for this design?";
        "Explain the data flow in this architecture" ]
  | architecture_rationale =>
      [ "How can we optimize the costs of this architecture?";
        "What would be the disaster recovery strategy for this design?";
        "Generate CDK code for this architecture";
        "How would this architecture scale to handle 10x the load?";
        "What are the security best practices we should implement?" ]
  | cdk_generation =>
      [ "How would I deploy this CDK code?";
        "What AWS permissions are needed to deploy this?";
        "Explain how the CDK constructs work together" ]
  | code_generation =>
      [ "Explain how this code works";
        "What error handling should I add?";
        "How would I test this code?" ]
  | architecture_explanation | code_explanation | question =>
      [ "Generate code example for this concept";
        "What are the best practices for this?";
        "What are common mistakes to avoid?" ]
  | _ =>
      [ "Update the architecture diagram";
        "Generate CDK code for AWS deployment";
        "Explain the benefits of this architecture" ]
  end.

Definition suggestUnless (present : bool) (suggestion : string) : list string :=
  if present then [] else [suggestion].

(** The suggestions added for components the architecture lacks;
    [None] when a node of the wrong shape makes the code throw. *)
Definition architectureSuggestions (architecture : Architecture)
  : option (list string) :=
  if 0 <? List.length (nodes architecture) then
    serviceTypes ←
      ContextManager.mapM
        (fun node => data ← member (Some node) "data"; member data "service")
        (nodes architecture);
    hasLambda ← someM (fun s => anyIncludes s "Lambda") serviceTypes;
    hasDatabase ← someM (includesEither "DynamoDB" "RDS") serviceTypes;
    hasGateway ← someM (includesEither "CloudFront" "API Gateway") serviceTypes;
    Some (suggestUnless hasLambda "Add a Lambda function to handle API requests"
          ++ suggestUnless hasDatabase "Add a database to store application data"
          ++ suggestUnless hasGateway "Add an API Gateway to manage API endpoints")
  else Some [].

(** Follow-up suggestions for the current intent: three of them,
    picked after a shuffle. *)
Definition generateFollowupSuggestions (intent : EnhancedIntentMatch)
  (architecture : Architecture) : M (option (list string)) :=
  match architectureSuggestions architecture with
  | None => mret None
  | Some extra =>
      shuffled ← shuffleArray (intentSuggestions (intentType intent) ++ extra);
      mret (Some (take 3 shuffled))
  end.

Definition fallbackResponse : string :=
  "I'm sorry, I encountered an error while processing your request. Please try again or rephrase your question.".

(** Process a request with session management and metrics. *)
Definition orchestrateJarvisRequest (message architectureId : string)
  (architecture : Architecture) (messageHistory : option (list json))
  : M EnhancedResponse :=
  startTime ← performanceNow;
  (* get or create the session *)
  session ← getOrCreateSession architectureId;
  (* detect the intent, with timing *)
  intentStartTime ← performanceNow;
  let intent := detectEnhancedIntent message true in
  intentEnd ← performanceNow;
  let intentDetectionTime := (intentEnd - intentStartTime)%Q in
  (* update the session with the new message *)
  updated ← updateSession architectureId (mkUpdate None (Some (intentType intent)));
  match updated with
  | Normal _ =>
      (* process the request through the integration layer *)
      processingStartTime ← performanceNow;
      t ← tick;
      let result := processJarvisRequest t message architecture messageHistory in
      processingEnd ← performanceNow;
      let aiRequestTime := (processingEnd - processingStartTime)%Q in
      (* follow-up suggestions *)
      followups ← generateFollowupSuggestions intent architecture;
      endTime ← performanceNow;
      let metrics :=
        mkMetrics intentDetectionTime 0 aiRequestTime 0 (endTime - startTime)%Q in
      match followups with
      | Some suggestedFollowups =>
          mret (mkEnhancedResponse (response result) (architectureUpdated result)
                  (updatedArchitecture result)
                  (Some (mkMetadata (intentType intent) (subType intent)
                           (confidence intent) (Some metrics)
                           (Some suggestedFollowups))))
      | None =>
          (* the catch block *)
          mret (mkEnhancedResponse fallbackResponse false None
                  (Some (mkMetadata general_chat None 0 (Some metrics) None)))
      end
  | Throw =>
      (* the catch block, entered from [updateSession] *)
      endTime ← performanceNow;
      let metrics :=
        mkMetrics intentDetectionTime 0 0 0 (endTime - startTime)%Q in
      mret (mkEnhancedResponse fallbackResponse false None
              (Some (mkMetadata general_chat None 0 (Some metrics) None)))
  end.

(** Analytics of one conversation: the session, the number of
    entries per intent, and the message count. An inherited member
    has no [intents]: [session.intents.forEach] throws. *)
Definition getConversationAnalytics (architectureId : string)
  : M (Completion
         (option ConversationSession * option (list (Intent * nat)) * nat * bool)) :=
  sessions ← getSessions;
  match readSession sessions architectureId with
  | None => mret (Normal (None, None, 0, false))
  | Some (aSession session) =>
      let count (i : Intent) :=
        List.length
          (List.filter (fun e => bool_decide (entryIntent e = i)) (intents session)) in
      let seen :=
        remove_dups (List.map entryIntent (intents session)) in
      mret (Normal (Some session, Some (List.map (fun i => (i, count i)) seen),
                    messageCount session, true))
  | Some (anInherited _) => mret Throw
  end.

(** Clear the session data of a conversation: whatever the table
    yields under the id counts as a session; [delete] removes the
    own property, if there is one. *)
Definition clearConversationSession (architectureId : string) : M bool :=
  sessions ← getSessions;
  match readSession sessions architectureId with
  | Some _ => _ ← deleteSession architectureId; mret true
  | None => mret false
  end.

End WithPlatform.

End JarvisOrchestrator.

(* ===================================================================== *)
(** * The architecture store (store/architecture-store, app/api/store) *)
(* ===================================================================== *)

Module ArchitectureStore.
Import JsString Json Platform.

(** [architectureStore], the exported object of app/api/store, used
    as a map from architecture ids to architectures: its own
    properties, and its prototype, which is Object.prototype ([None])
    until an assignment to the property __proto__ replaces it by the
    object assigned. *)
Record StoreObject : Type := mkStore {
  own : gmap string Architecture;
  proto : option Architecture
}.

(** The store starts as the empty literal. *)
Definition architectureStore_init : StoreObject := mkStore ∅ None.

(** [{...a, ...b}] on metadata objects; an absent object spreads
    nothing. *)
Definition spread (a : list (string * json)) (b : option (list (string * json)))
  : list (string * json) :=
  foldl (fun acc kv => set_field (fst kv) (snd kv) acc) a (default [] b).

(** What reading a property of the store yields: a saved
    architecture, a property of the architecture that has become the
    prototype, or a member of Object.prototype (for __proto__,
    Object.prototype itself). *)
Inductive StoreValue : Type :=
| anArchitecture (architecture : Architecture)
| aField (field : json)
| aBuiltin (name : string).

(** The own property [key] of an architecture object. *)
Definition fieldOf (architecture : Architecture) (key : string) : value :=
  if String.eqb key "nodes" then Some (JArr (nodes architecture))
  else if String.eqb key "edges" then Some (JArr (edges architecture))
  else if String.eqb key "metadata" then
    match metadata architecture with
    | Some fields => Some (JObj fields)
    | None => None
    end
  else None.

(** [architectureStore[key]]: the own property when there is one;
    for __proto__ the prototype; otherwise what the prototype chain
    has by that name. [None] is undefined. *)
Definition readProperty (architectureStore : StoreObject) (key : string)
  : option StoreValue :=
  match own architectureStore !! key with
  | Some architecture => Some (anArchitecture architecture)
  | None =>
      if String.eqb key "__proto__" then
        match proto architectureStore with
        | Some prototype => Some (anArchitecture prototype)
        | None => Some (aBuiltin key)
        end
      else
        match proto architectureStore ≫= (fun prototype => fieldOf prototype key) with
        | Some field => Some (aField field)
        | None =>
            if bool_decide (key ∈ objectPrototypeMembers)
            then Some (aBuiltin key) else None
        end
  end.

(** [architectureStore[key] = architecture]: assigning to __proto__
    sets the prototype, any other key becomes an own property. *)
Definition writeProperty (architectureStore : StoreObject) (key : string)
  (architecture : Architecture) : StoreObject :=
  if String.eqb key "__proto__"
  then mkStore (own architectureStore) (Some architecture)
  else mkStore (<[key := architecture]> (own architectureStore))
         (proto architectureStore).

(** [delete architectureStore[key]] removes an own property. *)
Definition deleteProperty (architectureStore : StoreObject) (key : string)
  : StoreObject :=
  mkStore (delete key (own architectureStore)) (proto architectureStore).

(** ToBoolean of what a property read yields: objects, arrays and
    functions are truthy. *)
Definition isTruthy (v : option StoreValue) : bool :=
  match v with
  | None => false
  | Some (aField field) => Json.truthy (Some field)
  | Some _ => true
  end.

(** Get an architecture by id; [None] is null. *)
Definition getArchitecture (architectureStore : StoreObject)
  (architectureId : string) : option StoreValue :=
  if negb (JsString.truthy architectureId) then None
  else
    (* retrieve from the in-memory store *)
    let architecture := readProperty architectureStore architectureId in
    if isTruthy architecture then architecture else None.

Section WithPlatform.
Context `{Platform}.

(** Save or update an architecture at logical time [clock]. The
    result is the stored architecture and the new store; an empty
    id throws ([None]) and leaves the store as it is. [editedBy]
    defaults to 'system'. *)
Definition saveArchitecture (architectureStore : StoreObject)
  (clock : nat) (architectureId : string) (architecture : Architecture)
  (editedBy : option string)
  : option Architecture * StoreObject :=
  let editedBy := default "system" editedBy in
  if negb (JsString.truthy architectureId) then (None, architectureStore)
  else
    (* update the metadata *)
    let updatedArchitecture :=
      mkArchitecture (nodes architecture) (edges architecture)
        (Some (set_field "lastEditedBy" (JStr editedBy)
                 (set_field "lastEditedAt" (JStr (Date_toISOString clock))
                    (spread [] (metadata architecture))))) in
    (* store in memory *)
    (Some updatedArchitecture,
     writeProperty architectureStore architectureId updatedArchitecture).

(** Delete an architecture by id. *)
Definition deleteArchitecture (architectureStore : StoreObject)
  (architectureId : string) : bool * StoreObject :=
  if negb (JsString.truthy architectureId) then (false, architectureStore)
  else if isTruthy (readProperty architectureStore architectureId)
       then (true, deleteProperty architectureStore architectureId)
       else (false, architectureStore).

(** Get all architectures, for listing: the own properties. The
    list is in the order of the map; the order of the source, that of
    insertion, is not modelled. *)
Definition getAllArchitectures (architectureStore : StoreObject)
  : list (string * Architecture) :=
  map_to_list (own architectureStore).

End WithPlatform.

End ArchitectureStore.

(* ===================================================================== *)
(** * The routes that read the store (api/architecture, api/download-cdk) *)
(* ===================================================================== *)

Module ArchitectureRoutes.
Import JsString Json Platform ArchitectureStore.

(** What a route answers: the status, the headers the route sets,
    and the body, the data given to [NextResponse.json] or to
    [new NextResponse]. *)
Record Response : Type := mkResponse {
  status : nat;
  headers : list (string * string);
  body : value
}.

(** A field whose value is undefined is left out of the JSON text. *)
Fixpoint present (fields : list (string * value)) : list (string * json) :=
  match fields with
  | [] => []
  | (k, Some v) :: fields' => (k, v) :: present fields'
  | (_, None) :: fields' => present fields'
  end.

(** [NextResponse.json(data, { status })] *)
Definition jsonResponse (status : nat) (data : list (string * value)) : Response :=
  mkResponse status [] (Some (JObj (present data))).

Definition messageResponse (status : nat) (message : string) : Response :=
  jsonResponse status [("message", Some (JStr message))].

(** [v.key] for what a read of the store yields: a saved architecture
    has its three fields, an object its own fields; an array and a
    member of Object.prototype have none of the names asked for here
    (nodes, edges, metadata). *)
Definition propertyOf (v : StoreValue) (key : string) : value :=
  match v with
  | anArchitecture architecture => fieldOf architecture key
  | aField (JObj fields) => lookup_field key fields
  | aField _ => None
  | aBuiltin _ => None
  end.

(** The handler of GET for one architecture (api/architecture/[id]). *)
Definition GET_architecture (architectureStore : StoreObject) (id : string)
  : Response :=
  if negb (JsString.truthy id) then
    messageResponse 400 "Architecture ID is required"
  else
    (* retrieve the architecture from the store *)
    match getArchitecture architectureStore id with
    | None => messageResponse 404 ("Architecture with ID " +:+ id +:+ " not found")
    | Some architecture =>
        (* return the architecture data *)
        jsonResponse 200
          [ ("nodes", propertyOf architecture "nodes");
            ("edges", propertyOf architecture "edges");
            ("metadata", propertyOf architecture "metadata") ]
    end.

(** The file extension for a CDK language. *)
Definition fileExtensionOf (language : value) : string :=
  match language with
  | Some (JStr l) =>
      if String.eqb l "javascript" then "js"
      else if String.eqb l "python" then "py"
      else if String.eqb l "java" then "java"
      else if String.eqb l "csharp" then "cs"
      else "ts"
  | _ => "ts"
  end.

(** The handler of GET for the CDK code of one architecture
    (api/download-cdk/[id]); it reads the store object directly. *)
Definition GET_downloadCdk (architectureStore : StoreObject) (id : string)
  : Response :=
  if negb (JsString.truthy id) then
    messageResponse 400 "Architecture ID is required"
  else
    match readProperty architectureStore id with
    | Some architecture =>
        if negb (isTruthy (Some architecture)) then
          messageResponse 404 ("Architecture with ID " +:+ id +:+ " not found")
        else
          let metadata := propertyOf architecture "metadata" in
          let cdkCode := default None (optMember metadata "cdkCode") in
          if negb (Json.truthy cdkCode) then
            messageResponse 404 ("No CDK code found for architecture " +:+ id)
          else
            (* the file extension follows the language *)
            let cdkLanguage := default None (member metadata "cdkLanguage") in
            let language :=
              if Json.truthy cdkLanguage then cdkLanguage
              else Some (JStr "typescript") in
            let fileExtension := fileExtensionOf language in
            mkResponse 200
              [ ("Content-Type", "text/plain");
                ("Content-Disposition",
                 "attachment; filename=" +:+ dq +:+ "architecture-" +:+ id
                 +:+ "." +:+ fileExtension +:+ dq) ]
              cdkCode
    | None => messageResponse 404 ("Architecture with ID " +:+ id +:+ " not found")
    end.

End ArchitectureRoutes.

(* ===================================================================== *)
(** * Retries with exponential backoff (utils/retry-helpers) *)
(* ===================================================================== *)

Module RetryHelpers.
Import JsString Platform.

(** [maxRetries] is a count of retries; the delays are in
    milliseconds. *)
Record RetryOptions : Type := mkRetryOptions {
  maxRetries : option nat;
  initialDelayMs : option Q;
  maxDelayMs : option Q;
  backoffFactor : option Q;
  jitterFactor : option Q;
  retryStatusCodes : option (list Z)
}.

Definition noOptions : RetryOptions :=
  mkRetryOptions None None None None None None.

(** What the loop reads of a thrown error. *)
Record Error : Type := mkError {
  status : option Z;
  message : option string
}.

(** [Math.min(a, b)] *)
Definition Math_min (a b : Q) : Q := if Qle_bool a b then a else b.

(** [error.status && retryStatusCodes.includes(error.status)] *)
Definition statusRetryable (codes : list Z) (error : Error) : bool :=
  match status error with
  | Some code => negb (code =? 0)%Z && existsb (Z.eqb code) codes
  | None => false
  end.

(** [error.message && error.message.includes(text)] *)
Definition messageHas (error : Error) (text : string) : bool :=
  match message error with
  | Some m => JsString.truthy m && includes m text
  | None => false
  end.

Definition shouldRetry (codes : list Z) (error : Error) : bool :=
  statusRetryable codes error
  || messageHas error "Service Unavailable"
  || (messageHas error "network"
      || messageHas error "timeout"
      || messageHas error "overloaded").

(** What a run of the helper did and gave: the outcome of each
    invocation of the operation, in order; the value of [delayMs] at
    each wait, with the jitter added to it; the final outcome ([inl]
    is the error thrown to the caller); the state the operation left. *)
Record Run (S T : Type) : Type := mkRun {
  attempts : list (Error + T);
  delays : list Q;
  jitters : list Q;
  outcome : Error + T;
  finalState : S
}.
Arguments mkRun {S T}.
Arguments attempts {S T}.
Arguments delays {S T}.
Arguments jitters {S T}.
Arguments outcome {S T}.
Arguments finalState {S T}.

Definition addAttempt {S T} (a : Error + T) (r : Run S T) : Run S T :=
  mkRun (a :: attempts r) (delays r) (jitters r) (outcome r) (finalState r).

Definition addWait {S T} (delayMs jitter : Q) (r : Run S T) : Run S T :=
  mkRun (attempts r) (delayMs :: delays r) (jitter :: jitters r) (outcome r)
    (finalState r).

Section WithPlatform.
Context `{Platform}.
Context {S T : Type}.

(** The operation: an effectful call that returns or throws. *)
Variable operation : S -> (Error + T) * S.

(** The loop [for (attempt = 0; attempt <= maxRetries; attempt++)];
    [retriesLeft] is [maxRetries - attempt]. *)
Fixpoint attemptLoop (codes : list Z) (maxDelay factor jitterF : Q)
  (retriesLeft : nat) (delayMs : Q) (clock : nat) (s : S) : Run S T :=
  match operation s with
  | (inr result, s') => mkRun [inr result] [] [] (inr result) s'
  | (inl error, s') =>
      (* no retry, or out of retries: throw the error *)
      match retriesLeft with
      | O => mkRun [inl error] [] [] (inl error) s'
      | Datatypes.S retriesLeft' =>
          if negb (shouldRetry codes error)
          then mkRun [inl error] [] [] (inl error) s'
          else
            (* wait before retrying, with jitter *)
            let jitter := (Math_random clock * jitterF * delayMs)%Q in
            addAttempt (inl error)
              (addWait delayMs jitter
                 (attemptLoop codes maxDelay factor jitterF retriesLeft'
                    (* exponential backoff *)
                    (Math_min (delayMs * factor) maxDelay)
                    (Datatypes.S clock) s'))
      end
  end.

Definition withExponentialBackoff (options : RetryOptions) (clock : nat) (s : S)
  : Run S T :=
  let maxRetries := default 3 (maxRetries options) in
  let initialDelayMs := default 200%Q (initialDelayMs options) in
  let maxDelayMs := default 10000%Q (maxDelayMs options) in
  let backoffFactor := default 2%Q (backoffFactor options) in
  let jitterFactor := default 0.25%Q (jitterFactor options) in
  let retryStatusCodes :=
    default [429; 503; 502; 500]%Z (retryStatusCodes options) in
  attemptLoop retryStatusCodes maxDelayMs backoffFactor jitterFactor
    maxRetries initialDelayMs clock s.

End WithPlatform.

End RetryHelpers.

(* ===================================================================== *)
(** * A reference platform *)
(* ===================================================================== *)

(** An executable instance of [Platform], used to run the pipeline on
    concrete inputs: a reader and a printer for JSON with integer
    numbers and the simple string escapes, a clock that counts
    milliseconds, and a chat client given by the caller. The properties
    below hold for every platform; this one serves the examples. *)
Module Reference.
Import JsString Json Platform.

Definition isJsonSpace (c : ascii) : bool :=
  Ascii.eqb c " " || Ascii.eqb c "009" || Ascii.eqb c "010" || Ascii.eqb c "013".

Fixpoint skipSpace (s : string) : string :=
  match s with
  | String c s' => if isJsonSpace c then skipSpace s' else s
  | EmptyString => s
  end.

(** The characters of a string literal after its opening quote. *)
Fixpoint readString (s acc : string) : option (string * string) :=
  match s with
  | EmptyString => None
  | String "034" s' => Some (String.rev acc, s')
  | String "\" (String e s') =>
      let plain (c : ascii) := readString s' (String c acc) in
      if Ascii.eqb e "034" then plain "034"%char
      else if Ascii.eqb e "\" then plain "\"%char
      else if Ascii.eqb e "/" then plain "/"%char
      else if Ascii.eqb e "n" then plain "010"%char
      else if Ascii.eqb e "t" then plain "009"%char
      else if Ascii.eqb e "r" then plain "013"%char
      else if Ascii.eqb e "b" then plain "008"%char
      else if Ascii.eqb e "f" then plain "012"%char
      else None
  | String c s' =>
      if nat_of_ascii c <? 32 then None else readString s' (String c acc)
  end.

Fixpoint readDigits (s acc : string) : string * string :=
  match s with
  | String c s' => if isDigit c then readDigits s' (String c acc) else (String.rev acc, s)
  | EmptyString => (String.rev acc, s)
  end.

(** An integer literal: an optional minus sign, then 0 or a digit
    from 1 to 9 followed by digits. *)
Definition readNumber (s : string) : option (json * string) :=
  let '(sign, s1) :=
    match s with String "-" s' => ("-", s') | _ => ("", s) end in
  let '(digits, s2) := readDigits s1 "" in
  match digits with
  | EmptyString => None
  | String "0" EmptyString => Some (JNum "0", s2)
  | String "0" _ => None
  | _ => Some (JNum (sign +:+ digits), s2)
  end.

Fixpoint readValue (fuel : nat) (s : string) {struct fuel} : option (json * string) :=
  match fuel with
  | O => None
  | S fuel' =>
      let s := skipSpace s in
      match s with
      | String "{" s1 =>
          match skipSpace s1 with
          | String "}" s2 => Some (JObj [], s2)
          | _ =>
              (fix members (n : nat) (s : string) (acc : list (string * json))
                 {struct n} : option (json * string) :=
                 match n with
                 | O => None
                 | S n' =>
                     match skipSpace s with
                     | String "034" s2 =>
                         match readString s2 "" with
                         | Some (key, s3) =>
                             match skipSpace s3 with
                             | String ":" s4 =>
                                 match readValue fuel' s4 with
                                 | Some (v, s5) =>
                                     let acc' := set_field key v acc in
                                     match skipSpace s5 with
                                     | String "," s6 => members n' s6 acc'
                                     | String "}" s6 => Some (JObj acc', s6)
                                     | _ => None
                                     end
                                 | None => None
                                 end
                             | _ => None
                             end
                         | None => None
                         end
                     | _ => None
                     end
                 end) fuel' s1 []
          end
      | String "[" s1 =>
          match skipSpace s1 with
          | String "]" s2 => Some (JArr [], s2)
          | _ =>
              (fix elements (n : nat) (s : string) (acc : list json)
                 {struct n} : option (json * string) :=
                 match n with
                 | O => None
                 | S n' =>
                     match readValue fuel' s with
                     | Some (v, s2) =>
                         match skipSpace s2 with
                         | String "," s3 => elements n' s3 (v :: acc)
                         | String "]" s3 => Some (JArr (rev (v :: acc)), s3)
                         | _ => None
                         end
                     | None => None
                     end
                 end) fuel' s1 []
          end
      | String "034" s1 =>
          match readString s1 "" with
          | Some (text, s2) => Some (JStr text, s2)
          | None => None
          end
      | String "t" (String "r" (String "u" (String "e" s1))) => Some (JBool true, s1)
      | String "f" (String "a" (String "l" (String "s" (String "e" s1)))) =>
          Some (JBool false, s1)
      | String "n" (String "u" (String "l" (String "l" s1))) => Some (JNull, s1)
      | _ => readNumber s
      end
  end.

Definition parse (text : string) : option json :=
  match readValue (S (String.length text)) text with
  | Some (v, tail) =>
      match skipSpace tail with
      | EmptyString => Some v
      | _ => None
      end
  | None => None
  end.

Definition hexDigit (n : nat) : ascii :=
  if n <? 10 then ascii_of_nat (48 + n) else ascii_of_nat (87 + n).

Fixpoint quoteChars (s : string) : string :=
  match s with
  | EmptyString => EmptyString
  | String c s' =>
      let tail := quoteChars s' in
      if Ascii.eqb c "034" then String "\" (String "034" tail)
      else if Ascii.eqb c "\" then String "\" (String "\" tail)
      else if Ascii.eqb c "010" then String "\" (String "n" tail)
      else if Ascii.eqb c "013" then String "\" (String "r" tail)
      else if Ascii.eqb c "009" then String "\" (String "t" tail)
      else if Ascii.eqb c "008" then String "\" (String "b" tail)
      else if Ascii.eqb c "012" then String "\" (String "f" tail)
      else if nat_of_ascii c <? 32 then
        "\u00" +:+ String (hexDigit (nat_of_ascii c / 16))
                    (String (hexDigit (nat_of_ascii c mod 16)) tail)
      else String c tail
  end.

Definition quote (s : string) : string := dq +:+ quoteChars s +:+ dq.

(** [JSON.stringify(v, null, 2)] at indentation [indent]. *)
Fixpoint print (indent : string) (v : json) : string :=
  let inner := indent +:+ "  " in
  match v with
  | JNull => "null"
  | JBool true => "true"
  | JBool false => "false"
  | JNum repr => repr
  | JStr s => quote s
  | JArr [] => "[]"
  | JArr items =>
      "[" +:+ nl
      +:+ String.concat ("," +:+ nl) (List.map (fun x => inner +:+ print inner x) items)
      +:+ nl +:+ indent +:+ "]"
  | JObj [] => "{}"
  | JObj fields =>
      "{" +:+ nl
      +:+ String.concat ("," +:+ nl)
            (List.map (fun kv : string * json =>
                         inner +:+ quote (fst kv) +:+ ": " +:+ print inner (snd kv))
                      fields)
      +:+ nl +:+ indent +:+ "}"
  end.

(** The platform whose chat client answers with [reply]. *)
Definition platform (reply : ChatCall -> string + string) : Platform := {|
  JSON_parse := parse;
  JSON_stringify := print "";
  cohereClient_chat := fun _ call => reply call;
  env_COHERE_MODEL := None;
  Date_now := fun t => Z.of_nat t;
  Date_toISOString := fun t => "T+" +:+ ofNat t;
  performance_now := fun t => inject_Z (Z.of_nat t);
  Math_random := fun _ => 0%Q
|}.

(** Write a JSON text with apostrophes for the double quotes. *)
Fixpoint q (s : string) : string :=
  match s with
  | EmptyString => EmptyString
  | String c s' => String (if Ascii.eqb c "'" then "034"%char else c) (q s')
  end.

End Reference.

(* ===================================================================== *)
(** * Properties of intent detection *)
(* ===================================================================== *)

Section IntentFacts.
Import JsString Regex IntentDetection.

(** A rule matches a message: it is not skipped for lack of context,
    one of its patterns matches, and, when it defines keyword sets,
    one set has all its keywords in the message, case-insensitively. *)
Definition ruleMatches (rule : IntentRule) (message : string)
  (hasArchitectureContext : bool) : Prop :=
  (requiresContext rule = true -> hasArchitectureContext = true)
  /\ (exists p, In p (patterns rule) /\ test p message = true)
  /\ (forall sets, keywordSets rule = Some sets ->
      exists set, In set sets
        /\ forall keyword, In keyword set ->
           includes (toLowerCase message) (toLowerCase keyword) = true).

(** The rule at position [i] is a heaviest matching rule, and the
    earliest among those of its weight. *)
Definition heaviestMatch (rules : list IntentRule) (message : string)
  (hasArchitectureContext : bool) (i : nat) (rule : IntentRule) : Prop :=
  rules !! i = Some rule
  /\ ruleMatches rule message hasArchitectureContext
  /\ forall j rule',
       rules !! j = Some rule' ->
       ruleMatches rule' message hasArchitectureContext ->
       (weight rule' < weight rule)%Z \/ (weight rule' = weight rule /\ i <= j).

(** The test the loop applies to one rule. *)
Definition applies (rule : IntentRule) (message : string) (ctx : bool) : bool :=
  negb (requiresContext rule && negb ctx)
  && patternMatched rule message && keywordMatched rule message.

Lemma applies_ruleMatches rule message ctx :
  applies rule message ctx = true <-> ruleMatches rule message ctx.
Proof.
  unfold applies, ruleMatches, patternMatched, keywordMatched, keywordSetPresent.
  rewrite !andb_true_iff, negb_true_iff, andb_false_iff, negb_false_iff.
  rewrite existsb_exists.
  split.
  - intros [[Hctx Hpat] Hkw]. split; [|split].
    + intros Hreq. destruct Hctx as [Hctx|Hctx]; congruence.
    + exact Hpat.
    + intros sets Hsets. rewrite Hsets in Hkw.
      apply existsb_exists in Hkw as (set & Hin & Hall).
      exists set. split; [exact Hin|].
      intros keyword Hk. rewrite forallb_forall in Hall. auto.
  - intros (Hctx & Hpat & Hkw). split; [split|].
    + destruct (requiresContext rule); [right; auto | left; reflexivity].
    + exact Hpat.
    + destruct (keywordSets rule) as [sets|] eqn:Hsets; [|reflexivity].
      destruct (Hkw sets eq_refl) as (set & Hin & Hall).
      apply existsb_exists. exists set. split; [exact Hin|].
      apply forallb_forall. exact Hall.
Qed.

(** The winner among the rules, computed directly. *)
Fixpoint bestRule (rules : list IntentRule) (message : string) (ctx : bool)
  : option IntentRule :=
  match rules with
  | [] => None
  | rule :: rules' =>
      if applies rule message ctx then
        match bestRule rules' message ctx with
        | Some rule' =>
            if (weight rule' <=? weight rule)%Z then Some rule else Some rule'
        | None => Some rule
        end
      else bestRule rules' message ctx
  end.

Definition byWeight (a b : IntentMatch) : Z := (matchWeight b - matchWeight a)%Z.

Lemma collectMatches_cons rule rules message ctx :
  collectMatches (rule :: rules) message ctx =
  if applies rule message ctx
  then mkIntentMatch (intent rule) (weight rule) :: collectMatches rules message ctx
  else collectMatches rules message ctx.
Proof.
  unfold applies. simpl.
  destruct (requiresContext rule && negb ctx); simpl; [reflexivity|].
  destruct (patternMatched rule message && keywordMatched rule message); reflexivity.
Qed.

Lemma head_sorted_bestRule rules message ctx :
  head (stableSort byWeight (collectMatches rules message ctx)) =
  (fun r => mkIntentMatch (intent r) (weight r)) <$> bestRule rules message ctx.
Proof.
  induction rules as [|rule rules IH]; [reflexivity|].
  rewrite collectMatches_cons. cbn [bestRule].
  destruct (applies rule message ctx); [|exact IH].
  unfold stableSort in *. cbn [foldr].
  destruct (foldr (insertSorted byWeight) [] (collectMatches rules message ctx))
    as [|top sorted] eqn:Hsorted;
    destruct (bestRule rules message ctx) as [rule'|]; simpl in IH; try discriminate.
  - reflexivity.
  - injection IH as ->. cbn [insertSorted]. unfold byWeight. cbn [matchWeight].
    replace (weight rule' - weight rule <=? 0)%Z
      with (weight rule' <=? weight rule)%Z
      by (destruct (Z.leb_spec (weight rule') (weight rule));
          destruct (Z.leb_spec (weight rule' - weight rule) 0); lia).
    destruct (weight rule' <=? weight rule)%Z; reflexivity.
Qed.

Lemma bestRule_None rules message ctx :
  bestRule rules message ctx = None ->
  forall rule, In rule rules -> applies rule message ctx = false.
Proof.
  induction rules as [|r rules IH]; intros Hbest rule Hin; [destruct Hin|].
  cbn [bestRule] in Hbest.
  destruct (applies r message ctx) eqn:Hr.
  - destruct (bestRule rules message ctx) as [r'|]; [|discriminate].
    destruct (weight r' <=? weight r)%Z; discriminate.
  - destruct Hin as [<-|Hin]; [exact Hr | apply IH; assumption].
Qed.

Lemma bestRule_Some rules message ctx rule :
  bestRule rules message ctx = Some rule ->
  exists i, rules !! i = Some rule
    /\ applies rule message ctx = true
    /\ forall j rule', rules !! j = Some rule' ->
         applies rule' message ctx = true ->
         (weight rule' < weight rule)%Z \/ (weight rule' = weight rule /\ i <= j).
Proof.
  revert rule.
  induction rules as [|r rules IH]; intros rule Hbest; [discriminate|].
  cbn [bestRule] in Hbest.
  destruct (applies r message ctx) eqn:Hr.
  - destruct (bestRule rules message ctx) as [r'|] eqn:Hrest.
    + destruct (IH r' eq_refl) as (i & Hi & Hi_app & Hi_best).
      destruct (Z.leb_spec (weight r') (weight r)) as [Hle|Hlt];
        injection Hbest as <-.
      * exists 0. split; [reflexivity|]. split; [exact Hr|].
        intros [|j] rule' Hj Happ.
        -- injection Hj as <-. right. split; [reflexivity | lia].
        -- destruct (Hi_best j rule' Hj Happ) as [?|[? ?]]; [left; lia|].
           destruct (Z.eq_dec (weight rule') (weight r));
             [right; split; [assumption | lia] | left; lia].
      * exists (S i). split; [exact Hi|]. split; [exact Hi_app|].
        intros [|j] rule' Hj Happ.
        -- injection Hj as <-. left. lia.
        -- destruct (Hi_best j rule' Hj Happ) as [?|[? ?]];
             [left; assumption | right; split; [assumption | lia]].
    + injection Hbest as <-.
      exists 0. split; [reflexivity|]. split; [exact Hr|].
      intros [|j] rule' Hj Happ.
      * injection Hj as <-. right. split; [reflexivity | lia].
      * exfalso. change (rules !! j = Some rule') in Hj.
        apply list_elem_of_lookup_2, list_elem_of_In in Hj.
        rewrite (bestRule_None _ _ _ Hrest rule' Hj) in Happ. discriminate.
  - destruct (IH rule Hbest) as (i & Hi & Hi_app & Hi_best).
    exists (S i). split; [exact Hi|]. split; [exact Hi_app|].
    intros [|j] rule' Hj Happ.
    + injection Hj as <-. congruence.
    + destruct (Hi_best j rule' Hj Happ) as [?|[? ?]];
        [left; assumption | right; split; [assumption | lia]].
Qed.

Lemma inferIntent_bestRule message ctx :
  inferIntent message ctx =
  match bestRule intentRules message ctx with
  | Some rule => intent rule
  | None => general_chat
  end.
Proof.
  unfold inferIntent.
  pose proof (head_sorted_bestRule intentRules message ctx) as Hhead.
  unfold byWeight in Hhead.
  destruct (stableSort _ (collectMatches intentRules message ctx)) as [|top sorted];
    destruct (bestRule intentRules message ctx) as [rule|];
    simpl in Hhead; try discriminate; [reflexivity|].
  injection Hhead as ->. reflexivity.
Qed.

Lemma heaviestMatch_bestRule rules message ctx i rule :
  heaviestMatch rules message ctx i rule ->
  bestRule rules message ctx = Some rule.
Proof.
  intros (Hi & Hm & Hbest).
  destruct (bestRule rules message ctx) as [rule0|] eqn:Hb.
  - destruct (bestRule_Some _ _ _ _ Hb) as (i0 & Hi0 & Happ0 & Hbest0).
    destruct (Hbest i0 rule0 Hi0 (proj1 (applies_ruleMatches _ _ _) Happ0))
      as [Hlt|[Heq Hle]];
      destruct (Hbest0 i rule Hi (proj2 (applies_ruleMatches _ _ _) Hm))
      as [Hlt'|[Heq' Hle']]; try lia.
    assert (i = i0) as -> by lia. congruence.
  - apply list_elem_of_lookup_2, list_elem_of_In in Hi.
    pose proof (bestRule_None _ _ _ Hb rule Hi) as Hno.
    apply applies_ruleMatches in Hm. congruence.
Qed.

(** C1. For every message and context flag, [inferIntent] returns the
    intent of the matching rule of greatest weight, the earliest rule
    of the list winning a tie: whenever the rule at position [i] is
    such a rule, its intent is the result; such a rule exists as soon
    as some rule matches; and when no rule matches the result is
    general_chat. A rule matches when it is not skipped for lack of
    context, one of its patterns matches, and one of its keyword sets,
    if it defines any, is entirely present, case-insensitively. *)
Theorem inferIntent_heaviest_match (message : string) (hasArchitectureContext : bool) :
  (forall i rule,
      heaviestMatch intentRules message hasArchitectureContext i rule ->
      inferIntent message hasArchitectureContext = intent rule)
  /\ ((exists rule, In rule intentRules
                    /\ ruleMatches rule message hasArchitectureContext) ->
      exists i rule, heaviestMatch intentRules message hasArchitectureContext i rule)
  /\ ((forall rule, In rule intentRules ->
                    ~ ruleMatches rule message hasArchitectureContext) ->
      inferIntent message hasArchitectureContext = general_chat).
Proof.
  rewrite inferIntent_bestRule. split; [|split].
  - intros i rule Hh. rewrite (heaviestMatch_bestRule _ _ _ _ _ Hh). reflexivity.
  - intros (rule & Hin & Hm).
    destruct (bestRule intentRules message hasArchitectureContext) as [r|] eqn:Hb.
    + destruct (bestRule_Some _ _ _ _ Hb) as (i & Hi & Happ & Hbest).
      exists i, r. split; [exact Hi|]. split; [apply applies_ruleMatches, Happ|].
      intros j rule' Hj Hm'. apply (Hbest j rule' Hj).
      apply applies_ruleMatches, Hm'.
    + apply applies_ruleMatches in Hm.
      rewrite (bestRule_None _ _ _ Hb rule Hin) in Hm. discriminate.
  - intros Hnone.
    destruct (bestRule intentRules message hasArchitectureContext) as [r|] eqn:Hb;
      [|reflexivity].
    destruct (bestRule_Some _ _ _ _ Hb) as (i & Hi & Happ & _).
    exfalso. apply (Hnone r).
    + apply list_elem_of_In, list_elem_of_lookup_2 with i, Hi.
    + apply applies_ruleMatches, Happ.
Qed.

End IntentFacts.

Section IntentsWithoutContext.
Import JsString Regex IntentDetection JarvisIntegration.

(** The intents that speak about the architecture at hand. *)
Definition contextual (i : Intent) : bool :=
  match i with
  | architecture_update | architecture_rationale
  | cdk_generation | architecture_explanation => true
  | _ => false
  end.

(** Every rule for a contextual intent requires context. *)
Lemma contextual_rules_require_context rule :
  In rule intentRules -> contextual (intent rule) = true ->
  requiresContext rule = true.
Proof.
  assert (forallb (fun r => implb (contextual (intent r)) (requiresContext r))
            intentRules = true) as Hall by (vm_compute; reflexivity).
  rewrite forallb_forall in Hall.
  intros Hin Hc. specialize (Hall rule Hin). rewrite Hc in Hall. exact Hall.
Qed.

Lemma applies_without_context rule message :
  applies rule message false = true -> requiresContext rule = false.
Proof.
  unfold applies. destruct (requiresContext rule); [discriminate | reflexivity].
Qed.

Lemma inferIntent_without_context message :
  contextual (inferIntent message false) = false.
Proof.
  rewrite inferIntent_bestRule.
  destruct (bestRule intentRules message false) as [rule|] eqn:Hb; [|reflexivity].
  destruct (bestRule_Some _ _ _ _ Hb) as (i & Hi & Happ & _).
  apply applies_without_context in Happ.
  destruct (contextual (intent rule)) eqn:Hc; [|reflexivity].
  apply list_elem_of_lookup_2, list_elem_of_In in Hi.
  rewrite (contextual_rules_require_context rule Hi Hc) in Happ. discriminate.
Qed.

(** The enhanced match carries the intent of the primary classifier. *)
Lemma detectEnhancedIntent_intentType message hasArchitecture :
  intentType (detectEnhancedIntent message hasArchitecture) =
  inferIntent message hasArchitecture.
Proof.
  unfold detectEnhancedIntent, adjustIntentConfidence. cbn [intentType].
  destruct (bool_decide (inferIntent message hasArchitecture = architecture_update));
    [|reflexivity].
  destruct (firstArchitectureIntent architectureIntents message) as [[found m]|];
    reflexivity.
Qed.

(** C9. Without architecture context, intent detection never returns
    architecture_update, architecture_rationale, cdk_generation or
    architecture_explanation, every rule for those intents requiring
    context; and so the enhanced detection never has one of them as
    its intent type either. *)
Theorem no_contextual_intent_without_context (message : string) :
  (forall rule, In rule intentRules ->
     intent rule = architecture_update \/ intent rule = architecture_rationale
     \/ intent rule = cdk_generation \/ intent rule = architecture_explanation ->
     requiresContext rule = true)
  /\ inferIntent message false <> architecture_update
  /\ inferIntent message false <> architecture_rationale
  /\ inferIntent message false <> cdk_generation
  /\ inferIntent message false <> architecture_explanation
  /\ intentType (detectEnhancedIntent message false) <> architecture_update
  /\ intentType (detectEnhancedIntent message false) <> architecture_rationale
  /\ intentType (detectEnhancedIntent message false) <> cdk_generation
  /\ intentType (detectEnhancedIntent message false) <> architecture_explanation.
Proof.
  split.
  - intros rule Hin Hint. apply contextual_rules_require_context; [exact Hin|].
    destruct Hint as [->|[->|[->| ->]]]; reflexivity.
  - rewrite detectEnhancedIntent_intentType.
    pose proof (inferIntent_without_context message) as Hc.
    repeat split; intros Heq; rewrite Heq in Hc; discriminate.
Qed.

End IntentsWithoutContext.

(* ===================================================================== *)
(** * Properties of the session store *)
(* ===================================================================== *)

Section OrchestratorFacts.
Import JsString Json Platform IntentDetection JarvisIntegration JarvisOrchestrator.
Context `{Platform}.

(** The intent history stored for a key, empty when there is no
    session. *)
Definition historyOf (g : Globals) (key : string) : list IntentEntry :=
  match activeSessions g !! key with
  | Some session => intents session
  | None => []
  end.

Lemma historyOf_ext g g' key :
  activeSessions g = activeSessions g' -> historyOf g key = historyOf g' key.
Proof. unfold historyOf. intros ->. reflexivity. Qed.


Lemma lastN_short {A} n (xs : list A) : List.length xs <= n -> lastN n xs = xs.
Proof. unfold lastN. intros Hle. replace (List.length xs - n) with 0 by lia. reflexivity. Qed.

Lemma limit_lastN {A} (xs : list A) :
  (if 20 <? List.length xs then lastN 20 xs else xs) = lastN 20 xs.
Proof.
  destruct (Nat.ltb_spec 20 (List.length xs)); [reflexivity|].
  symmetry. apply lastN_short. lia.
Qed.

(** The key reads as a member of Object.prototype: no session is
    stored under it, and it names one. *)
Definition inheritsMember (g : Globals) (key : string) : Prop :=
  activeSessions g !! key = None /\ key ∈ objectPrototypeMembers.

(** The key reads as a session or as nothing. *)
Definition sessionKey (g : Globals) (key : string) : Prop :=
  is_Some (activeSessions g !! key) \/ key ∉ objectPrototypeMembers.


Lemma readSession_stored sessions key session :
  sessions !! key = Some session ->
  readSession sessions key = Some (aSession session).
Proof. unfold readSession. intros ->. reflexivity. Qed.

Lemma readSession_absent sessions key :
  sessions !! key = None -> key ∉ objectPrototypeMembers ->
  readSession sessions key = None.
Proof.
  unfold readSession. intros -> Hkey.
  rewrite bool_decide_eq_false_2 by exact Hkey. reflexivity.
Qed.

Lemma readSession_inherited sessions key :
  sessions !! key = None -> key ∈ objectPrototypeMembers ->
  readSession sessions key = Some (anInherited key).
Proof.
  unfold readSession. intros -> Hkey.
  rewrite bool_decide_eq_true_2 by exact Hkey. reflexivity.
Qed.

Lemma getOrCreateSession_stored key session g :
  activeSessions g !! key = Some session ->
  getOrCreateSession key g = (aSession session, g).
Proof.
  intros Hs. unfold getOrCreateSession, getSessions, mbind, M_bind, mret, M_ret.
  rewrite (readSession_stored _ _ _ Hs). reflexivity.
Qed.

Lemma getOrCreateSession_inherited key g :
  inheritsMember g key -> getOrCreateSession key g = (anInherited key, g).
Proof.
  intros [Hs Hkey]. unfold getOrCreateSession, getSessions, mbind, M_bind, mret, M_ret.
  rewrite (readSession_inherited _ _ Hs Hkey). reflexivity.
Qed.

(** The session that [getOrCreateSession] creates at logical time
    [t]. *)
Definition freshSession (key : string) (t : nat) : ConversationSession :=
  mkSession key 0 (Date_now t) [] None None.

Lemma getOrCreateSession_fresh key g :
  activeSessions g !! key = None -> key ∉ objectPrototypeMembers ->
  getOrCreateSession key g
  = (aSession (freshSession key (clock g)),
     mkGlobals (<[key := freshSession key (clock g)]> (activeSessions g))
       (S (clock g))).
Proof.
  intros Hs Hkey.
  unfold getOrCreateSession, getSessions, dateNow, tick, putSession.
  unfold mbind, M_bind, mret, M_ret.
  rewrite (readSession_absent _ _ Hs Hkey). reflexivity.
Qed.

(** The session object after the updates, the first reading of
    Date.now being made at logical time [t]. *)
Definition updatedSession (session : ConversationSession) (update : SessionUpdate)
  (t : nat) : ConversationSession :=
  let count :=
    match upd_messages update with
    | Some msgs => List.length msgs
    | None => messageCount session
    end in
  let msgs :=
    match upd_messages update with
    | Some msgs => Some msgs
    | None => messages session
    end in
  match upd_intent update with
  | Some intent =>
      mkSession (id session) count (Date_now (S t))
        (lastN 20 (intents session ++ [mkEntry intent (Date_now t)]))
        (conversationSummary session) msgs
  | None =>
      mkSession (id session) count (Date_now t) (intents session)
        (conversationSummary session) msgs
  end.

(** The readings of Date.now an update makes. *)
Definition updateTicks (update : SessionUpdate) : nat :=
  match upd_intent update with Some _ => 2 | None => 1 end.

Lemma updateStored_run key session update g :
  updateStored key session update g
  = (tt, mkGlobals (<[key := updatedSession session update (clock g)]>
                      (activeSessions g))
           (updateTicks update + clock g)).
Proof.
  unfold updateStored, updatedSession, updateTicks, dateNow, tick, putSession.
  unfold mbind, M_bind, mret, M_ret.
  destruct (upd_messages update), (upd_intent update);
    cbn -[Nat.ltb lastN]; rewrite ?limit_lastN; reflexivity.
Qed.

Lemma bind_run {A B} (m : M A) (f : A -> M B) g :
  (m ≫= f) g = f (fst (m g)) (snd (m g)).
Proof. unfold mbind, M_bind. destruct (m g); reflexivity. Qed.

Lemma updateSession_stored key session update g :
  activeSessions g !! key = Some session ->
  updateSession key update g
  = (Normal tt,
     mkGlobals (<[key := updatedSession session update (clock g)]>
                  (activeSessions g))
       (updateTicks update + clock g)).
Proof.
  intros Hs. unfold updateSession.
  rewrite bind_run, (getOrCreateSession_stored _ _ _ Hs). cbn [fst snd].
  rewrite bind_run, updateStored_run. reflexivity.
Qed.

Lemma updateSession_fresh key update g :
  activeSessions g !! key = None -> key ∉ objectPrototypeMembers ->
  updateSession key update g
  = (Normal tt,
     mkGlobals (<[key := updatedSession (freshSession key (clock g)) update
                           (S (clock g))]> (activeSessions g))
       (updateTicks update + S (clock g))).
Proof.
  intros Hs Hkey. unfold updateSession.
  rewrite bind_run, (getOrCreateSession_fresh _ _ Hs Hkey). cbn [fst snd].
  rewrite bind_run, updateStored_run. cbn [fst snd activeSessions clock mret M_ret].
  rewrite insert_insert_eq. reflexivity.
Qed.

(** Under a key that reads as a member of Object.prototype an update
    stores nothing; with an intent it throws, and the clock is not
    read; it returns only without an intent. *)
Lemma updateSession_inherited key update g :
  inheritsMember g key ->
  activeSessions (snd (updateSession key update g)) = activeSessions g
  /\ (forall intent,
        upd_intent update = Some intent ->
        updateSession key update g = (Throw, g))
  /\ (fst (updateSession key update g) = Normal tt -> upd_intent update = None).
Proof.
  intros Hkey. unfold updateSession.
  rewrite bind_run, (getOrCreateSession_inherited _ _ Hkey). cbn [fst snd].
  unfold updateInherited, dateNow, tick, mbind, M_bind, mret, M_ret.
  destruct (upd_intent update); cbn [fst snd activeSessions];
    (split; [reflexivity|]); (split; [intros ? Hi; congruence|]);
    intros Hf; try discriminate Hf; reflexivity.
Qed.

Lemma updateSession_sessions sessionId update g :
  sessionKey g sessionId ->
  fst (updateSession sessionId update g) = Normal tt
  /\ exists session',
       activeSessions (snd (updateSession sessionId update g))
       = <[sessionId := session']> (activeSessions g)
       /\ match upd_intent update with
          | Some intent =>
              exists now, intents session' =
                          lastN 20 (historyOf g sessionId ++ [mkEntry intent now])
          | None => intents session' = historyOf g sessionId
          end.
Proof.
  intros Hkey. unfold historyOf.
  destruct (activeSessions g !! sessionId) as [session|] eqn:Hs.
  - rewrite (updateSession_stored _ _ _ _ Hs). split; [reflexivity|].
    eexists. split; [reflexivity|].
    unfold updatedSession. destruct (upd_intent update); cbn [intents]; eauto.
  - destruct Hkey as [[? Hf]|Hkey]; [congruence|].
    rewrite (updateSession_fresh _ _ _ Hs Hkey). split; [reflexivity|].
    eexists. split; [reflexivity|].
    unfold updatedSession, freshSession.
    destruct (upd_intent update); cbn [intents]; eauto.
Qed.

Definition keepsSessions {A} (m : M A) : Prop :=
  forall g, activeSessions (snd (m g)) = activeSessions g.

Lemma keeps_bind {A B} (m : M A) (f : A -> M B) :
  keepsSessions m -> (forall a, keepsSessions (f a)) -> keepsSessions (m ≫= f).
Proof. intros Hm Hf g. rewrite bind_run, Hf, Hm. reflexivity. Qed.

Lemma keeps_ret {A} (a : A) : keepsSessions (mret a).
Proof. intros g. reflexivity. Qed.

Lemma keeps_tick : keepsSessions tick.
Proof. intros g. reflexivity. Qed.

Lemma keeps_performanceNow : keepsSessions performanceNow.
Proof. apply keeps_bind; [apply keeps_tick | intros; apply keeps_ret]. Qed.

Lemma keeps_mathRandom : keepsSessions mathRandom.
Proof. apply keeps_bind; [apply keeps_tick | intros; apply keeps_ret]. Qed.

Lemma keeps_shuffleFrom {A} i (xs : list A) : keepsSessions (shuffleFrom i xs).
Proof.
  revert xs. induction i as [|i IH]; intros xs; [apply keeps_ret|].
  cbn [shuffleFrom]. apply keeps_bind; [apply keeps_mathRandom | intros; apply IH].
Qed.

Lemma keeps_followups intent architecture :
  keepsSessions (generateFollowupSuggestions intent architecture).
Proof.
  unfold generateFollowupSuggestions.
  destruct (architectureSuggestions architecture); [|apply keeps_ret].
  apply keeps_bind; [apply keeps_shuffleFrom | intros; apply keeps_ret].
Qed.

Lemma performanceNow_run g :
  performanceNow g
  = (performance_now (clock g), mkGlobals (activeSessions g) (S (clock g))).
Proof. reflexivity. Qed.

(** The state in which the orchestrator updates the session, and the
    update it makes. *)
Definition beforeUpdate (architectureId : string) (g : Globals) : Globals :=
  snd (performanceNow
         (snd (performanceNow
                 (snd (getOrCreateSession architectureId (snd (performanceNow g))))))).

Definition intentUpdate (message : string) : SessionUpdate :=
  mkUpdate None (Some (intentType (detectEnhancedIntent message true))).

(** After the update the orchestrator leaves the session table as
    it is. *)
Lemma orchestrate_sessions_after message architectureId architecture
  messageHistory g :
  activeSessions
    (snd (orchestrateJarvisRequest message architectureId architecture
            messageHistory g))
  = activeSessions
      (snd (updateSession architectureId (intentUpdate message)
              (beforeUpdate architectureId g))).
Proof.
  unfold orchestrateJarvisRequest, beforeUpdate, intentUpdate.
  rewrite !bind_run.
  destruct (fst (updateSession architectureId _ _)).
  - rewrite !bind_run.
    destruct (fst (generateFollowupSuggestions _ _ _));
      unfold mret, M_ret; cbn [snd];
      rewrite keeps_performanceNow, keeps_followups, keeps_performanceNow,
        keeps_tick, keeps_performanceNow; reflexivity.
  - rewrite !bind_run. unfold mret, M_ret. cbn [snd].
    apply keeps_performanceNow.
Qed.

Lemma beforeUpdate_stored architectureId session g :
  activeSessions g !! architectureId = Some session ->
  beforeUpdate architectureId g = mkGlobals (activeSessions g) (3 + clock g).
Proof.
  intros Hs. unfold beforeUpdate. rewrite performanceNow_run.
  cbn [snd]. rewrite (getOrCreateSession_stored _ session) by exact Hs. reflexivity.
Qed.

Lemma beforeUpdate_inherited architectureId g :
  inheritsMember g architectureId ->
  beforeUpdate architectureId g = mkGlobals (activeSessions g) (3 + clock g).
Proof.
  intros Hkey. unfold beforeUpdate. rewrite performanceNow_run.
  cbn [snd]. rewrite getOrCreateSession_inherited by exact Hkey. reflexivity.
Qed.

Lemma beforeUpdate_fresh architectureId g :
  activeSessions g !! architectureId = None ->
  architectureId ∉ objectPrototypeMembers ->
  beforeUpdate architectureId g
  = mkGlobals (<[architectureId := freshSession architectureId (S (clock g))]>
                 (activeSessions g))
      (4 + clock g).
Proof.
  intros Hs Hkey. unfold beforeUpdate. rewrite performanceNow_run.
  cbn [snd]. rewrite getOrCreateSession_fresh by assumption. reflexivity.
Qed.


(** A request under an id that reads as a member of Object.prototype:
    [updateSession] throws, the catch block answers, and the session
    table is as before. *)
Lemma orchestrate_inherited message architectureId architecture messageHistory g :
  inheritsMember g architectureId ->
  activeSessions
    (snd (orchestrateJarvisRequest message architectureId architecture
            messageHistory g))
  = activeSessions g
  /\ exists metrics,
       fst (orchestrateJarvisRequest message architectureId architecture
              messageHistory g)
       = mkEnhancedResponse fallbackResponse false None
           (Some (mkMetadata general_chat None 0 (Some metrics) None)).
Proof.
  intros Hkey.
  assert (inheritsMember (beforeUpdate architectureId g) architectureId) as Hkey'
    by (rewrite (beforeUpdate_inherited _ _ Hkey); exact Hkey).
  destruct (updateSession_inherited architectureId (intentUpdate message) _ Hkey')
    as (Hkeep & Hthrow & _).
  specialize (Hthrow _ eq_refl).
  split.
  - rewrite orchestrate_sessions_after, Hkeep.
    rewrite (beforeUpdate_inherited _ _ Hkey). reflexivity.
  - unfold orchestrateJarvisRequest. rewrite !bind_run.
    fold (beforeUpdate architectureId g). fold (intentUpdate message).
    rewrite Hthrow. cbn [fst snd]. rewrite bind_run.
    unfold mret, M_ret. cbn [fst]. eexists. reflexivity.
Qed.




(** What [getOrCreateSession] does to the session table: nothing,
    or it stores a session with an empty history under a key that
    had none. *)
Lemma getOrCreateSession_sessions architectureId g :
  activeSessions (snd (getOrCreateSession architectureId g)) = activeSessions g
  \/ exists fresh,
       activeSessions g !! architectureId = None
       /\ id fresh = architectureId /\ messageCount fresh = 0
       /\ intents fresh = [] /\ messages fresh = None
       /\ activeSessions (snd (getOrCreateSession architectureId g))
          = <[architectureId := fresh]> (activeSessions g).
Proof.
  destruct (activeSessions g !! architectureId) as [session|] eqn:Hs.
  - rewrite (getOrCreateSession_stored _ _ _ Hs). left. reflexivity.
  - destruct (decide (architectureId ∈ objectPrototypeMembers)) as [Hkey|Hkey].
    + rewrite (getOrCreateSession_inherited _ _ (conj Hs Hkey)). left. reflexivity.
    + rewrite (getOrCreateSession_fresh _ _ Hs Hkey). right.
      exists (freshSession architectureId (clock g)).
      repeat (split; [reflexivity|]). reflexivity.
Qed.

(** One operation of the module on the session table. A call that
    assigns a property of Object.prototype is none: the states
    described are those before any such call. *)
Inductive sessionStep : Globals -> Globals -> Prop :=
| step_getOrCreateSession architectureId g :
    sessionStep g (snd (getOrCreateSession architectureId g))
| step_updateSession sessionId update g :
    writesObjectPrototype sessionId update g = false ->
    sessionStep g (snd (updateSession sessionId update g))
| step_orchestrateJarvisRequest message architectureId architecture messageHistory g :
    sessionStep g
      (snd (orchestrateJarvisRequest message architectureId architecture
              messageHistory g))
| step_getConversationAnalytics architectureId g :
    sessionStep g (snd (getConversationAnalytics architectureId g))
| step_clearConversationSession architectureId g :
    sessionStep g (snd (clearConversationSession architectureId g)).

(** The states the module can be in: those reached from the empty
    session table. *)
Definition reachable (g : Globals) : Prop :=
  exists clock0, rtc sessionStep (mkGlobals ∅ clock0) g.


Lemma keeps_getConversationAnalytics architectureId :
  keepsSessions (getConversationAnalytics architectureId).
Proof.
  intros g. unfold getConversationAnalytics, getSessions.
  unfold mbind, M_bind, mret, M_ret.
  destruct (readSession (activeSessions g) architectureId) as [[session|name]|];
    reflexivity.
Qed.

(** What [clearConversationSession] does to the session table: it
    removes the session of the id, if there is one. *)
Lemma clearConversationSession_sessions architectureId g :
  activeSessions (snd (clearConversationSession architectureId g))
  = delete architectureId (activeSessions g).
Proof.
  unfold clearConversationSession, getSessions, deleteSession.
  unfold mbind, M_bind, mret, M_ret.
  destruct (readSession (activeSessions g) architectureId) as [ref|] eqn:Hread;
    [reflexivity|].
  cbn [snd]. symmetry. apply delete_id.
  unfold readSession in Hread.
  destruct (activeSessions g !! architectureId); [discriminate Hread | reflexivity].
Qed.



(** [n] updates of one session with the same intent. *)
Fixpoint repeatUpdate (n : nat) (sessionId : string) (intent : Intent)
  (g : Globals) : Globals :=
  match n with
  | O => g
  | S n' =>
      snd (updateSession sessionId (mkUpdate None (Some intent))
             (repeatUpdate n' sessionId intent g))
  end.

(** An update with an intent and no messages assigns no property of
    Object.prototype. *)
Lemma intent_update_writes_no_prototype sessionId intent g :
  writesObjectPrototype sessionId (mkUpdate None (Some intent)) g = false.
Proof.
  unfold writesObjectPrototype.
  destruct (readSession (activeSessions g) sessionId) as [[session|name]|];
    [reflexivity | apply andb_false_r | reflexivity].
Qed.

Lemma reachable_repeatUpdate n sessionId intent clock0 :
  reachable (repeatUpdate n sessionId intent (mkGlobals ∅ clock0)).
Proof.
  exists clock0. induction n as [|n IH]; [apply rtc_refl|].
  eapply rtc_r; [exact IH|].
  apply step_updateSession, intent_update_writes_no_prototype.
Qed.



End OrchestratorFacts.

Section OrchestratorExamples.
Import JsString Json Platform IntentDetection JarvisIntegration JarvisOrchestrator.

(** The reference platform, with a model that answers [Hello!]. *)
Definition helloPlatform : Platform := Reference.platform (fun _ => inr "Hello!").

Definition emptyArchitecture : Architecture := mkArchitecture [] [] None.



(** The session table at an id that names a member of
    Object.prototype, here constructor, nothing being stored: the
    member is returned as the session and nothing is created, an
    update with an intent throws, the analytics throw, clearing
    reports success, and a request is answered with the fallback and
    leaves the table empty. An update assigns a property of
    Object.prototype only under __proto__, and not when it carries an
    intent and no messages. *)
Example session_table_inherited_member :
  let g0 := mkGlobals ∅ 0 in
  getOrCreateSession (H := helloPlatform) "constructor" g0
  = (anInherited "constructor", g0)
  /\ updateSession (H := helloPlatform) "constructor"
       (mkUpdate None (Some greeting)) g0
     = (Throw, g0)
  /\ getConversationAnalytics "constructor" g0 = (Throw, g0)
  /\ fst (clearConversationSession "constructor" g0) = true
  /\ er_response
       (fst (orchestrateJarvisRequest (H := helloPlatform) "hello" "constructor"
               emptyArchitecture None g0))
     = fallbackResponse
  /\ activeSessions
       (snd (orchestrateJarvisRequest (H := helloPlatform) "hello" "constructor"
               emptyArchitecture None g0))
     = ∅
  /\ writesObjectPrototype "constructor" (mkUpdate (Some []) None) g0 = false
  /\ writesObjectPrototype "__proto__" (mkUpdate (Some []) None) g0 = true
  /\ writesObjectPrototype "__proto__" (mkUpdate None (Some greeting)) g0 = false.
Proof. cbn zeta. repeat split; vm_compute; reflexivity. Qed.


End OrchestratorExamples.

(* ===================================================================== *)
(** * Properties of the architecture store *)
(* ===================================================================== *)

Section StoreFacts.
Import JsString Json Platform ArchitectureStore.
Context `{Platform}.

Lemma lookup_set_field_eq k v fields :
  lookup_field k (set_field k v fields) = Some v.
Proof.
  induction fields as [|[k' v'] fields IH]; simpl.
  - rewrite String.eqb_refl. reflexivity.
  - destruct (String.eqb k' k) eqn:Hk; simpl.
    + rewrite String.eqb_refl. reflexivity.
    + rewrite Hk. exact IH.
Qed.

Lemma lookup_set_field_ne k k' v fields :
  k <> k' -> lookup_field k' (set_field k v fields) = lookup_field k' fields.
Proof.
  intros Hne. induction fields as [|[k0 v0] fields IH]; simpl.
  - apply String.eqb_neq in Hne. rewrite Hne. reflexivity.
  - destruct (String.eqb k0 k) eqn:Hk; simpl.
    + apply String.eqb_eq in Hk as ->.
      apply String.eqb_neq in Hne. rewrite Hne. reflexivity.
    + destruct (String.eqb k0 k'); [reflexivity | exact IH].
Qed.

Lemma truthy_nonempty s : s <> "" -> JsString.truthy s = true.
Proof. destruct s; [congruence | reflexivity]. Qed.

(** A call of the module that can write the store. *)
Inductive StoreCall : Type :=
| CallSave (architectureId : string) (architecture : Architecture)
    (editedBy : option string)
| CallDelete (architectureId : string).

Definition runCall (call : StoreCall) (clock : nat) (store : StoreObject)
  : StoreObject :=
  match call with
  | CallSave architectureId architecture editedBy =>
      snd (saveArchitecture store clock architectureId architecture editedBy)
  | CallDelete architectureId => snd (deleteArchitecture store architectureId)
  end.

(** The store after a sequence of calls, starting at time [clock]. *)
Fixpoint runCalls (calls : list StoreCall) (clock : nat) (store : StoreObject)
  : StoreObject :=
  match calls with
  | [] => store
  | call :: calls' => runCalls calls' (S clock) (runCall call clock store)
  end.

(** No call of the sequence saves under [architectureId]. *)
Definition neverSaved (architectureId : string) (calls : list StoreCall) : Prop :=
  forall id' architecture editedBy,
    In (CallSave id' architecture editedBy) calls -> id' <> architectureId.

(** An id that names neither a member of Object.prototype nor a
    property of an architecture object. *)
Definition ordinaryId (architectureId : string) : Prop :=
  (architectureId ∉ objectPrototypeMembers)
  /\ (architectureId ∉ ["nodes"; "edges"; "metadata"]).

(** Assignments never give the store an own property __proto__. *)
Definition plainStore (store : StoreObject) : Prop :=
  own store !! "__proto__" = None.

Lemma writeProperty_plain store key architecture :
  plainStore store -> plainStore (writeProperty store key architecture).
Proof.
  unfold plainStore, writeProperty. intros Hplain.
  destruct (String.eqb key "__proto__") eqn:Hkey; cbn [own]; [exact Hplain|].
  apply String.eqb_neq in Hkey. rewrite lookup_insert_ne by exact Hkey.
  exact Hplain.
Qed.

Lemma runCall_plain call clock store :
  plainStore store -> plainStore (runCall call clock store).
Proof.
  intros Hplain. destruct call as [id' a by_|id']; cbn [runCall].
  - unfold saveArchitecture. destruct (JsString.truthy id'); cbn; [|exact Hplain].
    apply writeProperty_plain, Hplain.
  - unfold deleteArchitecture. destruct (JsString.truthy id'); cbn; [|exact Hplain].
    destruct (isTruthy _); cbn; [|exact Hplain].
    unfold plainStore, deleteProperty. cbn [own].
    apply lookup_delete_None. right. exact Hplain.
Qed.

Lemma runCalls_plain calls : forall clock store,
  plainStore store -> plainStore (runCalls calls clock store).
Proof.
  induction calls as [|call calls IH]; intros clock store Hplain; [exact Hplain|].
  cbn [runCalls]. apply IH, runCall_plain, Hplain.
Qed.

Lemma fieldOf_ordinary prototype architectureId :
  ordinaryId architectureId -> fieldOf prototype architectureId = None.
Proof.
  intros [_ Hfield]. unfold fieldOf.
  destruct (String.eqb_spec architectureId "nodes") as [->|_];
    [exfalso; apply Hfield; set_solver|].
  destruct (String.eqb_spec architectureId "edges") as [->|_];
    [exfalso; apply Hfield; set_solver|].
  destruct (String.eqb_spec architectureId "metadata") as [->|_];
    [exfalso; apply Hfield; set_solver|].
  reflexivity.
Qed.

(** An ordinary id reads as undefined when the store has no own
    property by that name. *)
Lemma readProperty_ordinary store architectureId :
  ordinaryId architectureId ->
  own store !! architectureId = None ->
  readProperty store architectureId = None.
Proof.
  intros Hid Hown. unfold readProperty. rewrite Hown.
  destruct (String.eqb_spec architectureId "__proto__") as [->|_].
  { exfalso. apply (proj1 Hid). unfold objectPrototypeMembers. set_solver. }
  destruct (proto store) as [prototype|]; cbn [mbind option_bind].
  - rewrite (fieldOf_ordinary _ _ Hid).
    rewrite bool_decide_eq_false_2 by exact (proj1 Hid). reflexivity.
  - rewrite bool_decide_eq_false_2 by exact (proj1 Hid). reflexivity.
Qed.

Lemma runCall_absent call clock store architectureId :
  own store !! architectureId = None ->
  (forall architecture editedBy,
      call <> CallSave architectureId architecture editedBy) ->
  own (runCall call clock store) !! architectureId = None.
Proof.
  intros Habsent Hcall. destruct call as [id' a by_|id']; cbn [runCall].
  - unfold saveArchitecture. destruct (JsString.truthy id'); cbn; [|exact Habsent].
    unfold writeProperty.
    destruct (String.eqb id' "__proto__"); cbn [own]; [exact Habsent|].
    rewrite lookup_insert_ne; [exact Habsent|].
    intros ->. eapply Hcall. reflexivity.
  - unfold deleteArchitecture. destruct (JsString.truthy id'); cbn; [|exact Habsent].
    destruct (isTruthy _); cbn; [|exact Habsent].
    apply lookup_delete_None. right. exact Habsent.
Qed.

Lemma runCalls_never_saved calls : forall clock store architectureId,
  own store !! architectureId = None -> neverSaved architectureId calls ->
  own (runCalls calls clock store) !! architectureId = None.
Proof.
  induction calls as [|call calls IH]; intros clock store architectureId Habsent
    Hnever; [exact Habsent|].
  cbn [runCalls]. apply IH.
  - apply runCall_absent; [exact Habsent|].
    intros a by_ ->. eapply Hnever; [left; reflexivity | reflexivity].
  - intros id' a by_ Hin. eapply Hnever. right. exact Hin.
Qed.

(** What holds of the store for the ids it is meant for. For a
    non-empty id, right after [saveArchitecture] the store yields,
    for that id, the architecture with the same nodes and edges and
    with metadata carrying [lastEditedBy] (the editor given, 'system'
    by default) and [lastEditedAt] (the time of the save);
    [getArchitecture] gives null for the empty id, and for an
    ordinary id that no call has saved since the store was created
    empty. *)
Lemma save_then_get (architectureStore : StoreObject)
  (clock : nat) (architectureId : string) (architecture : Architecture)
  (editedBy : option string) :
  architectureId <> "" ->
  plainStore architectureStore ->
  (exists saved fields,
      saveArchitecture architectureStore clock architectureId architecture editedBy
      = (Some saved, writeProperty architectureStore architectureId saved)
      /\ getArchitecture (writeProperty architectureStore architectureId saved)
           architectureId
         = Some (anArchitecture saved)
      /\ nodes saved = nodes architecture
      /\ edges saved = edges architecture
      /\ metadata saved = Some fields
      /\ lookup_field "lastEditedBy" fields = Some (JStr (default "system" editedBy))
      /\ lookup_field "lastEditedAt" fields = Some (JStr (Date_toISOString clock)))
  /\ getArchitecture architectureStore "" = None
  /\ (forall calls clock0 unsaved,
        ordinaryId unsaved ->
        neverSaved unsaved calls ->
        getArchitecture (runCalls calls clock0 architectureStore_init) unsaved = None).
Proof.
  intros Hid Hplain. split; [|split].
  - unfold saveArchitecture, getArchitecture.
    rewrite (truthy_nonempty _ Hid). cbn [negb].
    eexists. eexists. split; [reflexivity|].
    split; [|split; [reflexivity|]; split; [reflexivity|];
             split; [reflexivity|]; split].
    + unfold readProperty, writeProperty.
      destruct (String.eqb_spec architectureId "__proto__") as [->|Hne];
        cbn [own proto].
      * rewrite Hplain. reflexivity.
      * rewrite lookup_insert_eq. reflexivity.
    + apply lookup_set_field_eq.
    + rewrite lookup_set_field_ne by discriminate. apply lookup_set_field_eq.
  - reflexivity.
  - intros calls clock0 unsaved Hordinary Hnever. unfold getArchitecture.
    destruct (JsString.truthy unsaved); cbn [negb]; [|reflexivity].
    rewrite readProperty_ordinary; [reflexivity | exact Hordinary |].
    apply runCalls_never_saved; [apply lookup_empty | exact Hnever].
Qed.

End StoreFacts.

Section StoreExamples.
Import JsString Json Platform ArchitectureStore.

Definition sampleArchitecture : Architecture :=
  mkArchitecture
    [ JObj [("id", JStr "n1");
            ("data", JObj [("label", JStr "API"); ("service", JStr "Lambda")])] ]
    []
    (Some [("prompt", JStr "a small API")]).

(** A save into the empty store, and the read that follows it. *)
Example save_then_get_example :
  getArchitecture
    (snd (saveArchitecture (H := helloPlatform) architectureStore_init 7
            "arch-1" sampleArchitecture (Some "Jarvis")))
    "arch-1"
  = Some (anArchitecture
            (mkArchitecture (nodes sampleArchitecture) []
               (Some [("prompt", JStr "a small API");
                      ("lastEditedAt", JStr "T+7");
                      ("lastEditedBy", JStr "Jarvis")]))).
Proof. vm_compute. reflexivity. Qed.

(** C4, where the code departs from it: the store is an object
    literal, so an id that names a member of Object.prototype reads as
    that member although nothing was ever saved under it, and
    [getArchitecture] returns it where null is expected; once an
    architecture has been saved under __proto__, the names of its
    properties read as those properties. *)
Lemma getArchitecture_inherited_member :
  getArchitecture architectureStore_init "constructor"
  = Some (aBuiltin "constructor")
  /\ getArchitecture architectureStore_init "toString" = Some (aBuiltin "toString")
  /\ getArchitecture
       (snd (saveArchitecture (H := helloPlatform) architectureStore_init 7
               "__proto__" sampleArchitecture None))
       "nodes"
     = Some (aField (JArr (nodes sampleArchitecture)))
  /\ getArchitecture architectureStore_init "arch-1" = None.
Proof. repeat split; vm_compute; reflexivity. Qed.

End StoreExamples.

(* ===================================================================== *)
(** * Properties of the retry helper *)
(* ===================================================================== *)

Section RetryFacts.
Import JsString Platform RetryHelpers.
Context `{Platform}.
Context {S T : Type}.
Variable operation : S -> (Error + T) * S.

(** The state after [k] invocations of the operation. *)
Fixpoint stateAfter (k : nat) (s : S) : S :=
  match k with
  | O => s
  | Datatypes.S k' => stateAfter k' (snd (operation s))
  end.

(** The successive values of [delayMs]: each one is the previous one
    times the factor, capped at the maximum. *)
Fixpoint delaysFrom (maxDelay factor delayMs : Q) (ds : list Q) : Prop :=
  match ds with
  | [] => True
  | d :: ds' =>
      d = delayMs /\ delaysFrom maxDelay factor (Math_min (delayMs * factor) maxDelay) ds'
  end.

(** An error is retryable in the words of the specification. *)
Definition retryable (codes : list Z) (error : Error) : Prop :=
  (exists code, status error = Some code /\ In code codes)
  \/ (exists m, message error = Some m
                /\ (includes m "Service Unavailable" = true
                    \/ includes m "network" = true
                    \/ includes m "timeout" = true
                    \/ includes m "overloaded" = true)).

Lemma shouldRetry_retryable codes error :
  shouldRetry codes error = true -> retryable codes error.
Proof.
  unfold shouldRetry, statusRetryable, messageHas, retryable.
  destruct (status error) as [code|], (message error) as [m|];
    rewrite ?orb_true_iff, ?andb_true_iff, ?existsb_exists;
    intros Hr.
  - destruct Hr as [[[_ (c & Hin & Heq)]|[_ ?]]|[[[_ ?]|[_ ?]]|[_ ?]]];
      [left; apply Z.eqb_eq in Heq as <-; eauto | right; eauto 10 ..].
  - destruct Hr as [[[_ (c & Hin & Heq)]|?]|[[?|?]|?]]; try discriminate.
    left. apply Z.eqb_eq in Heq as <-. eauto.
  - destruct Hr as [[?|[_ ?]]|[[[_ ?]|[_ ?]]|[_ ?]]]; try discriminate;
      right; eauto 10.
  - destruct Hr as [[?|?]|[[?|?]|?]]; discriminate.
Qed.

Lemma Math_min_le_r a b : (Math_min a b <= b)%Q.
Proof.
  unfold Math_min. destruct (Qle_bool a b) eqn:Hle.
  - apply Qle_bool_iff, Hle.
  - apply Qle_refl.
Qed.

Lemma delaysFrom_capped maxDelay factor delayMs ds :
  delaysFrom maxDelay factor delayMs ds ->
  forall k d, ds !! (Datatypes.S k) = Some d -> (d <= maxDelay)%Q.
Proof.
  revert delayMs. induction ds as [|d0 ds IH]; intros delayMs Hds k d Hk;
    [discriminate|].
  destruct Hds as [_ Hds]. change (ds !! k = Some d) in Hk.
  destruct k as [|k].
  - destruct ds as [|d1 ds']; [discriminate|].
    destruct Hds as [-> _]. injection Hk as <-. apply Math_min_le_r.
  - eapply IH; eassumption.
Qed.

Lemma delaysFrom_all_capped maxDelay factor delayMs ds :
  (delayMs <= maxDelay)%Q ->
  delaysFrom maxDelay factor delayMs ds ->
  forall k d, ds !! k = Some d -> (d <= maxDelay)%Q.
Proof.
  intros Hle Hds [|k] d Hk.
  - destruct ds as [|d0 ds']; [discriminate|].
    destruct Hds as [-> _]. injection Hk as <-. exact Hle.
  - eapply delaysFrom_capped; eassumption.
Qed.

(** What one run of the loop does. *)
Record LoopSpec (codes : list Z) (maxDelay factor : Q) (retriesLeft : nat)
  (delayMs : Q) (s : S) (r : Run S T) : Prop := mkLoopSpec {
  spec_count : 1 <= List.length (attempts r) <= retriesLeft + 1;
  spec_waits : List.length (attempts r) = Datatypes.S (List.length (delays r));
  spec_calls : forall i a, attempts r !! i = Some a ->
                           a = fst (operation (stateAfter i s));
  spec_state : finalState r = stateAfter (List.length (attempts r)) s;
  spec_last : last (attempts r) = Some (outcome r);
  spec_retried : forall i a,
      Datatypes.S i < List.length (attempts r) -> attempts r !! i = Some a ->
      exists error, a = inl error /\ shouldRetry codes error = true;
  spec_thrown : forall error,
      outcome r = inl error ->
      shouldRetry codes error = false
      \/ List.length (attempts r) = retriesLeft + 1;
  spec_delays : delaysFrom maxDelay factor delayMs (delays r)
}.

Lemma single_attempt_spec codes maxDelay factor retriesLeft delayMs s a s' :
  operation s = (a, s') ->
  (forall error, a = inl error ->
                 shouldRetry codes error = false \/ retriesLeft = 0) ->
  LoopSpec codes maxDelay factor retriesLeft delayMs s (mkRun [a] [] [] a s').
Proof.
  intros Hop Hthrow. split; cbn.
  - lia.
  - reflexivity.
  - intros [|i] a' Hi; [|discriminate]. injection Hi as <-. cbn.
    rewrite Hop. reflexivity.
  - rewrite Hop. reflexivity.
  - reflexivity.
  - intros i a' Hi. lia.
  - intros error Ha. destruct (Hthrow error Ha) as [Hno|Hzero];
      [left; exact Hno | right; rewrite Hzero; reflexivity].
  - exact I.
Qed.

Lemma attemptLoop_spec codes maxDelay factor jitterF retriesLeft :
  forall delayMs clock s,
    LoopSpec codes maxDelay factor retriesLeft delayMs s
      (attemptLoop operation codes maxDelay factor jitterF retriesLeft delayMs clock s).
Proof.
  induction retriesLeft as [|n IH]; intros delayMs clock s; cbn [attemptLoop];
    destruct (operation s) as [[error|result] s'] eqn:Hop.
  - eapply single_attempt_spec; [exact Hop|]. intros e _. right. reflexivity.
  - eapply single_attempt_spec; [exact Hop|]. intros e He. discriminate.
  - destruct (shouldRetry codes error) eqn:Hretry; cbn [negb].
    + specialize (IH (Math_min (delayMs * factor) maxDelay) (Datatypes.S clock) s').
      destruct IH as [Hcount Hwaits Hcalls Hstate Hlast Hretried Hthrown Hdelays].
      set (r := attemptLoop operation codes maxDelay factor jitterF n _ _ s') in *.
      split; cbn.
      * lia.
      * rewrite Hwaits. reflexivity.
      * intros [|i] a Hi; cbn.
        -- injection Hi as <-. rewrite Hop. reflexivity.
        -- rewrite Hop. apply Hcalls. exact Hi.
      * rewrite Hop. exact Hstate.
      * destruct (attempts r) as [|a0 rest] eqn:Hatt; [cbn in Hcount; lia|].
        exact Hlast.
      * intros [|i] a Hlt Hi.
        -- injection Hi as <-. eauto.
        -- apply (Hretried i a); [lia | exact Hi].
      * intros e He. destruct (Hthrown e He) as [?|?]; [left; assumption | right; lia].
      * split; [reflexivity | exact Hdelays].
    + eapply single_attempt_spec; [exact Hop|].
      intros e He. injection He as <-. left. exact Hretry.
  - eapply single_attempt_spec; [exact Hop|]. intros e He. discriminate.
Qed.

(** C2, as the code has it. The helper invokes the operation at least
    once and at most maxRetries+1 times (4 by default), each time on
    the state the previous invocation left; its outcome is the outcome
    of the last invocation, so the result of the first success; every
    invocation before the last threw an error that is retryable: a
    status among retryStatusCodes, or a message containing
    'Service Unavailable', 'network', 'timeout' or 'overloaded'; an
    error thrown to the caller is either not retryable for the helper
    or the error of the last permitted attempt; there is one wait
    before each retry; the first delay is initialDelayMs and each next
    one is the previous one times backoffFactor, capped at maxDelayMs:
    so every delay after the first is at most maxDelayMs, and the
    first one is too when initialDelayMs is at most maxDelayMs. *)
Theorem backoff_retries (options : RetryOptions) (clock : nat) (s : S) :
  let r := withExponentialBackoff operation options clock s in
  let retries := default 3 (maxRetries options) in
  let codes := default [429; 503; 502; 500]%Z (retryStatusCodes options) in
  let initialDelay := default 200%Q (initialDelayMs options) in
  let maxDelay := default 10000%Q (maxDelayMs options) in
  let factor := default 2%Q (backoffFactor options) in
  1 <= List.length (attempts r) <= retries + 1
  /\ (forall i a, attempts r !! i = Some a -> a = fst (operation (stateAfter i s)))
  /\ last (attempts r) = Some (outcome r)
  /\ (forall i a, Datatypes.S i < List.length (attempts r) ->
                  attempts r !! i = Some a ->
                  exists error, a = inl error /\ retryable codes error)
  /\ (forall error, outcome r = inl error ->
                    shouldRetry codes error = false
                    \/ List.length (attempts r) = retries + 1)
  /\ (forall i error, attempts r !! i = Some (inl error) ->
                      ~ retryable codes error -> outcome r = inl error)
  /\ List.length (attempts r) = Datatypes.S (List.length (delays r))
  /\ (forall d, delays r !! 0 = Some d -> d = initialDelay)
  /\ delaysFrom maxDelay factor initialDelay (delays r)
  /\ (forall k d, delays r !! (Datatypes.S k) = Some d -> (d <= maxDelay)%Q)
  /\ ((initialDelay <= maxDelay)%Q ->
      forall k d, delays r !! k = Some d -> (d <= maxDelay)%Q).
Proof.
  cbn zeta. unfold withExponentialBackoff.
  set (retries := default 3 (maxRetries options)).
  set (codes := default [429; 503; 502; 500]%Z (retryStatusCodes options)).
  set (initialDelay := default 200%Q (initialDelayMs options)).
  set (maxDelay := default 10000%Q (maxDelayMs options)).
  set (factor := default 2%Q (backoffFactor options)).
  destruct (attemptLoop_spec codes maxDelay factor
              (default 0.25%Q (jitterFactor options)) retries initialDelay clock s)
    as [Hcount Hwaits Hcalls Hstate Hlast Hretried Hthrown Hdelays].
  set (r := attemptLoop operation codes maxDelay factor _ retries initialDelay clock s)
    in *.
  repeat split; try assumption; try lia.
  - intros i a Hlt Hi. destruct (Hretried i a Hlt Hi) as (error & -> & Hr).
    exists error. split; [reflexivity | apply shouldRetry_retryable, Hr].
  - intros i error Hi Hnot.
    destruct (decide (Datatypes.S i < List.length (attempts r))) as [Hlt|Hge].
    + destruct (Hretried i _ Hlt Hi) as (e & He & Hr). injection He as <-.
      exfalso. apply Hnot, shouldRetry_retryable, Hr.
    + apply lookup_lt_Some in Hi as Hi_lt.
      assert (List.length (attempts r) = Datatypes.S i) as Hlen by lia.
      rewrite last_lookup, Hlen in Hlast. cbn in Hlast.
      rewrite Hi in Hlast. injection Hlast as <-. reflexivity.
  - intros d Hd. destruct (delays r) as [|d0 ds]; [discriminate|].
    destruct Hdelays as [-> _]. injection Hd as <-. reflexivity.
  - eapply delaysFrom_capped, Hdelays.
  - intros Hle. eapply delaysFrom_all_capped; eassumption.
Qed.

End RetryFacts.

Section RetryExamples.
Import JsString Platform RetryHelpers.

(** An operation that always fails with status 503. *)
Definition alwaysUnavailable (s : unit) : (Error + string) * unit :=
  (inl (mkError (Some 503%Z) (Some "Service Unavailable")), s).

(** A caller that sets the initial delay above the maximum. *)
Definition longInitialDelay : RetryOptions :=
  mkRetryOptions None (Some 20000%Q) (Some 10000%Q) None None None.

(** C2, as stated, fails: the delay before the first retry is
    initialDelayMs, which the cap does not touch, so it can exceed
    maxDelayMs. *)
Lemma first_delay_exceeds_cap :
  let r :=
    withExponentialBackoff (H := helloPlatform) alwaysUnavailable
      longInitialDelay 0 tt in
  delays r = [20000%Q; 10000%Q; 10000%Q]
  /\ List.length (attempts r) = 4
  /\ ~ (20000 <= 10000)%Q.
Proof.
  cbn zeta. split; [vm_compute; reflexivity|].
  split; [vm_compute; reflexivity|].
  intros Hle. apply Qle_bool_iff in Hle. vm_compute in Hle. discriminate.
Qed.

End RetryExamples.

(* ===================================================================== *)
(** * Properties of context generation *)
(* ===================================================================== *)

Section ContextFacts.
Import JsString Json Platform IntentDetection ContextManager.
Context `{Platform}.

Lemma nl_append_nonempty (s : string) : nl +:+ s <> "".
Proof. unfold nl. cbv [String.append]. discriminate. Qed.

(** C8. For every architecture, [generateContextString] returns the
    empty string exactly when the level is 'none'; at level 'minimal'
    it returns a text that shows the number of nodes and the number of
    edges; at level 'full' the text it returns embeds the complete
    JSON serialization of the nodes array and of the edges array, and
    it returns one whenever every node and edge can be summarized. *)
Theorem generateContextString_levels (architecture : Architecture)
  (level : ContextLevel) :
  (generateContextString architecture level = Some "" <-> level = none)
  /\ (exists before between after,
        generateContextString architecture minimal
        = Some (before +:+ ofNat (List.length (nodes architecture))
                +:+ between +:+ ofNat (List.length (edges architecture))
                +:+ after))
  /\ (forall text,
        generateContextString architecture full = Some text ->
        exists before between after,
          text = before +:+ JSON_stringify (JArr (nodes architecture))
                 +:+ between +:+ JSON_stringify (JArr (edges architecture))
                 +:+ after)
  /\ (forall services connections,
        servicesSummaryOf architecture = Some services ->
        connectionsSummaryOf architecture = Some connections ->
        exists text, generateContextString architecture full = Some text).
Proof.
  split; [|split; [|split]].
  - split; [|intros ->; reflexivity].
    destruct level; [reflexivity| | |]; intros Hempty; exfalso.
    + cbn in Hempty. injection Hempty as Hempty.
      exact (nl_append_nonempty _ Hempty).
    + cbn in Hempty.
      destruct (servicesSummaryOf architecture); [|discriminate].
      destruct (connectionsSummaryOf architecture); [|discriminate].
      cbn in Hempty. injection Hempty as Hempty.
      exact (nl_append_nonempty _ Hempty).
    + cbn in Hempty.
      destruct (servicesSummaryOf architecture); [|discriminate].
      destruct (connectionsSummaryOf architecture); [|discriminate].
      cbn in Hempty. injection Hempty as Hempty.
      exact (nl_append_nonempty _ Hempty).
  - exists (nl +:+ "CURRENT ARCHITECTURE (MINIMAL):" +:+ nl +:+ "- "),
      (" services" +:+ nl +:+ "- "),
      (" connections" +:+ nl +:+ originalRequirementOf architecture +:+ nl).
    reflexivity.
  - intros text Htext. cbn in Htext.
    destruct (servicesSummaryOf architecture) as [services|]; [|discriminate].
    destruct (connectionsSummaryOf architecture) as [connections|]; [|discriminate].
    cbn in Htext. injection Htext as <-.
    eexists (nl +:+ "FULL CURRENT ARCHITECTURE:" +:+ nl +:+ "Nodes JSON: " +:+ nl
             +:+ "```json" +:+ nl),
      (nl +:+ "```" +:+ nl +:+ nl +:+ "Edges JSON: " +:+ nl +:+ "```json" +:+ nl),
      _.
    reflexivity.
  - intros services connections Hs Hc. cbn. rewrite Hs, Hc. cbn. eauto.
Qed.

End ContextFacts.

(* ===================================================================== *)
(** * Patterns, at the level of strings *)
(* ===================================================================== *)

Section PatternFacts.
Import JsString Regex.

(** A literal text followed by a pattern, as [parse] builds it. *)
Fixpoint litThen (s : string) (r : re) : re :=
  match s with
  | EmptyString => r
  | String c s' => Seq (Chr c) (litThen s' r)
  end.

(** A literal, non-empty text that ends a pattern. *)
Fixpoint litEnd (c : ascii) (s : string) : re :=
  match s with
  | EmptyString => Chr c
  | String c' s' => Seq (Chr c) (litEnd c' s')
  end.

Definition anyChar : re := Class false [CSpace; CNonSpace].

(** A pattern character that matches itself only, whatever the case
    flag. *)
Definition exactChar (ci : bool) (c : ascii) : Prop :=
  forall c', char_match ci c c' = Ascii.eqb c c'.

Fixpoint exactText (ci : bool) (s : string) : Prop :=
  match s with
  | EmptyString => True
  | String c s' => exactChar ci c /\ exactText ci s'
  end.

Lemma exactText_sensitive s : exactText false s.
Proof. induction s; cbn; [exact I | split; [intros c'; reflexivity | assumption]]. Qed.

Lemma exactChar_caseless ci c :
  isUpper c = false -> isLower c = false -> exactChar ci c.
Proof.
  intros Hu Hl c'. destruct ci; [|reflexivity].
  unfold char_match, upperChar. rewrite Hl.
  destruct (isLower c') eqn:Hl'; [|reflexivity].
  destruct (Ascii.eqb_spec c c') as [->|Hne]. { rewrite Hl in Hl'. discriminate. }
  apply Ascii.eqb_neq. intros Heq. rewrite Heq in Hu.
  revert Hl' Hu. unfold isLower, isUpper. cbv zeta.
  rewrite nat_ascii_embedding
    by (pose proof (nat_ascii_bounded c'); lia).
  rewrite andb_true_iff, andb_false_iff, !Nat.leb_le, !Nat.leb_gt. lia.
Qed.

(** The character before the position reached after reading [s]. *)
Fixpoint lastOf (pv : option ascii) (s : string) : option ascii :=
  match s with
  | EmptyString => pv
  | String c s' => lastOf (Some c) s'
  end.

Lemma run_Seq ci r1 r2 x k :
  run ci (Seq r1 r2) x k = run ci r1 x (fun y => run ci r2 y k).
Proof. reflexivity. Qed.

Lemma run_Group ci n r1 x k :
  run ci (Group n r1) x k
  = run ci r1 x
      (fun y => k (set_cap n (String.substring 0 (pos y - pos x) (rest x)) y)).
Proof. reflexivity. Qed.

Lemma run_Chr ci c p c' t pv cs k :
  exactChar ci c ->
  run ci (Chr c) (mkState p (String c' t) pv cs) k
  = if Ascii.eqb c c' then k (mkState (S p) t (Some c') cs) else None.
Proof. intros Hc. cbn. unfold eat. cbn. rewrite Hc. reflexivity. Qed.

Lemma run_litThen ci s r : forall p t pv cs k,
  exactText ci s ->
  run ci (litThen s r) (mkState p (s +:+ t) pv cs) k
  = run ci r (mkState (p + String.length s) t (lastOf pv s) cs) k.
Proof.
  induction s as [|c s IH]; intros p t pv cs k Hs.
  - change ("" +:+ t) with t. cbn [litThen String.length lastOf].
    rewrite Nat.add_0_r. reflexivity.
  - destruct Hs as [Hc Hs].
    change (String c s +:+ t) with (String c (s +:+ t)).
    cbn [litThen]. rewrite run_Seq, run_Chr by exact Hc.
    rewrite Ascii.eqb_refl, IH by exact Hs.
    cbn [String.length lastOf]. rewrite Nat.add_succ_r. reflexivity.
Qed.

Lemma run_litThen_fail ci s r : forall p u pv cs k,
  exactText ci s ->
  String.prefix s u = false ->
  run ci (litThen s r) (mkState p u pv cs) k = None.
Proof.
  induction s as [|c s IH]; intros p u pv cs k Hs Hpre.
  - destruct u; discriminate.
  - destruct Hs as [Hc Hs]. cbn [litThen]. rewrite run_Seq.
    destruct u as [|c' u]; [reflexivity|].
    rewrite run_Chr by exact Hc.
    cbn in Hpre.
    destruct (ascii_dec c c') as [->|Hne].
    + rewrite Ascii.eqb_refl. apply IH; assumption.
    + apply Ascii.eqb_neq in Hne. rewrite Hne. reflexivity.
Qed.

Lemma run_litEnd ci s : forall c p t pv cs k,
  exactText ci (String c s) ->
  run ci (litEnd c s) (mkState p (String c s +:+ t) pv cs) k
  = k (mkState (p + String.length (String c s)) t (lastOf pv (String c s)) cs).
Proof.
  induction s as [|c' s IH]; intros c p t pv cs k [Hc Hs].
  - change (String c "" +:+ t) with (String c t).
    cbn [litEnd]. rewrite run_Chr by exact Hc. rewrite Ascii.eqb_refl.
    cbn [String.length lastOf]. rewrite Nat.add_1_r. reflexivity.
  - change (String c (String c' s) +:+ t) with (String c (String c' s +:+ t)).
    cbn [litEnd]. rewrite run_Seq, run_Chr by exact Hc.
    rewrite Ascii.eqb_refl, IH by exact Hs.
    cbn [String.length lastOf]. do 2 f_equal. lia.
Qed.

Lemma run_litEnd_fail ci s : forall c p u pv cs k,
  exactText ci (String c s) ->
  String.prefix (String c s) u = false ->
  run ci (litEnd c s) (mkState p u pv cs) k = None.
Proof.
  induction s as [|c' s IH]; intros c p u pv cs k [Hc Hs] Hpre.
  - cbn [litEnd]. destruct u as [|c0 u]; [reflexivity|].
    rewrite run_Chr by exact Hc.
    cbn in Hpre.
    destruct (ascii_dec c c0) as [->|Hne].
    + destruct u; discriminate.
    + apply Ascii.eqb_neq in Hne. rewrite Hne. reflexivity.
  - cbn [litEnd]. rewrite run_Seq.
    destruct u as [|c0 u]; [reflexivity|].
    rewrite run_Chr by exact Hc.
    cbn [String.prefix] in Hpre.
    destruct (ascii_dec c c0) as [->|Hne].
    + rewrite Ascii.eqb_refl. apply IH; assumption.
    + apply Ascii.eqb_neq in Hne. rewrite Hne. reflexivity.
Qed.

(** The loop of a lazy quantifier over any character, with
    continuation [k]. *)
Definition lazyAnyLoop (ci : bool) (k : state -> option state) :=
  fix rep (fuel mn : nat) (mx : option nat) (x : state) {struct fuel}
    : option state :=
    match fuel with
    | O => None
    | S fuel' =>
        match mx with
        | Some O => k x
        | _ =>
            let d := fun y : state =>
              if (mn =? 0) && (pos y =? pos x) then None
              else rep fuel' (Nat.pred mn) (pred_max mx) y in
            let x' := clear_caps (groups_of anyChar) x in
            if negb (mn =? 0) then run ci anyChar x' d
            else or_else (k x) (fun _ => run ci anyChar x' d)
        end
    end.

Lemma run_lazyAny ci mn x k :
  run ci (Rep mn None false anyChar) x k
  = lazyAnyLoop ci k (mn + S (S (String.length (rest x)))) mn None x.
Proof. reflexivity. Qed.

Lemma anyChar_matches ci c : class_match ci false [CSpace; CNonSpace] c = true.
Proof.
  unfold class_match, in_items. cbn.
  destruct ci; destruct (isWhiteSpace c); reflexivity.
Qed.

Lemma filter_all {A} (l : list A) : List.filter (fun _ => true) l = l.
Proof. induction l as [|a l IH]; [reflexivity|]. cbn. rewrite IH. reflexivity. Qed.

(** A lazy star stops at the first position where what follows it
    matches. *)
Lemma lazyAnyLoop_first ci k t cs z : forall u fuel p pv,
  String.length u < fuel ->
  (forall u1 c u2, u = u1 +:+ String c u2 ->
     k (mkState (p + String.length u1) (String c u2 +:+ t) (lastOf pv u1) cs) = None) ->
  k (mkState (p + String.length u) t (lastOf pv u) cs) = Some z ->
  lazyAnyLoop ci k fuel 0 None (mkState p (u +:+ t) pv cs) = Some z.
Proof.
  induction u as [|c u IH]; intros fuel p pv Hfuel Hbefore Hthere.
  - destruct fuel as [|fuel]; [cbn in Hfuel; lia|].
    cbn [lazyAnyLoop Nat.eqb negb]. unfold or_else.
    change ("" +:+ t) with t.
    cbn [String.length lastOf] in Hthere. rewrite Nat.add_0_r in Hthere.
    rewrite Hthere. reflexivity.
  - destruct fuel as [|fuel]; [cbn in Hfuel; lia|].
    cbn [lazyAnyLoop negb]. change (negb (0 =? 0)) with false. cbv iota.
    unfold or_else.
    change (String c u +:+ t) with (String c (u +:+ t)).
    pose proof (Hbefore "" c u eq_refl) as Hhere.
    cbn [String.length lastOf] in Hhere. rewrite Nat.add_0_r in Hhere.
    change (String c u +:+ t) with (String c (u +:+ t)) in Hhere.
    rewrite Hhere.
    cbn [run anyChar]. unfold eat, clear_caps.
    cbn [groups_of existsb negb rest pos prev caps].
    rewrite anyChar_matches, filter_all.
    cbn [pos].
    rewrite (proj2 (Nat.eqb_neq (S p) p)) by lia.
    rewrite andb_false_r.
    cbn [Nat.pred pred_max].
    apply IH.
    + cbn in Hfuel. lia.
    + intros u1 c' u2 Hu.
      specialize (Hbefore (String c u1) c' u2).
      cbn [String.length lastOf] in Hbefore.
      rewrite Nat.add_succ_r in Hbefore. apply Hbefore.
      rewrite Hu. reflexivity.
    + cbn [String.length lastOf] in Hthere.
      rewrite Nat.add_succ_r in Hthere. exact Hthere.
Qed.

(** A lazy plus takes one character, then behaves as the lazy star. *)
Lemma lazyAnyLoop_plus ci k t cs z c u fuel p pv :
  S (String.length u) < fuel ->
  (forall u1 c' u2, u = u1 +:+ String c' u2 ->
     k (mkState (S p + String.length u1) (String c' u2 +:+ t)
          (lastOf (Some c) u1) cs) = None) ->
  k (mkState (S p + String.length u) t (lastOf (Some c) u) cs) = Some z ->
  lazyAnyLoop ci k fuel 1 None (mkState p (String c u +:+ t) pv cs) = Some z.
Proof.
  intros Hfuel Hbefore Hthere.
  destruct fuel as [|fuel]; [lia|].
  cbn [lazyAnyLoop negb]. change (negb (1 =? 0)) with true. cbv iota.
  change (String c u +:+ t) with (String c (u +:+ t)).
  cbn [run anyChar]. unfold eat, clear_caps.
  cbn [groups_of existsb negb rest pos prev caps].
  rewrite anyChar_matches, filter_all.
  change (1 =? 0) with false. cbn [andb Nat.pred pred_max].
  apply lazyAnyLoop_first; [lia | exact Hbefore | exact Hthere].
Qed.

Lemma substring_prefix_app u t : String.substring 0 (String.length u) (u +:+ t) = u.
Proof.
  induction u as [|c u IH].
  - change ("" +:+ t) with t. destruct t; reflexivity.
  - change (String c u +:+ t) with (String c (u +:+ t)).
    cbn [String.length String.substring]. rewrite IH. reflexivity.
Qed.

Lemma length_append u t :
  String.length (u +:+ t) = String.length u + String.length t.
Proof.
  induction u as [|c u IH]; [reflexivity|].
  change (String c u +:+ t) with (String c (u +:+ t)).
  cbn [String.length]. rewrite IH. reflexivity.
Qed.

Lemma append_assoc u v t : (u +:+ v) +:+ t = u +:+ v +:+ t.
Proof.
  induction u as [|c u IH]; [reflexivity|].
  change ((String c u +:+ v) +:+ t) with (String c ((u +:+ v) +:+ t)).
  rewrite IH. reflexivity.
Qed.

Lemma substring_middle pre u t :
  JsString.substring (pre +:+ u +:+ t) (String.length pre)
    (String.length pre + String.length u) = u.
Proof.
  unfold JsString.substring.
  replace (String.length pre + String.length u - String.length pre)
    with (String.length u) by lia.
  induction pre as [|c pre IH].
  - change ("" +:+ u +:+ t) with (u +:+ t). apply substring_prefix_app.
  - change (String c pre +:+ u +:+ t) with (String c (pre +:+ u +:+ t)).
    cbn [String.length String.substring]. exact IH.
Qed.

(** The closing text does not start inside [content]. *)
Definition closesFirstAt (c : ascii) (close content tail : string) : Prop :=
  forall u1 c' u2,
    content = u1 +:+ String c' u2 ->
    String.prefix (String c close) (String c' u2 +:+ String c close +:+ tail) = false.

(** The opening text does not start inside [pre]. *)
Definition opensFirstAt (open pre tail : string) : Prop :=
  forall p1 c' p2,
    pre = p1 +:+ String c' p2 ->
    String.prefix open (String c' p2 +:+ open +:+ tail) = false.

Lemma prefix_app u t : String.prefix u (u +:+ t) = true.
Proof.
  induction u as [|c u IH]; [destruct t; reflexivity|].
  change (String c u +:+ t) with (String c (u +:+ t)).
  cbn [String.prefix]. destruct (ascii_dec c c); [exact IH | congruence].
Qed.

(** [indexOf] finds the first place where [open] starts. *)
Lemma indexOf_first c open tail : forall pre,
  opensFirstAt (String c open) pre tail ->
  indexOf (pre +:+ String c open +:+ tail) (String c open)
  = Some (String.length pre).
Proof.
  unfold indexOf. induction pre as [|c0 pre IH]; intros Hopen.
  - change ("" +:+ String c open +:+ tail) with (String c (open +:+ tail)).
    cbn [String.index].
    change (String c (open +:+ tail)) with (String c open +:+ tail).
    rewrite prefix_app. reflexivity.
  - change (String c0 pre +:+ String c open +:+ tail)
      with (String c0 (pre +:+ String c open +:+ tail)).
    cbn [String.index].
    change (String c0 (pre +:+ String c open +:+ tail))
      with (String c0 pre +:+ String c open +:+ tail).
    rewrite (Hopen "" c0 pre eq_refl), IH; [reflexivity|].
    intros p1 c' p2 Hp. apply (Hopen (String c0 p1) c' p2).
    rewrite Hp. reflexivity.
Qed.
(** A test for [opensFirstAt] and, with the closing text for [open],
    for [closesFirstAt]. *)
Fixpoint startsNowhereIn (open pre tail : string) : bool :=
  match pre with
  | EmptyString => true
  | String c p =>
      negb (String.prefix open (String c p +:+ open +:+ tail))
      && startsNowhereIn open p tail
  end.

Lemma startsNowhereIn_sound open tail : forall pre,
  startsNowhereIn open pre tail = true -> opensFirstAt open pre tail.
Proof.
  induction pre as [|c pre IH]; intros Htest p1 c' p2 Hp.
  - destruct p1; discriminate.
  - cbn [startsNowhereIn] in Htest. apply andb_prop in Htest as [Hhere Hrest].
    destruct p1 as [|c1 p1].
    + change ("" +:+ String c' p2) with (String c' p2) in Hp.
      injection Hp as <- <-. apply negb_true_iff in Hhere. exact Hhere.
    + change (String c1 p1 +:+ String c' p2)
        with (String c1 (p1 +:+ String c' p2)) in Hp.
      injection Hp as _ Hp. exact (IH Hrest p1 c' p2 Hp).
Qed.
End PatternFacts.

(* ===================================================================== *)
(** * The tag patterns *)
(* ===================================================================== *)

Section TagFacts.
Import JsString Regex.

Definition tagRe (open : string) (c : ascii) (close : string) : re :=
  litThen open (Seq (Group 1 (Rep 0 None false anyChar)) (litEnd c close)).

(** The pattern that extracts the architecture tag, the first of the
    extraction patterns. *)
Definition tagPattern : regexp := rx "<architecture>([\s\S]*?)<\/architecture>".

Lemma tagPattern_shape :
  body tagPattern = tagRe "<architecture>" "<" "/architecture>"
  /\ body JarvisIntegration.explanationRegex = tagRe "<explanation>" "<" "/explanation>".
Proof. split; vm_compute; reflexivity. Qed.

Lemma tagRe_at open c close content post p pv :
  closesFirstAt c close content post ->
  run false (tagRe open c close)
    (mkState p (open +:+ content +:+ String c close +:+ post) pv []) Some
  = Some (mkState
            (p + String.length open + String.length content
             + String.length (String c close))
            post
            (lastOf (lastOf (lastOf pv open) content) (String c close))
            [(1, content)]).
Proof.
  intros Hclose. unfold tagRe.
  rewrite run_litThen by apply exactText_sensitive.
  rewrite run_Seq, run_Group, run_lazyAny. cbn [rest pos].
  erewrite lazyAnyLoop_first.
  - reflexivity.
  - rewrite length_append. lia.
  - intros u1 c' u2 Hu. cbn beta. unfold set_cap. cbn [pos rest prev caps].
    apply run_litEnd_fail; [apply exactText_sensitive|].
    exact (Hclose u1 c' u2 Hu).
  - cbn beta. unfold set_cap. cbn [pos rest prev caps].
    rewrite run_litEnd by apply exactText_sensitive.
    replace (p + String.length open + String.length content
             - (p + String.length open)) with (String.length content) by lia.
    rewrite substring_prefix_app. reflexivity.
Qed.

Lemma search_tag pattern open c close content post :
  body pattern = tagRe open c close -> ignoreCase pattern = false ->
  closesFirstAt c close content post ->
  forall pre i before,
    opensFirstAt open pre (content +:+ String c close +:+ post) ->
    search pattern i before
      (pre +:+ open +:+ content +:+ String c close +:+ post)
    = Some (mkMatch (i + String.length pre)
              (i + String.length pre + String.length open + String.length content
               + String.length (String c close))
              [(1, content)]).
Proof.
  intros Hbody Hci Hclose.
  induction pre as [|c0 pre IH]; intros i before Hopen.
  - change ("" +:+ open +:+ content +:+ String c close +:+ post)
      with (open +:+ content +:+ String c close +:+ post).
    assert (match_at pattern i before
              (open +:+ content +:+ String c close +:+ post)
            = Some (mkMatch (i + 0)
                      (i + 0 + String.length open + String.length content
                       + String.length (String c close)) [(1, content)])) as Hat.
    { unfold match_at. rewrite Hbody, Hci, tagRe_at by exact Hclose.
      cbn [pos caps]. rewrite Nat.add_0_r. reflexivity. }
    destruct (open +:+ content +:+ String c close +:+ post);
      cbn [search String.length]; rewrite Hat; reflexivity.
  - change (String c0 pre +:+ open +:+ content +:+ String c close +:+ post)
      with (String c0 (pre +:+ open +:+ content +:+ String c close +:+ post)).
    cbn [search].
    assert (match_at pattern i before
              (String c0 (pre +:+ open +:+ content +:+ String c close +:+ post))
            = None) as ->.
    { unfold match_at. rewrite Hbody, Hci. unfold tagRe.
      rewrite run_litThen_fail;
        [reflexivity | apply exactText_sensitive |].
      exact (Hopen "" c0 pre eq_refl). }
    rewrite IH.
    + cbn [String.length]. f_equal. f_equal; lia.
    + intros p1 c' p2 Hp. apply (Hopen (String c0 p1) c' p2).
      rewrite Hp. reflexivity.
Qed.

(** [raw] is [pre], an opening tag, [content], a closing tag and
    [post], where the opening tag is the first one of [raw] and the
    closing tag the first one after it. *)
Definition firstBlock (open close raw pre content post : string) : Prop :=
  raw = pre +:+ open +:+ content +:+ close +:+ post
  /\ (forall p1 c p2,
        pre = p1 +:+ String c p2 ->
        String.prefix open (String c p2 +:+ open +:+ content +:+ close +:+ post) = false)
  /\ (forall u1 c u2,
        content = u1 +:+ String c u2 ->
        String.prefix close (String c u2 +:+ close +:+ post) = false).

Lemma capture1_firstBlock pattern open c close raw pre content post :
  body pattern = tagRe open c close -> ignoreCase pattern = false ->
  firstBlock open (String c close) raw pre content post ->
  content <> "" ->
  JarvisIntegration.capture1 pattern raw = Some content.
Proof.
  intros Hbody Hci (-> & Hopen & Hclose) Hne.
  unfold JarvisIntegration.capture1, exec.
  rewrite (search_tag pattern open c close content post Hbody Hci Hclose pre 0 None Hopen).
  unfold group. cbn [groups assoc Nat.eqb].
  destruct content; [congruence | reflexivity].
Qed.

End TagFacts.

(* ===================================================================== *)
(** * The code-block pattern *)
(* ===================================================================== *)

Section CodeBlockFacts.
Import JsString Regex IntentDetection ResponseFormatter.

(** What [[a-z]] matches under the i flag. *)
Definition isLetter (c : ascii) : bool := isLower c || isUpper c.

Fixpoint allLetters (s : string) : bool :=
  match s with
  | EmptyString => true
  | String c s' => isLetter c && allLetters s'
  end.

Definition letters : re := Class false [CRange "a" "z"].

Lemma letters_match c : class_match true false [CRange "a" "z"] c = isLetter c.
Proof. destruct c as [[] [] [] [] [] [] [] []]; reflexivity. Qed.

(** The loop of a greedy star over letters, with continuation [k]. *)
Definition greedyLettersLoop (k : state -> option state) :=
  fix rep (fuel mn : nat) (mx : option nat) (x : state) {struct fuel}
    : option state :=
    match fuel with
    | O => None
    | S fuel' =>
        match mx with
        | Some O => k x
        | _ =>
            let d := fun y : state =>
              if (mn =? 0) && (pos y =? pos x) then None
              else rep fuel' (Nat.pred mn) (pred_max mx) y in
            let x' := clear_caps (groups_of letters) x in
            if negb (mn =? 0) then run true letters x' d
            else or_else (run true letters x' d) (fun _ => k x)
        end
    end.

Lemma run_greedyLetters x k :
  run true (Rep 0 None true letters) x k
  = greedyLettersLoop k (S (S (String.length (rest x)))) 0 None x.
Proof. reflexivity. Qed.

(** A greedy star takes the letters first; when what follows them
    matches there, that is the match. *)
Lemma greedyLettersLoop_all k c0 t cs z : forall tag fuel p pv,
  String.length tag < fuel ->
  allLetters tag = true ->
  isLetter c0 = false ->
  k (mkState (p + String.length tag) (String c0 t) (lastOf pv tag) cs) = Some z ->
  greedyLettersLoop k fuel 0 None (mkState p (tag +:+ String c0 t) pv cs) = Some z.
Proof.
  induction tag as [|c tag IH]; intros fuel p pv Hfuel Htag Hc0 Hthere.
  - destruct fuel as [|fuel]; [cbn in Hfuel; lia|].
    change ("" +:+ String c0 t) with (String c0 t).
    cbn [greedyLettersLoop negb]. change (negb (0 =? 0)) with false. cbv iota.
    cbn [run letters]. unfold eat, clear_caps.
    cbn [groups_of existsb negb rest pos prev caps].
    rewrite letters_match, Hc0. unfold or_else.
    cbn [String.length lastOf] in Hthere. rewrite Nat.add_0_r in Hthere.
    exact Hthere.
  - destruct fuel as [|fuel]; [cbn in Hfuel; lia|].
    cbn [allLetters] in Htag. apply andb_prop in Htag as [Hc Htag].
    change (String c tag +:+ String c0 t) with (String c (tag +:+ String c0 t)).
    cbn [greedyLettersLoop negb]. change (negb (0 =? 0)) with false. cbv iota.
    cbn [run letters]. unfold eat, clear_caps.
    cbn [groups_of existsb negb rest pos prev caps].
    rewrite letters_match, Hc, filter_all.
    cbn [pos].
    rewrite (proj2 (Nat.eqb_neq (S p) p)) by lia.
    rewrite andb_false_r.
    cbn [Nat.pred pred_max].
    rewrite IH; [reflexivity | cbn in Hfuel; lia | exact Htag | exact Hc0 |].
    cbn [String.length lastOf] in Hthere.
    rewrite Nat.add_succ_r in Hthere. exact Hthere.
Qed.

(** The pattern of a code block, as [parse] builds it. *)
Definition codeBlockRe : re :=
  litThen fence
    (Seq (Rep 0 None true letters)
       (Seq (Chr "010")
          (Seq (Rep 1 None false anyChar) (litEnd "`" "``")))).

Lemma codeBlockPattern_shape :
  body codeBlockPattern = codeBlockRe /\ ignoreCase codeBlockPattern = true.
Proof. split; reflexivity. Qed.

Lemma exactChar_backtick : exactChar true "`".
Proof. apply exactChar_caseless; reflexivity. Qed.

Lemma exactChar_newline : exactChar true "010".
Proof. apply exactChar_caseless; reflexivity. Qed.

Lemma exactText_fence : exactText true fence.
Proof. repeat split; apply exactChar_backtick. Qed.

(** A fenced block: the marker, a tag of letters, a line break, at
    least one character, and the marker again. *)
Definition fencedBlock (tag : string) (c : ascii) (content : string) : string :=
  fence +:+ tag +:+ nl +:+ String c content +:+ fence.

Lemma codeBlockRe_at tag c content post p pv :
  allLetters tag = true ->
  closesFirstAt "`" "``" content post ->
  exists y,
    run true codeBlockRe
      (mkState p (fence +:+ tag +:+ nl +:+ String c content +:+ fence +:+ post) pv [])
      Some = Some y
    /\ pos y = p + String.length (fencedBlock tag c content)
    /\ caps y = [].
Proof.
  intros Htag Hclose. eexists. split; [|split].
  - unfold codeBlockRe. rewrite run_litThen by exact exactText_fence.
    rewrite run_Seq, run_greedyLetters.
    change (nl +:+ String c content +:+ fence +:+ post)
      with (String "010" (String c content +:+ fence +:+ post)).
    apply greedyLettersLoop_all;
      [cbn [rest]; rewrite length_append; lia | exact Htag | reflexivity |].
    rewrite run_Seq, run_Chr by exact exactChar_newline.
    rewrite Ascii.eqb_refl, run_Seq, run_lazyAny. cbn [rest].
    apply lazyAnyLoop_plus.
    + change (String c content +:+ fence +:+ post)
        with (String c (content +:+ fence +:+ post)).
      cbn [String.length]. rewrite length_append. lia.
    + intros u1 c' u2 Hu. apply run_litEnd_fail.
      * exact exactText_fence.
      * exact (Hclose u1 c' u2 Hu).
    + change (fence +:+ post) with (String "`" "``" +:+ post).
      rewrite run_litEnd by exact exactText_fence. reflexivity.
  - cbn [pos]. unfold fencedBlock.
    rewrite !length_append. cbn [String.length fence nl]. lia.
  - reflexivity.
Qed.

Lemma search_codeBlock tag c content post :
  allLetters tag = true ->
  closesFirstAt "`" "``" content post ->
  forall pre i before,
    opensFirstAt fence pre (tag +:+ nl +:+ String c content +:+ fence +:+ post) ->
    search codeBlockPattern i before
      (pre +:+ fence +:+ tag +:+ nl +:+ String c content +:+ fence +:+ post)
    = Some (mkMatch (i + String.length pre)
              (i + String.length pre + String.length (fencedBlock tag c content))
              []).
Proof.
  intros Htag Hclose.
  induction pre as [|c0 pre IH]; intros i before Hopen.
  - change ("" +:+ fence +:+ tag +:+ nl +:+ String c content +:+ fence +:+ post)
      with (fence +:+ tag +:+ nl +:+ String c content +:+ fence +:+ post).
    destruct (codeBlockRe_at tag c content post i before Htag Hclose)
      as (y & Hrun & Hpos & Hcaps).
    assert (match_at codeBlockPattern i before
              (fence +:+ tag +:+ nl +:+ String c content +:+ fence +:+ post)
            = Some (mkMatch (i + 0)
                      (i + 0 + String.length (fencedBlock tag c content)) [])) as Hat.
    { unfold match_at.
      change (body codeBlockPattern) with codeBlockRe.
      change (ignoreCase codeBlockPattern) with true.
      rewrite Hrun, Hpos, Hcaps, Nat.add_0_r. reflexivity. }
    change (fence +:+ tag +:+ nl +:+ String c content +:+ fence +:+ post)
      with (String "`" ("``" +:+ tag +:+ nl +:+ String c content +:+ fence +:+ post))
      in *.
    cbn [search String.length]. rewrite Hat. reflexivity.
  - change (String c0 pre +:+ fence +:+ tag +:+ nl +:+ String c content +:+ fence +:+ post)
      with (String c0 (pre +:+ fence +:+ tag +:+ nl +:+ String c content +:+ fence +:+ post)).
    cbn [search].
    assert (match_at codeBlockPattern i before
              (String c0 (pre +:+ fence +:+ tag +:+ nl +:+ String c content
                          +:+ fence +:+ post))
            = None) as ->.
    { unfold match_at.
      change (body codeBlockPattern) with codeBlockRe.
      change (ignoreCase codeBlockPattern) with true.
      unfold codeBlockRe.
      rewrite run_litThen_fail; [reflexivity | exact exactText_fence |].
      exact (Hopen "" c0 pre eq_refl). }
    rewrite IH.
    + cbn [String.length]. f_equal. f_equal; lia.
    + intros p1 c' p2 Hp. apply (Hopen (String c0 p1) c' p2).
      rewrite Hp. reflexivity.
Qed.

(** [raw] is [pre], a fenced block and [post], where the block opens
    at the first fence marker of [raw], its tag is made of letters,
    and it closes at the first marker after its first character. *)
Definition firstCodeBlock (raw pre tag : string) (c : ascii)
  (content post : string) : Prop :=
  raw = pre +:+ fencedBlock tag c content +:+ post
  /\ allLetters tag = true
  /\ opensFirstAt fence pre (tag +:+ nl +:+ String c content +:+ fence +:+ post)
  /\ closesFirstAt "`" "``" content post.

Lemma fencedBlock_app tag c content post :
  fencedBlock tag c content +:+ post
  = fence +:+ tag +:+ nl +:+ String c content +:+ fence +:+ post.
Proof.
  unfold fencedBlock. rewrite !append_assoc. reflexivity.
Qed.

Lemma exec_firstCodeBlock raw pre tag c content post :
  firstCodeBlock raw pre tag c content post ->
  exists m,
    exec codeBlockPattern raw = Some m
    /\ index m = String.length pre
    /\ matched raw m = fencedBlock tag c content
    /\ indexOf raw fence = Some (String.length pre).
Proof.
  intros (-> & Htag & Hopen & Hclose).
  eexists. split; [|split; [|split]].
  - unfold exec. rewrite fencedBlock_app.
    apply (search_codeBlock tag c content post Htag Hclose pre 0 None Hopen).
  - reflexivity.
  - unfold matched. cbn [index lastIndex Nat.add]. apply substring_middle.
  - rewrite fencedBlock_app. apply (indexOf_first "`" "``"). exact Hopen.
Qed.
End CodeBlockFacts.

(* ===================================================================== *)
(** * Properties of response post-processing *)
(* ===================================================================== *)

Section ResponseFacts.
Import JsString Regex IntentDetection ResponseFormatter.

(** The language a code block is labeled with: the one given when it
    is a non-empty text, otherwise the default of the intent. *)
Definition blockLanguage (intent : Intent) (language : option string) : string :=
  match language with
  | Some (String c l) => String c l
  | _ => if bool_decide (intent = cdk_generation) then "typescript" else "javascript"
  end.

(** The text before the first fence marker, trimmed. *)
Definition introOf (rawResponse : string) : string :=
  trim (JsString.substring rawResponse 0 (default 0 (indexOf rawResponse fence))).

Lemma languageOr_blockLanguage intent language :
  languageOr language
    (if bool_decide (intent = cdk_generation) then "typescript" else "javascript")
  = blockLanguage intent language.
Proof. destruct language as [[|c l]|]; reflexivity. Qed.

Lemma introOf_firstCodeBlock raw pre tag c content post :
  firstCodeBlock raw pre tag c content post -> introOf raw = trim pre.
Proof.
  intros Hblock.
  destruct (exec_firstCodeBlock _ _ _ _ _ _ Hblock) as (m & _ & _ & _ & Hidx).
  destruct Hblock as (-> & _).
  unfold introOf. rewrite Hidx. cbn [default id].
  unfold JsString.substring. rewrite Nat.sub_0_r, substring_prefix_app.
  reflexivity.
Qed.

(** What the code branch returns once the pattern has matched. *)
Lemma postProcessResponse_matched intent rawResponse language m :
  intent = cdk_generation \/ intent = code_generation ->
  includes rawResponse fence = true ->
  exec codeBlockPattern rawResponse = Some m ->
  postProcessResponse intent rawResponse language
  = if String.length (introOf rawResponse) <? 100
    then if JsString.truthy (introOf rawResponse)
         then introOf rawResponse +:+ nl +:+ nl +:+ matched rawResponse m
         else matched rawResponse m
    else matched rawResponse m.
Proof.
  intros Hintent Hsome Hexec.
  destruct Hintent as [-> | ->]; cbn [postProcessResponse];
    rewrite Hsome, Hexec; reflexivity.
Qed.

Lemma intro_kept (intro block : string) :
  intro <> "" -> String.length intro < 100 ->
  (if String.length intro <? 100
   then if JsString.truthy intro then intro +:+ nl +:+ nl +:+ block else block
   else block)
  = intro +:+ nl +:+ nl +:+ block.
Proof.
  intros Hne Hlt. apply Nat.ltb_lt in Hlt. rewrite Hlt.
  destruct intro; [congruence | reflexivity].
Qed.

Lemma intro_dropped (intro block : string) :
  intro = "" \/ 100 <= String.length intro ->
  (if String.length intro <? 100
   then if JsString.truthy intro then intro +:+ nl +:+ nl +:+ block else block
   else block)
  = block.
Proof.
  intros [-> | Hlong]; [reflexivity|].
  apply Nat.ltb_ge in Hlong. rewrite Hlong. reflexivity.
Qed.

(** The code branch and the chat branch of [postProcessResponse].
    For the intents cdk_generation and code_generation: a raw response
    with no fence marker comes back trimmed and wrapped in a fenced
    block labeled with the given language, by default typescript for
    cdk_generation and javascript for code_generation. A raw response
    with a fence marker is searched for the first match of the
    code-block pattern: without a match it comes back unchanged; with
    a match, the match alone is kept, preceded by the intro text and a
    blank line exactly when that text is not empty and shorter than
    100 characters, the intro text being the trimmed text before the
    first fence marker. When the first fence marker opens a block
    whose tag is made of letters only, the match is that block, up to
    the first fence marker after its first character, and the intro
    text is the trimmed text before it. For greeting and general_chat
    the result is the trimmed raw response. *)
Theorem postProcessResponse_code_and_chat (rawResponse : string)
  (language : option string) :
  (forall intent,
      intent = cdk_generation \/ intent = code_generation ->
      (includes rawResponse fence = false ->
       postProcessResponse intent rawResponse language
       = fence +:+ blockLanguage intent language +:+ nl
         +:+ trim rawResponse +:+ nl +:+ fence)
      /\ (includes rawResponse fence = true ->
          exec codeBlockPattern rawResponse = None ->
          postProcessResponse intent rawResponse language = rawResponse)
      /\ (forall m,
            includes rawResponse fence = true ->
            exec codeBlockPattern rawResponse = Some m ->
            let block := matched rawResponse m in
            let intro := introOf rawResponse in
            (intro <> "" /\ String.length intro < 100 ->
             postProcessResponse intent rawResponse language
             = intro +:+ nl +:+ nl +:+ block)
            /\ (intro = "" \/ 100 <= String.length intro ->
                postProcessResponse intent rawResponse language = block))
      /\ (forall pre tag c content post,
            firstCodeBlock rawResponse pre tag c content post ->
            let block := fencedBlock tag c content in
            let intro := trim pre in
            (intro <> "" /\ String.length intro < 100 ->
             postProcessResponse intent rawResponse language
             = intro +:+ nl +:+ nl +:+ block)
            /\ (intro = "" \/ 100 <= String.length intro ->
                postProcessResponse intent rawResponse language = block)))
  /\ postProcessResponse greeting rawResponse language = trim rawResponse
  /\ postProcessResponse general_chat rawResponse language = trim rawResponse.
Proof.
  split; [|split; reflexivity].
  intros intent Hintent. split; [|split; [|split]].
  - intros Hnone. rewrite <- languageOr_blockLanguage.
    destruct Hintent as [-> | ->]; cbn [postProcessResponse];
      rewrite Hnone; reflexivity.
  - intros Hsome Hexec.
    destruct Hintent as [-> | ->]; cbn [postProcessResponse];
      rewrite Hsome, Hexec; reflexivity.
  - intros m Hsome Hexec. cbn zeta.
    rewrite (postProcessResponse_matched _ _ _ m Hintent Hsome Hexec).
    split.
    + intros [Hne Hlt]. apply intro_kept; assumption.
    + apply intro_dropped.
  - intros pre tag c content post Hblock. cbn zeta.
    destruct (exec_firstCodeBlock _ _ _ _ _ _ Hblock)
      as (m & Hexec & _ & Hmatched & Hidx).
    assert (includes rawResponse fence = true) as Hsome
      by (unfold includes; rewrite Hidx; reflexivity).
    rewrite (postProcessResponse_matched _ _ _ m Hintent Hsome Hexec).
    rewrite Hmatched, (introOf_firstCodeBlock _ _ _ _ _ _ Hblock).
    split.
    + intros [Hne Hlt]. apply intro_kept; assumption.
    + apply intro_dropped.
Qed.

(** Two runs of the code branch: a bare answer is wrapped, and of two
    code blocks the first is kept after the short intro. *)
Example postProcessResponse_examples :
  postProcessResponse code_generation "  let x = 1; " None
  = "```javascript" +:+ nl +:+ "let x = 1;" +:+ nl +:+ "```"
  /\ postProcessResponse cdk_generation
       ("Intro   ```ts" +:+ nl +:+ "code" +:+ nl +:+ "``` tail ```js" +:+ nl +:+ "more```")
       (Some "python")
     = "Intro" +:+ nl +:+ nl +:+ "```ts" +:+ nl +:+ "code" +:+ nl +:+ "```".
Proof. split; vm_compute; reflexivity. Qed.

(** The response of the second run above is a first code block in the
    sense of [firstCodeBlock]. *)
Example firstCodeBlock_example :
  firstCodeBlock
    ("Intro   ```ts" +:+ nl +:+ "code" +:+ nl +:+ "``` tail ```js" +:+ nl +:+ "more```")
    "Intro   " "ts" "c" ("ode" +:+ nl) (" tail ```js" +:+ nl +:+ "more```").
Proof.
  repeat split; apply startsNowhereIn_sound; reflexivity.
Qed.

(** A response whose two code blocks are tagged c# and js. *)
Definition twoTaggedBlocks : string :=
  "```c#" +:+ nl +:+ "var x = 1;" +:+ nl +:+ "```" +:+ nl
  +:+ "and" +:+ nl +:+ "```js" +:+ nl +:+ "y" +:+ nl +:+ "```".

(** A response with a fence marker inside its first sentence. *)
Definition inlineMarker : string :=
  "Use ```x``` here: ```js" +:+ nl +:+ "code```".

(** C7, where the code departs from it: the pattern only takes a tag
    made of letters, so for a first code block tagged c# it does not
    match there, and what is kept is the text between the closing
    marker of that block and the opening marker of the next, not the
    first code block; and the intro text stops at the first fence
    marker, which need not be where the kept block starts. *)
Lemma first_code_block_not_kept :
  postProcessResponse code_generation twoTaggedBlocks None
  = "```" +:+ nl +:+ "and" +:+ nl +:+ "```"
  /\ startsWith twoTaggedBlocks
       ("```c#" +:+ nl +:+ "var x = 1;" +:+ nl +:+ "```") = true
  /\ postProcessResponse code_generation inlineMarker None
     = "Use" +:+ nl +:+ nl +:+ "```js" +:+ nl +:+ "code```"
  /\ startsWith inlineMarker "Use ```x``` here: ```js" = true.
Proof. repeat split; vm_compute; reflexivity. Qed.

End ResponseFacts.

(* ===================================================================== *)
(** * Properties of the integration layer *)
(* ===================================================================== *)

Section IntegrationFacts.
Import JsString Regex Json Platform IntentDetection ContextManager
       ResponseFormatter CohereChat JarvisIntegration.
Context `{Platform}.

(** An object whose [nodes] and [edges] fields are both arrays. *)
Definition architectureShaped (v : json) : Prop :=
  exists fields ns es,
    v = JObj fields
    /\ lookup_field "nodes" fields = Some (JArr ns)
    /\ lookup_field "edges" fields = Some (JArr es).

Lemma isArchitectureObject_shaped v :
  isArchitectureObject v = true <-> architectureShaped v.
Proof.
  unfold isArchitectureObject, architectureShaped. split.
  - destruct v as [| | | | |fields]; cbn; try discriminate;
      try (destruct b; discriminate);
      try (destruct (negb _); discriminate);
      try (destruct (JsString.truthy _); discriminate).
    destruct (lookup_field "nodes" fields) as [[| | | |ns|]|] eqn:Hn;
      cbn; try discriminate.
    destruct (lookup_field "edges" fields) as [[| | | |es|]|] eqn:He;
      cbn; try discriminate.
    intros _. exists fields, ns, es. auto.
  - intros (fields & ns & es & -> & Hn & He). cbn. rewrite Hn, He. reflexivity.
Qed.

(** A pattern yields [v]: the text it extracts parses, as JSON, to
    [v], and [v] has the shape of an architecture. *)
Definition yields (rawResponse : string) (pattern : regexp) (v : json) : Prop :=
  exists text,
    candidateText pattern rawResponse = Some text
    /\ JSON_parse text = Some v
    /\ architectureShaped v.

Definition yieldsNothing (rawResponse : string) (pattern : regexp) : Prop :=
  forall v, ~ yields rawResponse pattern v.

Lemma tryPatterns_step pattern patterns rawResponse :
  (forall v, yields rawResponse pattern v ->
             tryPatterns (pattern :: patterns) rawResponse None = Some v)
  /\ (yieldsNothing rawResponse pattern ->
      tryPatterns (pattern :: patterns) rawResponse None
      = tryPatterns patterns rawResponse None).
Proof.
  cbn [tryPatterns]. split.
  - intros v (text & -> & -> & Hshape).
    apply isArchitectureObject_shaped in Hshape. rewrite Hshape. reflexivity.
  - intros Hnothing.
    destruct (candidateText pattern rawResponse) as [text|] eqn:Htext; [|reflexivity].
    destruct (JSON_parse text) as [v|] eqn:Hparse; [|reflexivity].
    destruct (isArchitectureObject v) eqn:Hobj; [|reflexivity].
    exfalso. apply (Hnothing v). exists text.
    split; [exact Htext|]. split; [exact Hparse|].
    apply isArchitectureObject_shaped, Hobj.
Qed.

Lemma yields_or_nothing rawResponse pattern :
  (exists v, yields rawResponse pattern v) \/ yieldsNothing rawResponse pattern.
Proof.
  unfold yieldsNothing, yields.
  destruct (candidateText pattern rawResponse) as [text|].
  - destruct (JSON_parse text) as [v|] eqn:Hparse.
    + destruct (isArchitectureObject v) eqn:Hobj.
      * left. exists v, text. split; [reflexivity|]. split; [exact Hparse|].
        apply isArchitectureObject_shaped, Hobj.
      * right. intros v' (text' & Heq & Hp & Hs). injection Heq as <-.
        rewrite Hparse in Hp. injection Hp as <-.
        apply isArchitectureObject_shaped in Hs. congruence.
    + right. intros v' (text' & Heq & Hp & _). injection Heq as <-. congruence.
  - right. intros v' (text' & Heq & _). discriminate.
Qed.

(** The loop returns what the first yielding pattern yields. *)
Lemma tryPatterns_first_yield patterns rawResponse :
  match tryPatterns patterns rawResponse None with
  | Some v =>
      exists earlier pattern later,
        patterns = earlier ++ pattern :: later
        /\ Forall (yieldsNothing rawResponse) earlier
        /\ yields rawResponse pattern v
  | None => Forall (yieldsNothing rawResponse) patterns
  end.
Proof.
  induction patterns as [|pattern patterns IH]; [constructor|].
  destruct (tryPatterns_step pattern patterns rawResponse) as [Hyes Hno].
  destruct (yields_or_nothing rawResponse pattern) as [[v Hv]|Hnothing].
  - rewrite (Hyes v Hv). exists [], pattern, patterns. auto.
  - rewrite (Hno Hnothing).
    destruct (tryPatterns patterns rawResponse None) as [v|].
    + destruct IH as (earlier & p & later & -> & Hearlier & Hp).
      exists (pattern :: earlier), p, later. auto.
    + constructor; assumption.
Qed.

(** The response text with the first match of each pattern removed. *)
Definition withoutBlocks (rawResponse : string) : string :=
  foldl (fun cleaned pattern => replace cleaned pattern "")
    rawResponse architecturePatterns.

(** An explanation longer than 1500 characters is cut to its first
    1500 characters and an ellipsis. *)
Definition shortened (explanation : string) : string :=
  if 1500 <? String.length explanation
  then JsString.substring explanation 0 1500 +:+ "..."
  else explanation.

Lemma architecturePatterns_head :
  exists later, architecturePatterns = tagPattern :: later.
Proof. eexists. reflexivity. Qed.

(** C3, as the code has it. [parsedArchitecture] is non-null only when
    the text extracted by one of the ordered patterns parses as JSON
    to an object whose nodes and edges are arrays, and it is then what
    the first such pattern yields; when the text extracted by the
    architecture tag pattern, the first of them, is such JSON, that
    object is returned: so it is when the first architecture block of
    the output, from the first opening tag to the first closing tag
    after it, has a non-empty content that is such JSON once trimmed and
    freed of fence markers; when no pattern yields such JSON the result
    is null. The explanation is the trimmed content of the first
    explanation block when that content is not empty; otherwise, when
    the explanation pattern captures nothing, it is the response text
    with the first match of each pattern removed, trimmed,
    'Architecture updated.' when that is empty, and cut to its first
    1500 characters followed by an ellipsis when it is longer. *)
Theorem processArchitectureUpdate_spec (rawResponse : string) :
  let parsedArchitecture := fst (processArchitectureUpdate rawResponse) in
  let explanation := snd (processArchitectureUpdate rawResponse) in
  (forall v, parsedArchitecture = Some v ->
     exists earlier pattern later,
       architecturePatterns = earlier ++ pattern :: later
       /\ Forall (yieldsNothing rawResponse) earlier
       /\ yields rawResponse pattern v)
  /\ (forall v, yields rawResponse tagPattern v -> parsedArchitecture = Some v)
  /\ (forall pre content post v,
        firstBlock "<architecture>" "</architecture>" rawResponse pre content post ->
        content <> "" ->
        JSON_parse (replace (trim content) fenceArtifacts "") = Some v ->
        architectureShaped v ->
        parsedArchitecture = Some v)
  /\ (Forall (yieldsNothing rawResponse) architecturePatterns ->
      parsedArchitecture = None)
  /\ (forall content,
        capture1 explanationRegex rawResponse = Some content ->
        explanation = trim content)
  /\ (forall pre content post,
        firstBlock "<explanation>" "</explanation>" rawResponse pre content post ->
        content <> "" ->
        explanation = trim content)
  /\ (capture1 explanationRegex rawResponse = None ->
      explanation
      = shortened (orElse (trim (withoutBlocks rawResponse)) "Architecture updated.")).
Proof.
  cbn zeta. unfold processArchitectureUpdate. cbn [fst snd].
  pose proof (tryPatterns_first_yield architecturePatterns rawResponse) as Hloop.
  split; [|split; [|split; [|split; [|split; [|split]]]]].
  - intros v Hv. rewrite Hv in Hloop. exact Hloop.
  - intros v Hv. destruct architecturePatterns_head as [later ->].
    apply (tryPatterns_step tagPattern later rawResponse), Hv.
  - intros pre content post v Hblock Hne Hparse Hshape.
    destruct architecturePatterns_head as [later ->].
    apply (tryPatterns_step tagPattern later rawResponse).
    exists (replace (trim content) fenceArtifacts "").
    split; [|split; assumption].
    unfold candidateText.
    rewrite (capture1_firstBlock tagPattern _ _ _ _ _ _ _
               (proj1 tagPattern_shape) eq_refl Hblock Hne).
    reflexivity.
  - intros Hnone.
    destruct (tryPatterns architecturePatterns rawResponse None) as [v|];
      [|reflexivity].
    destruct Hloop as (earlier & pattern & later & Heq & _ & Hyes).
    rewrite Heq in Hnone. apply Forall_app in Hnone as [_ Hnone].
    apply Forall_cons in Hnone as [Hno _]. destruct (Hno v Hyes).
  - intros content ->. reflexivity.
  - intros pre content post Hblock Hne.
    rewrite (capture1_firstBlock explanationRegex _ _ _ _ _ _ _
               (proj2 tagPattern_shape) eq_refl Hblock Hne).
    reflexivity.
  - intros ->. reflexivity.
Qed.

(** C5. For a message whose detected intent is not architecture_update,
    when the prompt is built and the model call on it succeeds with a
    raw output, the request handler returns architectureUpdated =
    false, no updated architecture, and the response
    postProcessResponse(intent, raw, language), with the intent
    detected with architecture context and the language detected from
    the message, typescript by default: the handler is the sequential
    composition of intent detection, language detection, prompt
    generation, the model call and post-processing. *)
Theorem processJarvisRequest_pipeline (clock : nat) (message : string)
  (architecture : Architecture) (messageHistory : option (list json))
  (aiPrompt rawResponse : string) :
  let enhancedIntent := detectEnhancedIntent message true in
  let intent := intentType enhancedIntent in
  let language :=
    match detectProgrammingLanguage message with
    | Some l => l
    | None => "typescript"
    end in
  intent <> architecture_update ->
  generateAIPrompt enhancedIntent message architecture language = Some aiPrompt ->
  generateCohereChatCompletion clock
    (completionOptions enhancedIntent message aiPrompt) = inr rawResponse ->
  processJarvisRequest clock message architecture messageHistory
  = mkResult (postProcessResponse intent rawResponse (Some language)) false None.
Proof.
  cbn zeta. intros Hintent Hprompt Hchat.
  assert (languageOr (detectProgrammingLanguage message) "typescript"
          = match detectProgrammingLanguage message with
            | Some l => l
            | None => "typescript"
            end) as Hlang.
  { unfold detectProgrammingLanguage.
    destruct (firstLanguage languageRules (toLowerCase message)) as [l|] eqn:Hfirst.
    - assert (l <> "") as Hl.
      { clear -Hfirst. revert Hfirst. generalize (toLowerCase message). intros s.
        unfold languageRules. cbn [firstLanguage].
        repeat (destruct (test _ s); [intros [= <-]; discriminate|]).
        discriminate. }
      destruct l; [congruence | reflexivity].
    - destruct (existsb _ cdkGenerationPatterns); reflexivity. }
  unfold processJarvisRequest, runPipeline.
  rewrite Hlang, Hprompt. cbn [mbind option_bind]. rewrite Hchat.
  rewrite bool_decide_eq_false_2 by exact Hintent. reflexivity.
Qed.

End IntegrationFacts.

Section IntegrationExamples.
Import JsString Regex Json Platform IntentDetection ContextManager
       ResponseFormatter CohereChat JarvisIntegration Reference.

(** A model output with two architecture blocks, the first of them
    not JSON. *)
Definition twoBlocks : string :=
  q "<architecture>x</architecture><architecture>{'edges':[],'nodes':[]}</architecture>".

(** C3, as stated, fails in two places: a long explanation is not cut
    to 1500 characters, since an ellipsis follows the first 1500; and
    an architecture block whose content is JSON of the right shape is
    not returned when an earlier block is not. *)
Lemma explanation_ellipsis_and_later_block :
  snd (processArchitectureUpdate (H := helloPlatform) (JsString.repeat "a" 1501))
  = JsString.repeat "a" 1500 +:+ "..."
  /\ String.length
       (snd (processArchitectureUpdate (H := helloPlatform) (JsString.repeat "a" 1501)))
     = 1503
  /\ fst (processArchitectureUpdate (H := helloPlatform) twoBlocks) = None
  /\ JSON_parse (Platform := helloPlatform) (q "{'edges':[],'nodes':[]}")
     = Some (JObj [("edges", JArr []); ("nodes", JArr [])])
  /\ architectureShaped (JObj [("edges", JArr []); ("nodes", JArr [])]).
Proof.
  split; [vm_compute; reflexivity|].
  split; [vm_compute; reflexivity|].
  split; [vm_compute; reflexivity|].
  split; [vm_compute; reflexivity|].
  exists [("edges", JArr []); ("nodes", JArr [])], [], []. auto.
Qed.

(** The tag pattern at work: the first block is the one returned. *)
Example processArchitectureUpdate_tagged :
  processArchitectureUpdate (H := helloPlatform)
    (q "<architecture>{'nodes':[],'edges':[]}</architecture><explanation> Added nothing. </explanation>")
  = (Some (JObj [("nodes", JArr []); ("edges", JArr [])]), "Added nothing.").
Proof. vm_compute. reflexivity. Qed.

(** C5 at a greeting answered by the model with [Hello!]. *)
Lemma processJarvisRequest_pipeline_witness :
  processJarvisRequest (H := helloPlatform) 0 "hello" emptyArchitecture None
  = mkResult "Hello!" false None.
Proof.
  destruct (generateAIPrompt (H := helloPlatform) (detectEnhancedIntent "hello" true)
              "hello" emptyArchitecture "typescript") as [aiPrompt|] eqn:Hprompt;
    [|vm_compute in Hprompt; discriminate].
  refine (eq_trans
            (processJarvisRequest_pipeline (H := helloPlatform) 0 "hello"
               emptyArchitecture None aiPrompt "Hello!" _ _ _) _).
  - vm_compute. discriminate.
  - exact Hprompt.
  - reflexivity.
  - vm_compute. reflexivity.
Defined.

End IntegrationExamples.

(* ===================================================================== *)
(** * Further properties of the architecture store and its routes *)
(* ===================================================================== *)

Section StoreOperations.
Import JsString Json Platform ArchitectureStore.
Context `{Platform}.

Lemma readProperty_write_ne store key other architecture :
  key <> "__proto__" -> other <> key ->
  readProperty (writeProperty store key architecture) other
  = readProperty store other.
Proof.
  intros Hkey Hother. unfold readProperty, writeProperty.
  apply String.eqb_neq in Hkey. rewrite Hkey. cbn [own proto].
  rewrite lookup_insert_ne by congruence. reflexivity.
Qed.

Lemma readProperty_delete_ne store key other :
  other <> key ->
  readProperty (deleteProperty store key) other = readProperty store other.
Proof.
  intros Hother. unfold readProperty, deleteProperty. cbn [own proto].
  rewrite lookup_delete_ne by congruence. reflexivity.
Qed.

(** X1. Saving an architecture under an id other than __proto__, and
    deleting the architecture of any id, leave what [getArchitecture]
    returns for every other id as it was. *)
Theorem save_and_delete_keep_other_ids (store : StoreObject) (clock : nat)
  (architectureId other : string) (architecture : Architecture)
  (editedBy : option string) :
  other <> architectureId ->
  (architectureId <> "__proto__" ->
   getArchitecture
     (snd (saveArchitecture store clock architectureId architecture editedBy)) other
   = getArchitecture store other)
  /\ getArchitecture (snd (deleteArchitecture store architectureId)) other
     = getArchitecture store other.
Proof.
  intros Hother. unfold getArchitecture, saveArchitecture, deleteArchitecture.
  destruct (JsString.truthy other); cbn [negb]; [|split; reflexivity].
  destruct (JsString.truthy architectureId); cbn [negb snd]; [|split; reflexivity].
  split.
  - intros Hkey. rewrite readProperty_write_ne by assumption. reflexivity.
  - destruct (isTruthy (readProperty store architectureId)); cbn [snd];
      [|reflexivity].
    rewrite readProperty_delete_ne by assumption. reflexivity.
Qed.

Lemma ordinaryId_not_proto architectureId :
  ordinaryId architectureId -> architectureId <> "__proto__".
Proof.
  intros [Hmember _] ->. apply Hmember. unfold objectPrototypeMembers. set_solver.
Qed.

(** X2. For an ordinary, non-empty id: deleting right after a save
    reports success and the id then reads as null; deleting an id
    under which the store holds nothing reports failure and leaves
    the store as it is. *)
Theorem delete_after_save (store : StoreObject) (clock : nat)
  (architectureId : string) (architecture : Architecture)
  (editedBy : option string) :
  ordinaryId architectureId -> architectureId <> "" ->
  let saved :=
    snd (saveArchitecture store clock architectureId architecture editedBy) in
  fst (deleteArchitecture saved architectureId) = true
  /\ getArchitecture (snd (deleteArchitecture saved architectureId)) architectureId
     = None
  /\ (own store !! architectureId = None ->
      deleteArchitecture store architectureId = (false, store)).
Proof.
  intros Hid Hne. cbn zeta.
  pose proof (ordinaryId_not_proto _ Hid) as Hproto.
  unfold saveArchitecture, deleteArchitecture, getArchitecture.
  rewrite (truthy_nonempty _ Hne). cbn [negb snd].
  set (stored := mkArchitecture _ _ _).
  assert (readProperty (writeProperty store architectureId stored) architectureId
          = Some (anArchitecture stored)) as Hread.
  { unfold readProperty, writeProperty.
    apply String.eqb_neq in Hproto. rewrite Hproto. cbn [own].
    rewrite lookup_insert_eq. reflexivity. }
  rewrite Hread. cbn [isTruthy fst snd].
  split; [reflexivity|]. split.
  - rewrite readProperty_ordinary; [reflexivity | exact Hid |].
    unfold deleteProperty. cbn [own]. apply lookup_delete_eq.
  - intros Hown. rewrite (readProperty_ordinary _ _ Hid Hown). reflexivity.
Qed.

Lemma lookup_field_app k (a b : list (string * json)) :
  lookup_field k (a ++ b)
  = match lookup_field k a with Some v => Some v | None => lookup_field k b end.
Proof.
  induction a as [|[k' v'] a IH]; [reflexivity|].
  cbn [app lookup_field]. destruct (String.eqb k' k); [reflexivity | exact IH].
Qed.

Lemma set_field_fresh k v (fields : list (string * json)) :
  lookup_field k fields = None -> set_field k v fields = fields ++ [(k, v)].
Proof.
  induction fields as [|[k' v'] fields IH]; [reflexivity|].
  cbn [lookup_field set_field app].
  destruct (String.eqb k' k); [discriminate|].
  intros Hnone. rewrite (IH Hnone). reflexivity.
Qed.

Lemma lookup_field_None_fst k (fields : list (string * json)) :
  k ∉ List.map fst fields -> lookup_field k fields = None.
Proof.
  induction fields as [|[k' v'] fields IH]; [reflexivity|].
  cbn [List.map fst lookup_field]. intros Hnot.
  destruct (String.eqb_spec k' k) as [->|_].
  - exfalso. apply Hnot. left.
  - apply IH. intros Hin. apply Hnot. right. exact Hin.
Qed.

(** Spreading an object whose keys are distinct copies it. *)
Lemma spread_copy (fields acc : list (string * json)) :
  NoDup (List.map fst fields) ->
  (forall k, k ∈ List.map fst fields -> lookup_field k acc = None) ->
  spread acc (Some fields) = acc ++ fields.
Proof.
  unfold spread. cbn [default id]. revert acc.
  induction fields as [|[k v] fields IH]; intros acc Hnodup Hfresh.
  - rewrite app_nil_r. reflexivity.
  - cbn [List.map fst] in Hnodup. apply NoDup_cons in Hnodup as [Hk Hnodup].
    cbn [foldl fst snd].
    rewrite set_field_fresh by (apply Hfresh; left).
    rewrite IH; [rewrite <- app_assoc; reflexivity | exact Hnodup |].
    intros k' Hk'. rewrite lookup_field_app.
    rewrite Hfresh by (right; exact Hk').
    cbn [lookup_field]. destruct (String.eqb_spec k k') as [->|_];
      [contradiction | reflexivity].
Qed.

(** X3. A save keeps the metadata of the architecture it is given:
    every field other than the two stamps reads in the saved
    architecture as it does in the input, when the keys of the input
    metadata are distinct. *)
Theorem save_keeps_metadata (store : StoreObject) (clock : nat)
  (architectureId : string) (architecture : Architecture)
  (editedBy : option string) (fields : list (string * json)) (key : string) :
  architectureId <> "" ->
  metadata architecture = Some fields ->
  NoDup (List.map fst fields) ->
  key <> "lastEditedAt" -> key <> "lastEditedBy" ->
  exists saved savedFields,
    fst (saveArchitecture store clock architectureId architecture editedBy)
    = Some saved
    /\ metadata saved = Some savedFields
    /\ lookup_field key savedFields = lookup_field key fields.
Proof.
  intros Hne Hmeta Hnodup Hat Hby. unfold saveArchitecture.
  rewrite (truthy_nonempty _ Hne). cbn [negb fst].
  eexists. eexists. split; [reflexivity|]. split; [reflexivity|].
  rewrite !lookup_set_field_ne by congruence.
  rewrite Hmeta, spread_copy; [reflexivity | exact Hnodup |].
  intros k _. reflexivity.
Qed.

End StoreOperations.

Section StoreListing.
Import JsString Json Platform ArchitectureStore.
Context `{Platform}.

(** X4. The listing follows the saves and the deletes: after a save
    under a non-empty id other than __proto__ the listing holds the
    saved architecture under that id, and its entries for the other
    ids are those of before; after a delete it holds no entry for the
    id deleted; no id is listed twice; and an architecture saved under
    __proto__ is not listed, although [getArchitecture] returns
    it. *)
Theorem listing_follows_saves_and_deletes (store : StoreObject) (clock : nat)
  (architectureId : string) (architecture : Architecture)
  (editedBy : option string) :
  architectureId <> "" -> plainStore store ->
  let saved := saveArchitecture store clock architectureId architecture editedBy in
  let underProto := saveArchitecture store clock "__proto__" architecture editedBy in
  NoDup (List.map fst (getAllArchitectures store))
  /\ (architectureId <> "__proto__" ->
      (exists stored,
          fst saved = Some stored
          /\ (architectureId, stored) ∈ getAllArchitectures (snd saved))
      /\ (forall other listed,
            other <> architectureId ->
            (other, listed) ∈ getAllArchitectures (snd saved)
            <-> (other, listed) ∈ getAllArchitectures store))
  /\ (forall listed,
        (architectureId, listed)
        ∉ getAllArchitectures (snd (deleteArchitecture (snd saved) architectureId)))
  /\ (exists stored,
        fst underProto = Some stored
        /\ getArchitecture (snd underProto) "__proto__" = Some (anArchitecture stored)
        /\ getAllArchitectures (snd underProto) = getAllArchitectures store).
Proof.
  intros Hid Hplain. cbn zeta. unfold getAllArchitectures.
  split; [apply NoDup_fst_map_to_list|]. split; [|split].
  - intros Hproto. unfold saveArchitecture.
    rewrite (truthy_nonempty _ Hid). cbn [negb fst snd].
    unfold writeProperty. apply String.eqb_neq in Hproto. rewrite Hproto.
    cbn [own]. split.
    + eexists. split; [reflexivity|].
      apply elem_of_map_to_list. apply lookup_insert_eq.
    + intros other listed Hother. rewrite !elem_of_map_to_list.
      rewrite lookup_insert_ne by congruence. reflexivity.
  - intros listed Hin. apply elem_of_map_to_list in Hin.
    revert Hin. unfold saveArchitecture, deleteArchitecture.
    rewrite (truthy_nonempty _ Hid). cbn [negb fst snd].
    set (stored := mkArchitecture _ _ _).
    assert (isTruthy (readProperty (writeProperty store architectureId stored)
                        architectureId) = true) as ->.
    { unfold readProperty, writeProperty.
      destruct (String.eqb_spec architectureId "__proto__") as [->|Hne];
        cbn [own proto].
      - destruct (own store !! "__proto__"); reflexivity.
      - rewrite lookup_insert_eq. reflexivity. }
    cbn [snd]. unfold deleteProperty. cbn [own].
    rewrite lookup_delete_eq. discriminate.
  - unfold saveArchitecture. cbn [JsString.truthy negb fst snd].
    eexists. split; [reflexivity|]. split; [|reflexivity].
    unfold getArchitecture, readProperty, writeProperty.
    cbn [JsString.truthy negb String.eqb Ascii.eqb Bool.eqb own proto].
    rewrite Hplain. reflexivity.
Qed.

End StoreListing.

Section RouteFacts.
Import JsString Json Platform ArchitectureStore ArchitectureRoutes.
Context `{Platform}.

(** X5. The route of one architecture answers 400 exactly for an empty
    id, 404 exactly when [getArchitecture] gives null for a non-empty
    id, and 200 otherwise; right after an architecture was saved under
    a non-empty id, it answers 200 with the nodes and the edges saved
    and with the stamped metadata. *)
Theorem GET_architecture_statuses (architectureStore : StoreObject) (id : string) :
  let answer := GET_architecture architectureStore id in
  (status answer = 400 <-> id = "")
  /\ (status answer = 404 <-> id <> "" /\ getArchitecture architectureStore id = None)
  /\ (status answer = 200 <-> id <> "" /\ getArchitecture architectureStore id <> None)
  /\ (forall clock architecture editedBy,
        id <> "" -> plainStore architectureStore ->
        exists fields,
          GET_architecture
            (snd (saveArchitecture architectureStore clock id architecture editedBy)) id
          = mkResponse 200 []
              (Some (JObj [ ("nodes", JArr (nodes architecture));
                            ("edges", JArr (edges architecture));
                            ("metadata", JObj fields) ]))
          /\ lookup_field "lastEditedBy" fields
             = Some (JStr (default "system" editedBy))).
Proof.
  cbn zeta. split; [|split; [|split]].
  - unfold GET_architecture.
    destruct id as [|c id]; cbn [JsString.truthy negb];
      [|destruct (getArchitecture _ _)];
      cbn [status messageResponse jsonResponse];
      intuition (try discriminate; try congruence).
  - unfold GET_architecture.
    destruct id as [|c id]; cbn [JsString.truthy negb];
      [|destruct (getArchitecture _ _)];
      cbn [status messageResponse jsonResponse];
      intuition (try discriminate; try congruence).
  - unfold GET_architecture.
    destruct id as [|c id]; cbn [JsString.truthy negb];
      [|destruct (getArchitecture _ _)];
      cbn [status messageResponse jsonResponse];
      intuition (try discriminate; try congruence).
  - intros clock architecture editedBy Hid Hplain.
    destruct (save_then_get architectureStore clock id architecture editedBy
                Hid Hplain)
      as [(saved & fields & Hsave & Hget & Hnodes & Hedges & Hmeta & Hby & _) _].
    exists fields. rewrite Hsave. cbn [snd]. unfold GET_architecture.
    rewrite (truthy_nonempty _ Hid), Hget. cbn [negb propertyOf fieldOf String.eqb].
    cbn. rewrite Hnodes, Hedges, Hmeta. split; [reflexivity | exact Hby].
Qed.

Lemma fileExtensionOf_known language :
  fileExtensionOf language ∈ ["ts"; "js"; "py"; "java"; "cs"].
Proof.
  unfold fileExtensionOf. destruct language as [[| | |l| |]|]; try set_solver.
  repeat (destruct (String.eqb l _); [set_solver|]). set_solver.
Qed.

(** X6. The download route answers with the CDK code stored in the
    metadata of the architecture, as a text file whose name ends in
    the extension of the stored language: js, py, java or cs, and ts
    for typescript, for any other language and for none; it answers
    404 when the metadata holds no code. *)
Theorem download_returns_the_stored_code (architectureStore : StoreObject)
  (id : string) (architecture : Architecture) :
  id <> "" ->
  own architectureStore !! id = Some architecture ->
  let cdkCode :=
    match metadata architecture with
    | Some fields => lookup_field "cdkCode" fields
    | None => None
    end in
  let cdkLanguage :=
    match metadata architecture with
    | Some fields => lookup_field "cdkLanguage" fields
    | None => None
    end in
  let answer := GET_downloadCdk architectureStore id in
  (Json.truthy cdkCode = false -> status answer = 404)
  /\ (Json.truthy cdkCode = true ->
      exists fileExtension,
        answer
        = mkResponse 200
            [ ("Content-Type", "text/plain");
              ("Content-Disposition",
               "attachment; filename=" +:+ dq +:+ "architecture-" +:+ id
               +:+ "." +:+ fileExtension +:+ dq) ]
            cdkCode
        /\ fileExtension ∈ ["ts"; "js"; "py"; "java"; "cs"]
        /\ (cdkLanguage = Some (JStr "javascript") -> fileExtension = "js")
        /\ (cdkLanguage = Some (JStr "python") -> fileExtension = "py")
        /\ (cdkLanguage = Some (JStr "java") -> fileExtension = "java")
        /\ (cdkLanguage = Some (JStr "csharp") -> fileExtension = "cs")
        /\ (cdkLanguage = None -> fileExtension = "ts")).
Proof.
  intros Hid Hown. cbn zeta. unfold GET_downloadCdk, readProperty.
  rewrite (truthy_nonempty _ Hid), Hown. cbn [negb isTruthy propertyOf].
  unfold fieldOf. cbn [String.eqb Ascii.eqb Bool.eqb].
  destruct (metadata architecture) as [fields|];
    cbn [optMember member default Datatypes.id].
  - destruct (Json.truthy (lookup_field "cdkCode" fields)) eqn:Hcode; cbn [negb].
    + split; [intros Hf; discriminate Hf|]. intros _.
      eexists. split; [reflexivity|]. split; [apply fileExtensionOf_known|].
      repeat split; intros ->; reflexivity.
    + split; [reflexivity | intros Hf; discriminate Hf].
  - cbn. split; [reflexivity | intros Hf; discriminate Hf].
Qed.

End RouteFacts.

(* ===================================================================== *)
(** * Further properties of the orchestrator *)
(* ===================================================================== *)

Section SessionOperations.
Import JsString Json Platform IntentDetection JarvisIntegration JarvisOrchestrator.
Context `{Platform}.

(** X7. [clearConversationSession] returns true exactly when the
    session table yields something under the id: a session stored
    there, or, the table being an object literal, the member of
    Object.prototype that the id names. Afterwards no session is
    stored under the id and the sessions of the other ids are
    untouched; the analytics of the id are then those of a
    conversation without session when the id names no member of
    Object.prototype, and throw when it names one. *)
Theorem clear_removes_the_session (architectureId : string) (g : Globals) :
  let cleared := fst (clearConversationSession architectureId g) in
  let g' := snd (clearConversationSession architectureId g) in
  (cleared = true <->
   is_Some (activeSessions g !! architectureId)
   \/ architectureId ∈ objectPrototypeMembers)
  /\ activeSessions g' !! architectureId = None
  /\ (forall other, other <> architectureId ->
        activeSessions g' !! other = activeSessions g !! other)
  /\ (architectureId ∉ objectPrototypeMembers ->
      fst (getConversationAnalytics architectureId g')
      = Normal (None, None, 0, false))
  /\ (architectureId ∈ objectPrototypeMembers ->
      fst (getConversationAnalytics architectureId g') = Throw).
Proof.
  cbn zeta.
  assert (activeSessions (snd (clearConversationSession architectureId g))
          !! architectureId = None) as Hgone
    by (rewrite clearConversationSession_sessions; apply lookup_delete_eq).
  split; [|split; [exact Hgone|split; [|split]]].
  - unfold clearConversationSession, getSessions, deleteSession, readSession.
    unfold mbind, M_bind, mret, M_ret.
    destruct (activeSessions g !! architectureId) as [session|] eqn:Hs;
      cbn [fst].
    + split; [intros _; left; eauto | reflexivity].
    + destruct (bool_decide_reflect (architectureId ∈ objectPrototypeMembers))
        as [Hkey|Hkey]; cbn [fst].
      * split; [intros _; right; exact Hkey | reflexivity].
      * split; [discriminate|]. intros [[? Hf]|Hf]; [discriminate Hf | contradiction].
  - intros other Hne. rewrite clearConversationSession_sessions.
    apply lookup_delete_ne. congruence.
  - intros Hkey. unfold getConversationAnalytics, getSessions.
    unfold mbind, M_bind, mret, M_ret.
    rewrite (readSession_absent _ _ Hgone Hkey). reflexivity.
  - intros Hkey. unfold getConversationAnalytics, getSessions.
    unfold mbind, M_bind, mret, M_ret.
    rewrite (readSession_inherited _ _ Hgone Hkey). reflexivity.
Qed.

(** The number of history entries with a given intent. *)
Definition occurrences (intent : Intent) (history : list IntentEntry) : nat :=
  List.length (List.filter (fun e => bool_decide (entryIntent e = intent)) history).

Lemma occurrences_positive intent history :
  intent ∈ List.map entryIntent history -> 1 <= occurrences intent history.
Proof.
  unfold occurrences. induction history as [|e history IH]; cbn [List.map List.filter].
  - intros Hin. inversion Hin.
  - intros Hin. destruct (bool_decide_reflect (entryIntent e = intent)) as [Heq|Hne].
    + cbn. lia.
    + apply IH. inversion Hin; subst; [contradiction | assumption].
Qed.

(** X8. The analytics of a conversation with a session: the session
    itself, its message count, and an intent distribution that lists
    each intent of the history once, with the number of history
    entries that have it, and no other intent. *)
Theorem analytics_count_the_history (architectureId : string) (g : Globals)
  (session : ConversationSession) :
  activeSessions g !! architectureId = Some session ->
  exists distribution,
    getConversationAnalytics architectureId g
    = (Normal (Some session, Some distribution, messageCount session, true), g)
    /\ NoDup (List.map fst distribution)
    /\ (forall intent n,
          (intent, n) ∈ distribution ->
          n = occurrences intent (intents session) /\ 1 <= n)
    /\ (forall entry,
          entry ∈ intents session ->
          (entryIntent entry, occurrences (entryIntent entry) (intents session))
          ∈ distribution).
Proof.
  intros Hs. unfold getConversationAnalytics, getSessions, mbind, M_bind, mret, M_ret.
  rewrite (readSession_stored _ _ _ Hs). eexists. split; [reflexivity|].
  split; [|split].
  - rewrite List.map_map. cbn [fst]. rewrite List.map_id. apply NoDup_remove_dups.
  - intros intent n Hin. apply list_elem_of_fmap in Hin as (i & Heq & Hi).
    injection Heq as -> ->. split; [reflexivity|].
    apply occurrences_positive. exact (proj1 (elem_of_remove_dups _ _) Hi).
  - intros entry Hentry.
    apply (list_elem_of_fmap_2 (fun i => (i, occurrences i (intents session)))).
    apply elem_of_remove_dups. apply list_elem_of_fmap_2. exact Hentry.
Qed.

End SessionOperations.

Section SessionCreation.
Import JsString Json Platform IntentDetection JarvisIntegration JarvisOrchestrator.
Context `{Platform}.

(** X9. [getOrCreateSession] returns what the session table yields
    under the id and then changes nothing: the stored session, or,
    when none is stored and the id names a member of Object.prototype,
    that member. Only when the table yields nothing does it create a
    session: one without messages and without history, stored under
    the id. In every case a second call returns what the first
    returned and changes nothing, and the sessions of the other ids
    are never touched. *)
Theorem getOrCreateSession_creates_once (architectureId : string) (g : Globals) :
  let found := fst (getOrCreateSession architectureId g) in
  let g' := snd (getOrCreateSession architectureId g) in
  readSession (activeSessions g') architectureId = Some found
  /\ getOrCreateSession architectureId g' = (found, g')
  /\ (forall stored,
        activeSessions g !! architectureId = Some stored ->
        found = aSession stored /\ g' = g)
  /\ (inheritsMember g architectureId ->
      found = anInherited architectureId /\ g' = g)
  /\ (activeSessions g !! architectureId = None ->
      architectureId ∉ objectPrototypeMembers ->
      exists session,
        found = aSession session
        /\ activeSessions g' !! architectureId = Some session
        /\ id session = architectureId /\ messageCount session = 0
        /\ intents session = [] /\ messages session = None)
  /\ (forall other,
        other <> architectureId ->
        activeSessions g' !! other = activeSessions g !! other).
Proof.
  cbn zeta.
  destruct (activeSessions g !! architectureId) as [stored|] eqn:Hs.
  - rewrite (getOrCreateSession_stored _ _ _ Hs). cbn [fst snd].
    rewrite (getOrCreateSession_stored _ _ _ Hs).
    split; [apply readSession_stored, Hs|]. split; [reflexivity|].
    split; [intros ? [= <-]; split; reflexivity|].
    split; [intros [Hf _]; congruence|].
    split; [intros Hf; discriminate Hf | reflexivity].
  - destruct (decide (architectureId ∈ objectPrototypeMembers)) as [Hkey|Hkey].
    + rewrite (getOrCreateSession_inherited _ _ (conj Hs Hkey)). cbn [fst snd].
      rewrite (getOrCreateSession_inherited _ _ (conj Hs Hkey)).
      split; [apply readSession_inherited; assumption|]. split; [reflexivity|].
      split; [intros ? Hf; discriminate Hf|].
      split; [intros _; split; reflexivity|].
      split; [intros _ Hf; contradiction | reflexivity].
    + rewrite (getOrCreateSession_fresh _ _ Hs Hkey). cbn [fst snd].
      assert (<[architectureId := freshSession architectureId (clock g)]>
                (activeSessions g) !! architectureId
              = Some (freshSession architectureId (clock g))) as Hstored
        by apply lookup_insert_eq.
      split; [apply readSession_stored; exact Hstored|].
      split; [apply getOrCreateSession_stored; exact Hstored|].
      split; [intros ? Hf; discriminate Hf|].
      split; [intros [_ Hf]; contradiction|].
      split.
      * intros _ _. eexists. split; [reflexivity|]. split; [exact Hstored|].
        repeat split; reflexivity.
      * intros other Hne. cbn [activeSessions]. apply lookup_insert_ne. congruence.
Qed.

End SessionCreation.

Section SessionInvariant.
Import JsString Json Platform IntentDetection JarvisIntegration JarvisOrchestrator.
Context `{Platform}.

(** The number of messages a session stores. *)
Definition storedMessages (session : ConversationSession) : nat :=
  match messages session with
  | Some msgs => List.length msgs
  | None => 0
  end.

(** Every session is stored under its own id, and its message count
    is the number of messages it stores. *)
Definition consistentSessions (sessions : gmap string ConversationSession) : Prop :=
  forall key session,
    sessions !! key = Some session ->
    id session = key /\ messageCount session = storedMessages session.

Lemma consistentSessions_insert sessions key session :
  consistentSessions sessions ->
  id session = key -> messageCount session = storedMessages session ->
  consistentSessions (<[key := session]> sessions).
Proof.
  intros Hc Hid Hcount key' session' Hlook.
  destruct (decide (key = key')) as [->|Hne].
  - rewrite lookup_insert_eq in Hlook. injection Hlook as <-. auto.
  - rewrite lookup_insert_ne in Hlook by exact Hne. eapply Hc, Hlook.
Qed.

Lemma getOrCreateSession_consistent architectureId g :
  consistentSessions (activeSessions g) ->
  consistentSessions (activeSessions (snd (getOrCreateSession architectureId g))).
Proof.
  intros Hc.
  destruct (getOrCreateSession_sessions architectureId g)
    as [-> | (fresh & _ & Hid & Hcount & _ & Hmessages & ->)]; [exact Hc|].
  apply consistentSessions_insert; [exact Hc | exact Hid |].
  unfold storedMessages. rewrite Hcount, Hmessages. reflexivity.
Qed.

Lemma updatedSession_consistent session update t key :
  id session = key -> messageCount session = storedMessages session ->
  id (updatedSession session update t) = key
  /\ messageCount (updatedSession session update t)
     = storedMessages (updatedSession session update t).
Proof.
  intros Hid Hcount. unfold updatedSession, storedMessages in *.
  destruct (upd_messages update), (upd_intent update);
    cbn [id messageCount messages]; auto.
Qed.

Lemma updateSession_consistent sessionId update g :
  consistentSessions (activeSessions g) ->
  consistentSessions (activeSessions (snd (updateSession sessionId update g))).
Proof.
  intros Hc.
  destruct (activeSessions g !! sessionId) as [session|] eqn:Hs.
  - rewrite (updateSession_stored _ _ _ _ Hs). cbn [snd activeSessions].
    destruct (Hc _ _ Hs) as [Hid Hcount].
    destruct (updatedSession_consistent session update (clock g) sessionId Hid Hcount).
    apply consistentSessions_insert; assumption.
  - destruct (decide (sessionId ∈ objectPrototypeMembers)) as [Hkey|Hkey].
    + destruct (updateSession_inherited sessionId update g (conj Hs Hkey))
        as (-> & _). exact Hc.
    + rewrite (updateSession_fresh _ _ _ Hs Hkey). cbn [snd activeSessions].
      destruct (updatedSession_consistent (freshSession sessionId (clock g)) update
                  (S (clock g)) sessionId eq_refl eq_refl).
      apply consistentSessions_insert; assumption.
Qed.

Lemma sessionStep_consistent g g' :
  sessionStep g g' -> consistentSessions (activeSessions g) ->
  consistentSessions (activeSessions g').
Proof.
  intros Hstep Hc. destruct Hstep.
  - apply getOrCreateSession_consistent, Hc.
  - apply updateSession_consistent, Hc.
  - rewrite orchestrate_sessions_after. apply updateSession_consistent.
    unfold beforeUpdate. rewrite !keeps_performanceNow.
    apply getOrCreateSession_consistent. rewrite keeps_performanceNow. exact Hc.
  - rewrite keeps_getConversationAnalytics. exact Hc.
  - rewrite clearConversationSession_sessions.
    intros key session Hlook.
    apply lookup_delete_Some in Hlook as [_ Hlook]. eapply Hc, Hlook.
Qed.

(** X10. In every state the module can reach from the empty session
    table, each session is stored under its own id, and its message
    count is the number of messages it stores (0 when it stores
    none); the analytics of a conversation with a session report that
    number. *)
Theorem sessions_stay_consistent (g : Globals) :
  reachable g ->
  consistentSessions (activeSessions g)
  /\ forall architectureId session,
       activeSessions g !! architectureId = Some session ->
       exists distribution,
         fst (getConversationAnalytics architectureId g)
         = Normal (Some session, distribution, storedMessages session, true).
Proof.
  intros [clock0 Hrtc].
  assert (consistentSessions (activeSessions g)) as Hc.
  { revert g Hrtc.
    apply (rtc_ind_r (R := sessionStep)
             (fun g => consistentSessions (activeSessions g))).
    - intros key session Hlook. cbn in Hlook. rewrite lookup_empty in Hlook.
      discriminate.
    - intros y z _ Hstep Hy. eapply sessionStep_consistent; eassumption. }
  split; [exact Hc|].
  intros architectureId session Hs.
  unfold getConversationAnalytics, getSessions, mbind, M_bind, mret, M_ret.
  rewrite (readSession_stored _ _ _ Hs). cbn [fst].
  rewrite (proj2 (Hc _ _ Hs)). eexists. reflexivity.
Qed.

End SessionInvariant.

Section FollowupFacts.
Import JsString Json Platform IntentDetection JarvisIntegration JarvisOrchestrator.
Context `{Platform}.

Lemma insert_Permutation {A} (l : list A) j a b :
  l !! j = Some b -> <[j := a]> l ≡ₚ a :: delete j l.
Proof.
  revert j. induction l as [|x l IH]; intros [|j] Hj; try discriminate.
  - reflexivity.
  - cbn in Hj. cbn. rewrite (IH j Hj). apply Permutation_swap.
Qed.

(** Exchanging two elements of a list permutes it. *)
Lemma swap_Permutation {A} (i j : nat) (xs : list A) : swap i j xs ≡ₚ xs.
Proof.
  unfold swap.
  destruct (xs !! i) as [a|] eqn:Hi; [|reflexivity].
  destruct (xs !! j) as [b|] eqn:Hj; [|reflexivity].
  destruct (decide (i = j)) as [->|Hne].
  - rewrite Hi in Hj. injection Hj as <-.
    rewrite (list_insert_id xs j a Hi). rewrite (list_insert_id xs j a Hi).
    reflexivity.
  - assert (<[j := a]> xs !! i = Some a) as Hi'
      by (rewrite list_lookup_insert_ne by congruence; exact Hi).
    rewrite (insert_Permutation _ i b a Hi').
    rewrite (delete_Permutation xs j b Hj) at 2.
    apply Permutation_skip.
    apply (Permutation_cons_inv (a := a)).
    rewrite <- (delete_Permutation _ i a Hi').
    apply insert_Permutation with b. exact Hj.
Qed.

Lemma shuffleFrom_Permutation {A} (i : nat) : forall (xs : list A) (g : Globals),
  fst (shuffleFrom i xs g) ≡ₚ xs.
Proof.
  induction i as [|i IH]; intros xs g; [reflexivity|].
  cbn [shuffleFrom]. unfold mathRandom, tick, mbind, M_bind, mret, M_ret.
  cbn [fst snd]. rewrite IH. apply swap_Permutation.
Qed.

(** The random numbers are taken in the range of Math.random. *)
Definition unitRandom : Prop :=
  forall t, (0 <= Math_random t)%Q /\ (Math_random t < 1)%Q.

(** X11. [shuffleArray] returns a rearrangement of the array it is
    given: the same elements, each as often as before. *)
Theorem shuffleArray_permutes {A} (array : list A) (g : Globals) :
  unitRandom ->
  fst (shuffleArray array g) ≡ₚ array
  /\ List.length (fst (shuffleArray array g)) = List.length array.
Proof.
  intros _. unfold shuffleArray.
  pose proof (shuffleFrom_Permutation (List.length array - 1) array g) as Hperm.
  split; [exact Hperm | apply Permutation_length, Hperm].
Qed.

Lemma intentSuggestions_NoDup intent : NoDup (intentSuggestions intent).
Proof. destruct intent; cbn; apply NoDup_ListNoDup; repeat constructor; cbn; intuition discriminate. Qed.



Lemma suggestUnless_sublist present suggestion :
  suggestUnless present suggestion `sublist_of` [suggestion].
Proof. destruct present; cbn; [apply sublist_nil_l | reflexivity]. Qed.




End FollowupFacts.

Section ConversationFacts.
Import JsString Regex Json Platform IntentDetection ContextManager
       PromptTemplates ResponseFormatter CohereChat JarvisIntegration
       JarvisOrchestrator.
Context `{Platform}.

(** X13. For the intents greeting and general_chat the prompt is built
    without the architecture: it is the system prompt of the intent
    followed by the message of the user, whatever the architecture
    and the target language, and building it never fails. *)
Theorem chat_prompt_ignores_the_architecture (intent : EnhancedIntentMatch)
  (message : string) (architecture : Architecture) (targetLanguage : string) :
  intentType intent = greeting \/ intentType intent = general_chat ->
  generateAIPrompt intent message architecture targetLanguage
  = Some (systemPrompt (getPromptTemplateForIntent (intentType intent))
          +:+ nl +:+ nl +:+ "USER MESSAGE: " +:+ message).
Proof.
  unfold generateAIPrompt. intros [-> | ->]; reflexivity.
Qed.

Lemma sessionKey_beforeUpdate architectureId g :
  sessionKey g architectureId -> sessionKey (beforeUpdate architectureId g) architectureId.
Proof.
  intros Hkey. left.
  destruct (activeSessions g !! architectureId) as [session|] eqn:Hs.
  - rewrite (beforeUpdate_stored _ _ _ Hs). cbn [activeSessions]. eauto.
  - destruct Hkey as [[? Hf]|Hkey]; [congruence|].
    rewrite (beforeUpdate_fresh _ _ Hs Hkey). cbn [activeSessions].
    rewrite lookup_insert_eq. eauto.
Qed.

(** X14. The orchestrator hands on what the integration layer
    answers. Under an id that reads in the session table as a session
    or as nothing: when the follow-up suggestions can be computed, the
    response, the update flag and the updated architecture are those
    of [processJarvisRequest] for the same message and architecture,
    and the metadata carries the detected intent, its sub-type and its
    confidence; when they cannot (the service of a node cannot be
    read), the answer is the fallback, with no update, the intent
    general_chat and confidence 0. Under an id that reads as a member
    of Object.prototype the integration layer is not reached: the
    answer is that same fallback. *)
Theorem orchestrator_hands_on_the_answer (message architectureId : string)
  (architecture : Architecture) (messageHistory : option (list json))
  (g : Globals) :
  let answer :=
    fst (orchestrateJarvisRequest message architectureId architecture
           messageHistory g) in
  let detected := detectEnhancedIntent message true in
  (sessionKey g architectureId ->
   (architectureSuggestions architecture <> None ->
    exists clock result followups metrics,
      result = processJarvisRequest clock message architecture messageHistory
      /\ answer
         = mkEnhancedResponse (response result) (architectureUpdated result)
             (updatedArchitecture result)
             (Some (mkMetadata (intentType detected) (subType detected)
                      (confidence detected) (Some metrics) (Some followups))))
   /\ (architectureSuggestions architecture = None ->
       exists metrics,
         answer
         = mkEnhancedResponse fallbackResponse false None
             (Some (mkMetadata general_chat None 0 (Some metrics) None))))
  /\ (inheritsMember g architectureId ->
      exists metrics,
        answer
        = mkEnhancedResponse fallbackResponse false None
            (Some (mkMetadata general_chat None 0 (Some metrics) None))).
Proof.
  cbn zeta. split.
  - intros Hkey.
    destruct (updateSession_sessions architectureId (intentUpdate message)
                (beforeUpdate architectureId g)
                (sessionKey_beforeUpdate _ _ Hkey)) as [Hnormal _].
    unfold orchestrateJarvisRequest. rewrite !bind_run.
    fold (beforeUpdate architectureId g). fold (intentUpdate message).
    rewrite Hnormal. rewrite !bind_run.
    unfold generateFollowupSuggestions.
    destruct (architectureSuggestions architecture) as [extra|] eqn:Hextra.
    + split; [|intros Hf; discriminate Hf]. intros _.
      rewrite !bind_run. unfold mret, M_ret. cbn [fst].
      eexists. eexists. eexists. eexists. split; reflexivity.
    + split; [intros Hf; congruence|]. intros _.
      unfold mret, M_ret. cbn [fst]. eexists. reflexivity.
  - intros Hkey.
    exact (proj2 (orchestrate_inherited message architectureId architecture
                    messageHistory g Hkey)).
Qed.

End ConversationFacts.

(* ===================================================================== *)
(** * Further properties of the integration layer *)
(* ===================================================================== *)

Section PipelineFacts.
Import JsString Regex Json Platform IntentDetection ContextManager
       PromptTemplates ResponseFormatter CohereChat JarvisIntegration.
Context `{Platform}.

Lemma tryPatterns_shaped patterns rawResponse parsed :
  tryPatterns patterns rawResponse None = Some parsed -> architectureShaped parsed.
Proof.
  intros Hsome. pose proof (tryPatterns_first_yield patterns rawResponse) as Hloop.
  rewrite Hsome in Hloop.
  destruct Hloop as (_ & pattern & _ & _ & _ & (text & _ & _ & Hshape)).
  exact Hshape.
Qed.

(** X15. The request handler reports an updated architecture only for
    the intent architecture_update, and then the architecture is the
    one that [processArchitectureUpdate] extracts from the reply of
    the model to the prompt of the request, an object whose nodes and
    edges are arrays; whenever it reports none, it carries no
    architecture. *)
Theorem architecture_replaced_only_by_wellformed (clock : nat) (message : string)
  (architecture : Architecture) (messageHistory : option (list json)) :
  let result := processJarvisRequest clock message architecture messageHistory in
  let enhancedIntent := detectEnhancedIntent message true in
  let targetLanguage :=
    languageOr (detectProgrammingLanguage message) "typescript" in
  (architectureUpdated result = true ->
   intentType enhancedIntent = architecture_update
   /\ exists aiPrompt rawResponse parsed,
        generateAIPrompt enhancedIntent message architecture targetLanguage
        = Some aiPrompt
        /\ generateCohereChatCompletion clock
             (completionOptions enhancedIntent message aiPrompt)
           = inr rawResponse
        /\ fst (processArchitectureUpdate rawResponse) = Some parsed
        /\ updatedArchitecture result = Some parsed
        /\ architectureShaped parsed)
  /\ (architectureUpdated result = false -> updatedArchitecture result = None).
Proof.
  cbn zeta. unfold processJarvisRequest, runPipeline.
  destruct (generateAIPrompt _ _ _ _) as [aiPrompt|];
    cbn [mbind option_bind]; [|split; [discriminate | reflexivity]].
  destruct (generateCohereChatCompletion _ _) as [error|rawResponse] eqn:Hchat;
    [split; [discriminate | reflexivity]|].
  destruct (bool_decide_reflect
              (intentType (detectEnhancedIntent message true) = architecture_update))
    as [Hintent|Hintent]; [|split; [discriminate | reflexivity]].
  destruct (processArchitectureUpdate rawResponse) as [parsedArchitecture explanation]
    eqn:Hupdate.
  destruct parsedArchitecture as [parsed|]; [|split; [discriminate | reflexivity]].
  destruct (_ && _ && _); cbn [architectureUpdated updatedArchitecture];
    [|split; [discriminate | reflexivity]].
  split; [|discriminate].
  intros _. split; [exact Hintent|].
  exists aiPrompt, rawResponse, parsed. rewrite Hupdate.
  split; [reflexivity|]. split; [exact Hchat|]. split; [reflexivity|].
  split; [reflexivity|].
  apply (tryPatterns_shaped architecturePatterns rawResponse).
  unfold processArchitectureUpdate in Hupdate. injection Hupdate as Hparsed _.
  exact Hparsed.
Qed.

(** X16. [detectEnhancedIntent] keeps the intent of [inferIntent]; it
    sets a sub-type, entities or a trigger only for the intent
    architecture_update, the sub-type being one of the four of the
    table; and the confidence lies between 0.15 and 0.9. *)
Theorem detectEnhancedIntent_shape (message : string) (hasArchitecture : bool) :
  let enhanced := detectEnhancedIntent message hasArchitecture in
  intentType enhanced = inferIntent message hasArchitecture
  /\ (intentType enhanced <> architecture_update ->
      subType enhanced = None /\ entities enhanced = None /\ trigger enhanced = None)
  /\ (forall sub, subType enhanced = Some sub ->
        sub ∈ ["add_service"; "remove_service"; "connect_services"; "edit_service"])
  /\ (0.15 <= confidence enhanced)%Q
  /\ (confidence enhanced <= 0.9)%Q.
Proof.
  cbn zeta. unfold detectEnhancedIntent.
  set (primary := inferIntent message hasArchitecture).
  set (base := mkEnhanced primary 0.9%Q None None None).
  assert (forall e, intentType e = primary -> confidence e = 0.9%Q ->
            let a := adjustIntentConfidence e message in
            intentType a = primary /\ subType a = subType e
            /\ entities a = entities e /\ trigger a = trigger e
            /\ (0.15 <= confidence a)%Q /\ (confidence a <= 0.9)%Q) as Hadjust.
  { intros e Hi Hc. unfold adjustIntentConfidence. cbn zeta.
    cbn [intentType subType entities trigger confidence]. rewrite Hc, Hi.
    split; [reflexivity|]. split; [reflexivity|]. split; [reflexivity|].
    split; [reflexivity|].
    destruct (includes message "?" && _);
      destruct ((includes message "code" || _ || _) && _ && _);
      destruct (includes (toLowerCase message) "cdk" && _);
      destruct (bool_decide (primary = architecture_update) && _);
      split; vm_compute; discriminate. }
  destruct (bool_decide_reflect (primary = architecture_update)) as [Hupd|Hupd].
  - destruct (firstArchitectureIntent architectureIntents message)
      as [[found m]|] eqn:Hfound.
    + match goal with
      | |- context [adjustIntentConfidence ?e message] =>
          destruct (Hadjust e eq_refl eq_refl) as (Hi & Hs & He & Ht & Hlo & Hhi)
      end.
      split; [exact Hi|]. split; [rewrite Hi; contradiction|].
      split; [|split; assumption].
      intros sub. rewrite Hs. cbn [subType]. intros [= <-].
      clear -Hfound. revert Hfound. unfold architectureIntents.
      cbn [firstArchitectureIntent].
      repeat (destruct (exec _ message);
              [intros [= <- _]; cbn [ai_subType]; set_solver|]).
      discriminate.
    + destruct (Hadjust base eq_refl eq_refl) as (Hi & Hs & He & Ht & Hlo & Hhi).
      split; [exact Hi|]. split; [auto|]. split; [|split; assumption].
      intros sub. rewrite Hs. discriminate.
  - destruct (Hadjust base eq_refl eq_refl) as (Hi & Hs & He & Ht & Hlo & Hhi).
    split; [exact Hi|]. split; [auto|]. split; [|split; assumption].
    intros sub. rewrite Hs. discriminate.
Qed.

End PipelineFacts.

Section PromptFacts.
Import JsString Regex Json Platform IntentDetection ContextManager
       PromptTemplates ResponseFormatter CohereChat JarvisIntegration.
Context `{Platform}.

(** [t] occurs in [s]. *)
Definition contains (s t : string) : Prop :=
  exists before after, s = before +:+ t +:+ after.

Lemma append_nil_r (s : string) : s +:+ "" = s.
Proof.
  induction s as [|c s IH]; [reflexivity|].
  change (String c s +:+ "") with (String c (s +:+ "")). rewrite IH. reflexivity.
Qed.

Lemma contains_refl s : contains s s.
Proof. exists "", "". change ("" +:+ s +:+ "") with (s +:+ ""). rewrite append_nil_r. reflexivity. Qed.

Lemma contains_app_l a b t : contains a t -> contains (a +:+ b) t.
Proof.
  intros (before & after & ->). exists before, (after +:+ b).
  rewrite !append_assoc. reflexivity.
Qed.

Lemma contains_app_r a b t : contains b t -> contains (a +:+ b) t.
Proof.
  intros (before & after & ->). exists (a +:+ before), after.
  rewrite !append_assoc. reflexivity.
Qed.

Lemma contains_join_here sep x l t :
  contains x t -> contains (join sep (x :: l)) t.
Proof.
  intros Hx. unfold join. destruct l as [|y l]; cbn [String.concat]; [exact Hx|].
  apply contains_app_l, Hx.
Qed.

Lemma contains_join_later sep x l t :
  contains (join sep l) t -> contains (join sep (x :: l)) t.
Proof.
  intros Hl. unfold join in *. destruct l as [|y l].
  - cbn [String.concat] in Hl. destruct Hl as (before & after & Heq).
    destruct before; [|discriminate]. destruct t; [|discriminate].
    exists x, "". change ("" +:+ "") with "". rewrite append_nil_r. reflexivity.
  - cbn [String.concat]. apply contains_app_r, contains_app_r, Hl.
Qed.


Ltac occurs :=
  first [ apply contains_refl
        | apply contains_app_l; occurs
        | apply contains_app_r; occurs
        | apply contains_join_here; occurs
        | apply contains_join_later; occurs ].

(** [formatUserMessage] keeps the message as it is, between a
    prefix and a suffix that depend on the intent only. *)
Lemma formatUserMessage_wraps (intent : Intent) :
  exists prefix suffix,
    forall userMessage,
      formatUserMessage intent userMessage = prefix +:+ userMessage +:+ suffix.
Proof.
  unfold formatUserMessage, getPromptTemplateForIntent.
  destruct (userPromptPrefix (promptTemplates intent)) as [prefix|];
    destruct (userPromptSuffix (promptTemplates intent)) as [suffix|].
  - exists (if JsString.truthy prefix then prefix else ""),
      (if JsString.truthy suffix then suffix else "").
    intros userMessage.
    destruct (JsString.truthy prefix), (JsString.truthy suffix);
      rewrite ?append_nil_r, ?append_assoc; reflexivity.
  - exists (if JsString.truthy prefix then prefix else ""), "".
    intros userMessage.
    destruct (JsString.truthy prefix); rewrite ?append_nil_r; reflexivity.
  - exists "", (if JsString.truthy suffix then suffix else "").
    intros userMessage.
    destruct (JsString.truthy suffix); rewrite ?append_nil_r; reflexivity.
  - exists "", "". intros userMessage. rewrite append_nil_r. reflexivity.
Qed.

Lemma formatUserMessage_contains intent userMessage :
  contains (formatUserMessage intent userMessage) userMessage.
Proof.
  destruct (formatUserMessage_wraps intent) as (prefix & suffix & Heq).
  exists prefix, suffix. apply Heq.
Qed.

(** X17. Every prompt that [generateAIPrompt] builds contains the
    message of the user as it is; the prompts for cdk_generation and
    code_generation name the target language; the prompts for
    architecture_update and architecture_rationale contain the JSON
    serialization of the nodes and of the edges. *)
Theorem prompt_contains_the_message (intent : EnhancedIntentMatch)
  (message : string) (architecture : Architecture) (targetLanguage prompt : string) :
  generateAIPrompt intent message architecture targetLanguage = Some prompt ->
  contains prompt message
  /\ (intentType intent = cdk_generation \/ intentType intent = code_generation ->
      contains prompt targetLanguage)
  /\ (intentType intent = architecture_update
      \/ intentType intent = architecture_rationale ->
      contains prompt (JSON_stringify (JArr (nodes architecture)))
      /\ contains prompt (JSON_stringify (JArr (edges architecture)))).
Proof.
  unfold generateAIPrompt.
  destruct (generateContextString architecture _) as [contextString|];
    cbn [mbind option_bind]; [|intros Hf; discriminate Hf].
  pose proof (formatUserMessage_contains (intentType intent) message) as Hmsg.
  destruct (intentType intent) eqn:Hintent;
    try (destruct (servicesSummaryOf architecture) as [servicesSummary|];
         cbn [mbind option_bind]; [|intros Hf; discriminate Hf]);
    intros [= <-]; unfold lines;
    (split; [try occurs; do 4 apply contains_app_r; exact Hmsg|]);
    (split; [intros [Hi|Hi]; try discriminate Hi; occurs|]);
    (intros [Hi|Hi]; try discriminate Hi; split; occurs).
Qed.

End PromptFacts.

(* ===================================================================== *)
(** * Further properties of the response formatter *)
(* ===================================================================== *)

Section ResponseIdempotence.
Import JsString Regex IntentDetection ResponseFormatter.

Lemma rev_app_rev_app (s : string) : forall a b,
  String.rev_app (String.rev_app s a) b = String.rev_app a (s +:+ b).
Proof.
  induction s as [|c s IH]; intros a b; [reflexivity|].
  cbn [String.rev_app]. rewrite IH. reflexivity.
Qed.

Lemma rev_rev (s : string) : String.rev (String.rev s) = s.
Proof.
  unfold String.rev. rewrite rev_app_rev_app. cbn [String.rev_app].
  apply append_nil_r.
Qed.

Lemma rev_app_append (s : string) : forall acc,
  String.rev_app s acc = String.rev s +:+ acc.
Proof.
  unfold String.rev. induction s as [|c s IH]; intros acc; [reflexivity|].
  cbn [String.rev_app]. rewrite (IH (String c acc)), (IH (String c "")).
  rewrite append_assoc. reflexivity.
Qed.

Lemma rev_append (x y : string) :
  String.rev (x +:+ y) = String.rev y +:+ String.rev x.
Proof.
  unfold String.rev. generalize "" at 1 3. induction x as [|c x IH]; intros acc.
  - change ("" +:+ y) with y. cbn [String.rev_app]. apply rev_app_append.
  - change (String c x +:+ y) with (String c (x +:+ y)).
    cbn [String.rev_app]. apply IH.
Qed.

(** What [trimStart] removes is a prefix. *)
Lemma trimStart_suffix (s : string) : exists ws, s = ws +:+ trimStart s.
Proof.
  induction s as [|c s [ws IH]]; [exists ""; reflexivity|].
  cbn [trimStart]. destruct (isWhiteSpace c).
  - exists (String c ws). change (String c ws +:+ trimStart s)
      with (String c (ws +:+ trimStart s)). rewrite <- IH. reflexivity.
  - exists "". reflexivity.
Qed.

Lemma trimStart_length (s : string) : String.length (trimStart s) <= String.length s.
Proof.
  induction s as [|c s IH]; [reflexivity|].
  cbn [trimStart]. destruct (isWhiteSpace c); cbn [String.length]; lia.
Qed.

Lemma trimStart_trimStart (s : string) : trimStart (trimStart s) = trimStart s.
Proof.
  induction s as [|c s IH]; [reflexivity|].
  cbn [trimStart]. destruct (isWhiteSpace c) eqn:Hc; [exact IH|].
  cbn [trimStart]. rewrite Hc. reflexivity.
Qed.

Lemma trimStart_fixed_head c s :
  trimStart (String c s) = String c s -> isWhiteSpace c = false.
Proof.
  cbn [trimStart]. destruct (isWhiteSpace c); [|reflexivity].
  intros Heq. pose proof (trimStart_length s) as Hlen. rewrite Heq in Hlen.
  cbn [String.length] in Hlen. lia.
Qed.

(** Trimming the end of a text that starts with no white space
    leaves a text that starts with none. *)
Lemma trimStart_trimEnd (a : string) :
  trimStart a = a -> trimStart (trimEnd a) = trimEnd a.
Proof.
  intros Ha. unfold trimEnd.
  destruct (trimStart_suffix (String.rev a)) as [ws Hws].
  destruct (String.rev (trimStart (String.rev a))) as [|c r] eqn:Hb;
    [reflexivity|].
  apply (f_equal String.rev) in Hws. rewrite rev_rev, rev_append, Hb in Hws.
  change (String c r +:+ String.rev ws) with (String c (r +:+ String.rev ws)) in Hws.
  rewrite Hws in Ha. apply trimStart_fixed_head in Ha.
  cbn [trimStart]. rewrite Ha. reflexivity.
Qed.

Lemma trim_trim (s : string) : trim (trim s) = trim s.
Proof.
  unfold trim.
  rewrite (trimStart_trimEnd (trimStart s) (trimStart_trimStart s)).
  unfold trimEnd. rewrite rev_rev, trimStart_trimStart. reflexivity.
Qed.

Lemma includes_middle (pre sub post : string) :
  sub <> "" -> includes (pre +:+ sub +:+ post) sub = true.
Proof.
  intros Hsub. unfold includes, indexOf.
  destruct (String.index 0 sub (pre +:+ sub +:+ post)) eqn:Hindex; [reflexivity|].
  exfalso.
  apply (index_correct3 0 (String.length pre) sub (pre +:+ sub +:+ post) Hindex Hsub);
    [lia|].
  pose proof (substring_middle pre sub post) as Hmid.
  unfold JsString.substring in Hmid.
  replace (String.length pre + String.length sub - String.length pre)
    with (String.length sub) in Hmid by lia.
  exact Hmid.
Qed.

(** The two intents whose responses get a header and nothing else. *)
Definition headerOf (intent : Intent) : string :=
  match intent with
  | architecture_explanation => "## Architecture Explanation"
  | _ => "## System Design"
  end.

Lemma postProcessResponse_header (intent : Intent) (rawResponse : string)
  (language : option string) :
  intent = architecture_explanation \/ intent = system_design ->
  postProcessResponse intent rawResponse language
  = if negb (includes rawResponse "#")
       && (3 <? List.length (JsString.split rawResponse nl))
       && negb (startsWith (default "" (head (JsString.split rawResponse nl))) "#")
    then headerOf intent +:+ nl +:+ nl +:+ rawResponse
    else rawResponse.
Proof.
  intros [-> | ->]; cbn [postProcessResponse headerOf].
  - change (bool_decide (architecture_explanation = comparison)) with false.
    change (bool_decide (architecture_explanation = question)) with false.
    cbn [orb andb].
    destruct (includes rawResponse "#"); cbn [negb andb]; [reflexivity|].
    destruct (_ && _); reflexivity.
  - change (bool_decide (system_design = comparison)) with false.
    change (bool_decide (system_design = question)) with false.
    cbn [orb andb].
    destruct (includes rawResponse "#"); cbn [negb andb]; [reflexivity|].
    destruct (_ && _); reflexivity.
Qed.

Lemma header_idempotent (intent : Intent) (rawResponse : string)
  (language : option string) :
  intent = architecture_explanation \/ intent = system_design ->
  postProcessResponse intent (postProcessResponse intent rawResponse language) language
  = postProcessResponse intent rawResponse language.
Proof.
  intros Hintent. rewrite !(postProcessResponse_header _ _ _ Hintent).
  destruct (negb (includes rawResponse "#") && _ && _) eqn:Hcond.
  - replace (includes (headerOf intent +:+ nl +:+ nl +:+ rawResponse) "#") with true
      by (destruct Hintent as [-> | ->]; vm_compute; reflexivity).
    reflexivity.
  - rewrite Hcond. reflexivity.
Qed.

(** The intents for which a processed response is left as it is
    when it is processed again. *)
Definition settled (intent : Intent) : Prop :=
  intent ∈ [architecture_update; architecture_rationale; code_explanation;
            architecture_explanation; system_design; greeting; general_chat].

(** X18. For the intents architecture_update, architecture_rationale,
    code_explanation, architecture_explanation, system_design,
    greeting and general_chat, processing a response a second time
    changes nothing. *)
Theorem postProcessResponse_idempotent (intent : Intent) (rawResponse : string)
  (language : option string) :
  settled intent ->
  postProcessResponse intent (postProcessResponse intent rawResponse language) language
  = postProcessResponse intent rawResponse language.
Proof.
  unfold settled. intros Hintent.
  repeat (apply elem_of_cons in Hintent as [->|Hintent]); [..|inversion Hintent].
  - reflexivity.
  - reflexivity.
  - cbn [postProcessResponse].
    destruct (includes rawResponse fence) eqn:Hfence; cbn [negb].
    + rewrite Hfence. reflexivity.
    + destruct (Regex.split rawResponse codeSectionPattern) as [|part0 [|part1 parts]]
        eqn:Hsplit.
      * rewrite Hfence, Hsplit. reflexivity.
      * rewrite Hfence, Hsplit. reflexivity.
      * match goal with
        | |- context [includes (?e +:+ nl +:+ nl +:+ fence +:+ ?rest) fence] =>
            replace (includes (e +:+ nl +:+ nl +:+ fence +:+ rest) fence) with true;
            [reflexivity|];
            symmetry; rewrite <- (append_assoc e nl), <- (append_assoc (e +:+ nl) nl)
        end.
        apply includes_middle. discriminate.
  - apply header_idempotent. left. reflexivity.
  - apply header_idempotent. right. reflexivity.
  - apply trim_trim.
  - apply trim_trim.
Qed.

(** For the intent comparison a second pass can change the response:
    the header the first pass adds makes the second one rewrite the
    numbered paragraphs. *)
Example comparison_processed_twice :
  let rawResponse := "1. a" +:+ nl +:+ nl +:+ "2. b" +:+ nl +:+ nl +:+ "3. c" in
  postProcessResponse comparison rawResponse None
  = "## Comparison" +:+ nl +:+ nl +:+ rawResponse
  /\ postProcessResponse comparison (postProcessResponse comparison rawResponse None)
       None
     = "## Comparison" +:+ nl +:+ nl
       +:+ "- a" +:+ nl +:+ nl +:+ "- b" +:+ nl +:+ nl +:+ "- c".
Proof. split; vm_compute; reflexivity. Qed.

Lemma settled_general_chat : settled general_chat.
Proof. unfold settled. set_solver. Qed.

(** X18 at a reply with spaces around it. *)
Lemma postProcessResponse_idempotent_witness :
  postProcessResponse general_chat "  Hello!  " None = "Hello!"
  /\ postProcessResponse general_chat
       (postProcessResponse general_chat "  Hello!  " None) None
     = postProcessResponse general_chat "  Hello!  " None.
Proof.
  split; [vm_compute; reflexivity|].
  apply (postProcessResponse_idempotent general_chat "  Hello!  " None
           settled_general_chat).
Defined.

End ResponseIdempotence.

(* ===================================================================== *)
(** * The keyword rules of the language detection *)
(* ===================================================================== *)

Section KeywordPatterns.
Import JsString Regex.

(** A text without upper-case letters. *)
Fixpoint noUpper (s : string) : bool :=
  match s with
  | EmptyString => true
  | String c s' => negb (isUpper c) && noUpper s'
  end.

Lemma lowerChar_noUpper (c : ascii) : isUpper (lowerChar c) = false.
Proof. destruct c as [[] [] [] [] [] [] [] []]; reflexivity. Qed.

Lemma toLowerCase_noUpper (s : string) : noUpper (toLowerCase s) = true.
Proof.
  induction s as [|c s IH]; [reflexivity|].
  cbn [toLowerCase noUpper]. rewrite lowerChar_noUpper, IH. reflexivity.
Qed.

Lemma upperChar_code (c : ascii) :
  nat_of_ascii (upperChar c)
  = if isLower c then nat_of_ascii c - 32 else nat_of_ascii c.
Proof.
  unfold upperChar. destruct (isLower c); [|reflexivity].
  apply nat_ascii_embedding. pose proof (nat_ascii_bounded c). lia.
Qed.

(** Between characters that are not upper-case letters, the case
    flag changes nothing. *)
Lemma char_match_lowered (a c : ascii) :
  isUpper a = false -> isUpper c = false ->
  char_match true a c = Ascii.eqb a c.
Proof.
  intros Ha Hc. unfold char_match.
  destruct (Ascii.eqb_spec a c) as [->|Hne]; [apply Ascii.eqb_refl|].
  apply Ascii.eqb_neq. intros Heq. apply Hne.
  apply (f_equal nat_of_ascii) in Heq. rewrite !upperChar_code in Heq.
  rewrite <- (ascii_nat_embedding a), <- (ascii_nat_embedding c). f_equal.
  unfold isUpper, isLower in Ha, Hc, Heq. cbv zeta in Ha, Hc, Heq.
  apply andb_false_iff in Ha, Hc. rewrite !Nat.leb_gt in Ha, Hc.
  destruct (Nat.leb_spec 97 (nat_of_ascii a)), (Nat.leb_spec (nat_of_ascii a) 122),
    (Nat.leb_spec 97 (nat_of_ascii c)), (Nat.leb_spec (nat_of_ascii c) 122);
    cbn [andb] in Heq; lia.
Qed.

Definition succeeds {A} (o : option A) : bool :=
  match o with Some _ => true | None => false end.

(** A keyword, as [parse] builds it. *)
Definition lit (w : string) : re :=
  match w with
  | String c s => litEnd c s
  | EmptyString => Eps
  end.

(** An alternation of keywords, as [parse] builds it. *)
Fixpoint anyOf (ws : list string) : re :=
  match ws with
  | [] => Never
  | [w] => lit w
  | w :: ws' => Alt (lit w) (anyOf ws')
  end.

Lemma run_litEnd_lowered (s : string) : forall c p u pv cs,
  noUpper (String c s) = true -> noUpper u = true ->
  succeeds (run true (litEnd c s) (mkState p u pv cs) Some)
  = String.prefix (String c s) u.
Proof.
  induction s as [|c' s IH]; intros c p u pv cs Hw Hu.
  - cbn [litEnd run]. unfold eat. cbn [rest].
    destruct u as [|c0 u]; [reflexivity|].
    cbn [noUpper] in Hw, Hu.
    apply andb_true_iff in Hw as [Hc _]. apply andb_true_iff in Hu as [Hc0 _].
    apply negb_true_iff in Hc, Hc0.
    rewrite (char_match_lowered c c0 Hc Hc0). cbn [String.prefix].
    destruct (ascii_dec c c0) as [->|Hne].
    + rewrite Ascii.eqb_refl. destruct u; reflexivity.
    + apply Ascii.eqb_neq in Hne. rewrite Hne. reflexivity.
  - cbn [litEnd]. rewrite run_Seq. cbn [run]. unfold eat. cbn [rest].
    destruct u as [|c0 u]; [reflexivity|].
    change (noUpper (String c (String c' s)))
      with (negb (isUpper c) && noUpper (String c' s)) in Hw.
    cbn [noUpper] in Hu.
    apply andb_true_iff in Hw as [Hc Hw]. apply andb_true_iff in Hu as [Hc0 Hu].
    apply negb_true_iff in Hc, Hc0.
    rewrite (char_match_lowered c c0 Hc Hc0).
    change (String.prefix (String c (String c' s)) (String c0 u))
      with (if ascii_dec c c0 then String.prefix (String c' s) u else false).
    destruct (ascii_dec c c0) as [->|Hne].
    + rewrite Ascii.eqb_refl. apply IH; assumption.
    + apply Ascii.eqb_neq in Hne. rewrite Hne. reflexivity.
Qed.

(** The keywords of a table: none is empty, none has an upper-case
    letter. *)
Definition keywords (ws : list string) : bool :=
  forallb (fun w => truthy w && noUpper w) ws.

Lemma run_anyOf (ws : list string) : forall p u pv cs,
  keywords ws = true -> noUpper u = true ->
  succeeds (run true (anyOf ws) (mkState p u pv cs) Some)
  = existsb (fun w => String.prefix w u) ws.
Proof.
  assert (forall w p u pv cs,
            truthy w && noUpper w = true -> noUpper u = true ->
            succeeds (run true (lit w) (mkState p u pv cs) Some) = String.prefix w u)
    as Hlit.
  { intros [|c s] p u pv cs Hw Hu; [discriminate|].
    apply andb_true_iff in Hw as [_ Hw]. apply run_litEnd_lowered; assumption. }
  induction ws as [|w ws IH]; intros p u pv cs Hws Hu; [reflexivity|].
  cbn [keywords forallb] in Hws. apply andb_true_iff in Hws as [Hw Hws].
  destruct ws as [|w' ws].
  - cbn [anyOf existsb]. rewrite orb_false_r. apply Hlit; assumption.
  - change (anyOf (w :: w' :: ws)) with (Alt (lit w) (anyOf (w' :: ws))).
    cbn [run]. unfold or_else.
    pose proof (Hlit w p u pv cs Hw Hu) as Hhead.
    change (existsb (fun w0 => String.prefix w0 u) (w :: w' :: ws))
      with (String.prefix w u || existsb (fun w0 => String.prefix w0 u) (w' :: ws)).
    destruct (run true (lit w) (mkState p u pv cs) Some).
    + cbn [succeeds] in Hhead |- *. rewrite <- Hhead. reflexivity.
    + cbn [succeeds] in Hhead. rewrite <- Hhead. cbn [orb].
      apply IH; assumption.
Qed.

(** Some keyword starts at some position of the text. *)
Fixpoint occursIn (ws : list string) (s : string) : bool :=
  existsb (fun w => String.prefix w s) ws
  || match s with
     | String _ s' => occursIn ws s'
     | EmptyString => false
     end.

Lemma test_anyOf (src : string) (ws : list string) (s : string) :
  keywords ws = true -> noUpper s = true ->
  test (mkRegexp src (anyOf ws) true false) s = occursIn ws s.
Proof.
  intros Hws. unfold test, exec. generalize 0 at 1. generalize (@None ascii).
  induction s as [|c s IH]; intros before i Hs.
  - cbn [search occursIn]. unfold match_at. cbn [ignoreCase body].
    pose proof (run_anyOf ws i "" before [] Hws Hs) as Hrun.
    destruct (run true (anyOf ws) _ Some); cbn [succeeds] in Hrun; rewrite <- Hrun;
      reflexivity.
  - cbn [search occursIn]. unfold match_at. cbn [ignoreCase body].
    pose proof (run_anyOf ws i (String c s) before [] Hws Hs) as Hrun.
    cbn [noUpper] in Hs. apply andb_true_iff in Hs as [_ Hs].
    destruct (run true (anyOf ws) _ Some); cbn [succeeds] in Hrun; rewrite <- Hrun;
      [reflexivity|].
    cbn [orb]. apply IH. exact Hs.
Qed.

Lemma prefix_split (w : string) : forall u,
  String.prefix w u = true -> exists post, u = w +:+ post.
Proof.
  induction w as [|c w IH]; intros u Hpre; [exists u; reflexivity|].
  destruct u as [|c0 u]; [discriminate|]. cbn [String.prefix] in Hpre.
  destruct (ascii_dec c c0) as [->|]; [|discriminate].
  destruct (IH u Hpre) as [post ->]. exists post. reflexivity.
Qed.

Lemma occursIn_contains (ws : list string) (s : string) :
  occursIn ws s = true <-> exists w, w ∈ ws /\ contains s w.
Proof.
  split.
  - induction s as [|c s IH]; cbn [occursIn]; rewrite orb_true_iff;
      intros [Hhere|Hlater]; try discriminate.
    + apply existsb_exists in Hhere as (w & Hin & Hpre).
      apply prefix_split in Hpre as [post ->].
      exists w. split; [apply list_elem_of_In, Hin|]. exists "", post. reflexivity.
    + apply existsb_exists in Hhere as (w & Hin & Hpre).
      apply prefix_split in Hpre as [post Heq].
      exists w. split; [apply list_elem_of_In, Hin|]. exists "", post. exact Heq.
    + destruct (IH Hlater) as (w & Hin & before & after & ->).
      exists w. split; [exact Hin|]. exists (String c before), after. reflexivity.
  - intros (w & Hin & before & after & ->). apply list_elem_of_In in Hin.
    induction before as [|c before IH].
    + change ("" +:+ w +:+ after) with (w +:+ after).
      assert (existsb (fun w0 => String.prefix w0 (w +:+ after)) ws = true) as Hhere
        by (apply existsb_exists; exists w; split; [exact Hin | apply prefix_app]).
      destruct (w +:+ after); cbn [occursIn]; rewrite Hhere; reflexivity.
    + change (String c before +:+ w +:+ after)
        with (String c (before +:+ w +:+ after)).
      cbn [occursIn]. rewrite IH. apply orb_true_r.
Qed.

Lemma substring_split (m : nat) : forall n s,
  exists before after, s = before +:+ String.substring m n s +:+ after.
Proof.
  induction m as [|m IH]; intros n s.
  - exists "". revert s. induction n as [|n IHn]; intros s.
    + exists s. destruct s; reflexivity.
    + destruct s as [|c s]; [exists ""; reflexivity|].
      destruct (IHn s) as [after Heq]. exists after.
      cbn [String.substring].
      change ("" +:+ String c (String.substring 0 n s) +:+ after)
        with (String c ("" +:+ String.substring 0 n s +:+ after)).
      rewrite <- Heq. reflexivity.
  - destruct s as [|c s]; [exists "", ""; reflexivity|].
    destruct (IH n s) as (before & after & Heq).
    exists (String c before), after. cbn [String.substring].
    change (String c before +:+ String.substring m n s +:+ after)
      with (String c (before +:+ String.substring m n s +:+ after)).
    rewrite <- Heq. reflexivity.
Qed.

Lemma includes_contains (s w : string) :
  w <> "" -> includes s w = true <-> contains s w.
Proof.
  intros Hw. split.
  - unfold includes, indexOf.
    destruct (String.index 0 w s) as [m|] eqn:Hindex; [|discriminate]. intros _.
    apply index_correct1 in Hindex.
    destruct (substring_split m (String.length w) s) as (before & after & Heq).
    rewrite Hindex in Heq. exists before, after. exact Heq.
  - intros (before & after & ->). apply includes_middle. exact Hw.
Qed.

(** A pattern that is an alternation of keywords tests whether the
    text includes one of them, on a text without upper-case
    letters. *)
Lemma test_keywords (src : string) (ws : list string) (s : string) :
  keywords ws = true -> noUpper s = true ->
  test (mkRegexp src (anyOf ws) true false) s = existsb (includes s) ws.
Proof.
  intros Hws Hs. rewrite (test_anyOf src ws s Hws Hs).
  apply eq_true_iff_eq. rewrite occursIn_contains, existsb_exists. split.
  - intros (w & Hin & Hcontains). exists w.
    split; [apply list_elem_of_In, Hin|].
    apply includes_contains; [|exact Hcontains].
    unfold keywords in Hws. rewrite forallb_forall in Hws.
    specialize (Hws w (proj1 (list_elem_of_In _ _) Hin)).
    intros ->. discriminate.
  - intros (w & Hin & Hincludes). exists w.
    split; [apply list_elem_of_In, Hin|].
    apply includes_contains; [|exact Hincludes].
    unfold keywords in Hws. rewrite forallb_forall in Hws.
    specialize (Hws w Hin). intros ->. discriminate.
Qed.

End KeywordPatterns.

Section LanguageFacts.
Import JsString Regex IntentDetection.

(** The keywords of the first five rules of [languageRules], with
    the language each rule gives. *)
Definition languageKeywords : list (list string * string) := [
  (["python"; "boto3"; "django"; "flask"; "pandas"; "numpy"; "pip"; ".py"], "python");
  (["typescript"; "ts"; "angular"; "vue"; "react"; ".ts"], "typescript");
  (["javascript"; "js"; "node"; "express"; ".js"], "javascript");
  (["java"; "spring"; "maven"; "gradle"; ".java"], "java");
  (["c#"; ".net"; "asp.net"; "azure"; ".cs"], "csharp")
].

(** The message, in lower case, includes one of the words. *)
Definition mentions (message : string) (words : list string) : bool :=
  existsb (includes (toLowerCase message)) words.

(** The language of the first table one of whose words the message
    mentions. *)
Fixpoint firstMentioned (tables : list (list string * string)) (message : string)
  : option string :=
  match tables with
  | [] => None
  | (words, lang) :: tables' =>
      if mentions message words then Some lang else firstMentioned tables' message
  end.

Lemma keyword_rule (src : string) (ws : list string) (s : string) :
  parse src = anyOf ws -> keywords ws = true -> noUpper s = true ->
  test (rxi src) s = existsb (includes s) ws.
Proof. intros Hparse. unfold rxi. rewrite Hparse. apply test_keywords. Qed.

(** X19. The first five rules of [detectProgrammingLanguage] are
    keyword tables, tried in order on the message in lower case:
    when the message mentions a word of one of the five tables, the
    language is that of the first such table, wherever the word
    stands, inside another word too. *)
Theorem detectProgrammingLanguage_keywords (message lang : string) :
  firstMentioned languageKeywords message = Some lang ->
  detectProgrammingLanguage message = Some lang.
Proof.
  unfold detectProgrammingLanguage. cbv zeta.
  pose proof (toLowerCase_noUpper message) as Hlower.
  unfold languageRules, languageKeywords.
  cbn [firstLanguage firstMentioned].
  rewrite (keyword_rule "python|boto3|django|flask|pandas|numpy|pip|\.py"
             ["python"; "boto3"; "django"; "flask"; "pandas"; "numpy"; "pip"; ".py"]
             _ ltac:(vm_compute; reflexivity) eq_refl Hlower).
  match goal with
  | |- context [existsb (includes (toLowerCase message)) ?ws] =>
      change (existsb (includes (toLowerCase message)) ws) with (mentions message ws);
      destruct (mentions message ws); [intros [= <-]; reflexivity|]
  end.
  rewrite (keyword_rule "typescript|ts|angular|vue|react|\.ts"
             ["typescript"; "ts"; "angular"; "vue"; "react"; ".ts"]
             _ ltac:(vm_compute; reflexivity) eq_refl Hlower).
  match goal with
  | |- context [existsb (includes (toLowerCase message)) ?ws] =>
      change (existsb (includes (toLowerCase message)) ws) with (mentions message ws);
      destruct (mentions message ws); [intros [= <-]; reflexivity|]
  end.
  rewrite (keyword_rule "javascript|js|node|express|\.js"
             ["javascript"; "js"; "node"; "express"; ".js"]
             _ ltac:(vm_compute; reflexivity) eq_refl Hlower).
  match goal with
  | |- context [existsb (includes (toLowerCase message)) ?ws] =>
      change (existsb (includes (toLowerCase message)) ws) with (mentions message ws);
      destruct (mentions message ws); [intros [= <-]; reflexivity|]
  end.
  rewrite (keyword_rule "java|spring|maven|gradle|\.java"
             ["java"; "spring"; "maven"; "gradle"; ".java"]
             _ ltac:(vm_compute; reflexivity) eq_refl Hlower).
  match goal with
  | |- context [existsb (includes (toLowerCase message)) ?ws] =>
      change (existsb (includes (toLowerCase message)) ws) with (mentions message ws);
      destruct (mentions message ws); [intros [= <-]; reflexivity|]
  end.
  rewrite (keyword_rule "c#|\.net|asp\.net|azure|\.cs"
             ["c#"; ".net"; "asp.net"; "azure"; ".cs"]
             _ ltac:(vm_compute; reflexivity) eq_refl Hlower).
  match goal with
  | |- context [existsb (includes (toLowerCase message)) ?ws] =>
      change (existsb (includes (toLowerCase message)) ws) with (mentions message ws);
      destruct (mentions message ws); [intros [= <-]; reflexivity|]
  end.
  intros Hf. discriminate Hf.
Qed.

(** X19 at a question about tests in Go, where the word tests mentions
    ts, and at one about a pipeline, which mentions pip. *)
Lemma detectProgrammingLanguage_keywords_witness :
  detectProgrammingLanguage "How do I write unit tests in Go?" = Some "typescript"
  /\ detectProgrammingLanguage "Set up a CI pipeline in Java" = Some "python".
Proof.
  split.
  - apply (detectProgrammingLanguage_keywords "How do I write unit tests in Go?"
             "typescript").
    vm_compute. reflexivity.
  - apply (detectProgrammingLanguage_keywords "Set up a CI pipeline in Java"
             "python").
    vm_compute. reflexivity.
Defined.

End LanguageFacts.

(* ===================================================================== *)
(** * Further properties of the retry helper *)
(* ===================================================================== *)

Section RetryWaits.
Import JsString Platform RetryHelpers.
Context `{Platform}.
Context {S T : Type}.
Variable operation : S -> (Error + T) * S.

Lemma Math_min_l a b : (a <= b)%Q -> Math_min a b = a.
Proof. intros Hle. unfold Math_min. apply Qle_bool_iff in Hle. rewrite Hle. reflexivity. Qed.

Lemma Math_min_eq_r a b : (b <= a)%Q -> (Math_min a b == b)%Q.
Proof.
  intros Hle. unfold Math_min. destruct (Qle_bool a b) eqn:Hab; [|reflexivity].
  apply Qle_bool_iff in Hab. apply Qle_antisym; assumption.
Qed.

(** Along the delays, from a delay between 0 and the maximum on and
    with a factor of at least 1: a delay is followed by one that is
    not smaller, not above the maximum, and equal to the maximum when
    the delay itself is. *)
Lemma delaysFrom_grow maxDelay factor :
  (1 <= factor)%Q ->
  forall ds delayMs,
    (0 <= delayMs)%Q -> (delayMs <= maxDelay)%Q ->
    delaysFrom maxDelay factor delayMs ds ->
    forall k d d',
      ds !! k = Some d -> ds !! Datatypes.S k = Some d' ->
      (0 <= d)%Q /\ (d <= d')%Q /\ (d' <= maxDelay)%Q
      /\ ((d == maxDelay)%Q -> (d' == maxDelay)%Q).
Proof.
  intros Hf. induction ds as [|d0 ds IH]; intros delayMs Hpos Hle Hds k d d' Hk Hk';
    [discriminate|].
  destruct Hds as [-> Hds].
  assert (0 <= Math_min (delayMs * factor) maxDelay)%Q as Hpos'
    by (unfold Math_min; destruct (Qle_bool _ _); nra).
  destruct k as [|k].
  - injection Hk as <-. change (ds !! 0 = Some d') in Hk'.
    destruct ds as [|d1 ds]; [discriminate|]. destruct Hds as [-> _].
    injection Hk' as <-.
    split; [exact Hpos|]. split; [|split; [apply Math_min_le_r|]].
    + unfold Math_min. destruct (Qle_bool _ _); nra.
    + intros Heq. apply Math_min_eq_r. nra.
  - change (ds !! k = Some d) in Hk. change (ds !! Datatypes.S k = Some d') in Hk'.
    exact (IH _ Hpos' (Math_min_le_r _ _) Hds k d d' Hk Hk').
Qed.

(** X20. With a backoff factor of at least 1 and an initial delay
    between 0 and the maximum, the delays never shrink: the first is
    the initial delay, each later one is at least the one before it
    and at most the maximum, and once a delay equals the maximum so
    do all that follow. *)
Theorem delays_never_shrink (options : RetryOptions) (clock : nat) (s : S) :
  let r := withExponentialBackoff operation options clock s in
  let initialDelay := default 200%Q (initialDelayMs options) in
  let maxDelay := default 10000%Q (maxDelayMs options) in
  let factor := default 2%Q (backoffFactor options) in
  (1 <= factor)%Q -> (0 <= initialDelay)%Q -> (initialDelay <= maxDelay)%Q ->
  (forall d, delays r !! 0 = Some d -> d = initialDelay)
  /\ (forall k d d',
        delays r !! k = Some d -> delays r !! Datatypes.S k = Some d' ->
        (d <= d')%Q /\ (d' <= maxDelay)%Q
        /\ ((d == maxDelay)%Q -> (d' == maxDelay)%Q)).
Proof.
  cbn zeta. intros Hf Hpos Hle.
  pose proof (spec_delays operation _ _ _ _ _ _ _
                (attemptLoop_spec operation
                   (default [429; 503; 502; 500]%Z (retryStatusCodes options))
                   (default 10000%Q (maxDelayMs options))
                   (default 2%Q (backoffFactor options))
                   (default 0.25%Q (jitterFactor options))
                   (default 3 (maxRetries options))
                   (default 200%Q (initialDelayMs options)) clock s)) as Hds.
  fold (withExponentialBackoff operation options clock s) in Hds.
  split.
  - intros d Hd. destruct (delays _) as [|d0 ds]; [discriminate|].
    destruct Hds as [-> _]. injection Hd as <-. reflexivity.
  - intros k d d' Hk Hk'.
    destruct (delaysFrom_grow _ _ Hf _ _ Hpos Hle Hds k d d' Hk Hk')
      as (_ & Hgrow & Hcap & Hstay).
    auto.
Qed.

(** The jitter of each wait is the random number drawn for it times
    the jitter factor times the delay of that wait. *)
Lemma attemptLoop_jitters codes maxDelay factor jitterF retriesLeft :
  forall delayMs clock s,
    let r := attemptLoop operation codes maxDelay factor jitterF retriesLeft
               delayMs clock s in
    List.length (jitters r) = List.length (delays r)
    /\ forall k d, delays r !! k = Some d ->
         jitters r !! k = Some (Math_random (clock + k) * jitterF * d)%Q.
Proof.
  induction retriesLeft as [|n IH]; intros delayMs clock s; cbn [attemptLoop];
    destruct (operation s) as [[error|result] s'];
    try (split; [reflexivity | intros k d Hk; discriminate Hk]).
  destruct (negb (shouldRetry codes error));
    [split; [reflexivity | intros k d Hk; discriminate Hk]|].
  specialize (IH (Math_min (delayMs * factor) maxDelay) (Datatypes.S clock) s').
  cbn zeta in IH. destruct IH as [Hlen Hjit].
  cbn [addAttempt addWait jitters delays]. split.
  - cbn [List.length]. rewrite Hlen. reflexivity.
  - intros [|k] d Hk.
    + injection Hk as <-. rewrite Nat.add_0_r. reflexivity.
    + change (delays (attemptLoop operation codes maxDelay factor jitterF n
                        (Math_min (delayMs * factor) maxDelay) (Datatypes.S clock) s')
              !! k = Some d) in Hk.
      rewrite Nat.add_succ_r. exact (Hjit k d Hk).
Qed.

Lemma delaysFrom_nonneg maxDelay factor :
  (0 <= factor)%Q -> (0 <= maxDelay)%Q ->
  forall ds delayMs,
    (0 <= delayMs)%Q -> delaysFrom maxDelay factor delayMs ds ->
    forall k d, ds !! k = Some d -> (0 <= d)%Q.
Proof.
  intros Hf Hm. induction ds as [|d0 ds IH]; intros delayMs Hpos Hds k d Hk;
    [discriminate|].
  destruct Hds as [-> Hds]. destruct k as [|k].
  - injection Hk as <-. exact Hpos.
  - change (ds !! k = Some d) in Hk. eapply IH; [|exact Hds|exact Hk].
    unfold Math_min. destruct (Qle_bool _ _); nra.
Qed.

(** X21. There is one jitter per wait: the random number drawn for
    the wait times the jitter factor times the delay. With random
    numbers in the range of Math.random and options that are not
    negative, the jitter lies between 0 and the jitter factor times
    the delay, so the time waited before a retry, the delay plus its
    jitter, is at least the delay and at most the delay plus the
    jitter factor times the delay. *)
Theorem waits_stay_within_the_jitter (options : RetryOptions)
  (clock : nat) (s : S) :
  let r := withExponentialBackoff operation options clock s in
  let initialDelay := default 200%Q (initialDelayMs options) in
  let maxDelay := default 10000%Q (maxDelayMs options) in
  let factor := default 2%Q (backoffFactor options) in
  let jitterF := default 0.25%Q (jitterFactor options) in
  unitRandom ->
  (0 <= initialDelay)%Q -> (0 <= maxDelay)%Q -> (0 <= factor)%Q -> (0 <= jitterF)%Q ->
  List.length (jitters r) = List.length (delays r)
  /\ forall k d, delays r !! k = Some d ->
       exists j, jitters r !! k = Some j
                 /\ j = (Math_random (clock + k) * jitterF * d)%Q
                 /\ (0 <= j)%Q /\ (j <= jitterF * d)%Q
                 /\ (d <= d + j)%Q /\ (d + j <= d + jitterF * d)%Q.
Proof.
  cbn zeta. intros Hrandom Hi Hm Hf Hj. unfold withExponentialBackoff.
  destruct (attemptLoop_jitters
              (default [429; 503; 502; 500]%Z (retryStatusCodes options))
              (default 10000%Q (maxDelayMs options))
              (default 2%Q (backoffFactor options))
              (default 0.25%Q (jitterFactor options))
              (default 3 (maxRetries options))
              (default 200%Q (initialDelayMs options)) clock s) as [Hlen Hjit].
  split; [exact Hlen|].
  intros k d Hk. eexists. split; [exact (Hjit k d Hk)|]. split; [reflexivity|].
  assert (0 <= d)%Q as Hd.
  { eapply (delaysFrom_nonneg _ _ Hf Hm _ _ Hi); [|exact Hk].
    apply (spec_delays operation _ _ _ _ _ _ _
             (attemptLoop_spec operation _ _ _ _ _ _ _ _)). }
  destruct (Hrandom (clock + k)) as [Hr0 Hr1].
  set (rnd := Math_random (clock + k)) in *.
  set (jf := default 0.25%Q (jitterFactor options)) in *.
  assert (0 <= jf * d)%Q as Hjd by nra.
  assert (0 <= rnd * jf)%Q as Hrj by nra.
  repeat split; nra.
Qed.

End RetryWaits.

(* ===================================================================== *)
(** * The message history context *)
(* ===================================================================== *)

Section HistoryFacts.
Import JsString Json Platform IntentDetection ContextManager.

Lemma sliceFromEnd_window {A} (older recent : list A) :
  recent <> [] ->
  sliceFromEnd (Z.of_nat (List.length recent)) (older ++ recent) = recent.
Proof.
  intros Hne. unfold sliceFromEnd.
  assert (0 < List.length recent) as Hpos by (destruct recent; [congruence | cbn; lia]).
  destruct (Z.ltb_spec (- Z.of_nat (List.length recent)) 0) as [_|Hge]; [|lia].
  rewrite length_app.
  replace (Z.to_nat (Z.max (Z.of_nat (List.length older + List.length recent)
                            + - Z.of_nat (List.length recent)) 0))
    with (List.length older) by lia.
  apply drop_app_length.
Qed.

Lemma sliceFromEnd_zero {A} (xs : list A) : sliceFromEnd 0 xs = xs.
Proof.
  unfold sliceFromEnd. change (- 0)%Z with 0%Z. change (0 <? 0)%Z with false.
  cbv iota zeta.
  replace (Z.to_nat (Z.min 0 (Z.of_nat (List.length xs)))) with 0 by lia.
  reflexivity.
Qed.

Lemma generateMessageHistoryContext_nonempty messages limit :
  messages <> [] ->
  generateMessageHistoryContext (Some messages) limit
  = (historyLines ← mapM historyLine (sliceFromEnd (default 10%Z limit) messages);
     Some (nl +:+ "CONVERSATION HISTORY:" +:+ nl
           +:+ join (nl +:+ nl) historyLines +:+ nl)).
Proof. destruct messages; [congruence | reflexivity]. Qed.

(** X22. The history context is empty for no messages and for an empty
    list, and for these only; with a limit of [n] messages, [n] at
    least 1, only the last [n] messages count: what comes before
    them changes nothing, not even when it is ill-formed; and a limit
    of 0 keeps every message. *)
Theorem history_keeps_the_last_messages (limit : option Z) :
  generateMessageHistoryContext None limit = Some ""
  /\ generateMessageHistoryContext (Some []) limit = Some ""
  /\ (forall messages,
        messages <> [] ->
        generateMessageHistoryContext (Some messages) limit <> Some "")
  /\ (forall older recent,
        recent <> [] ->
        generateMessageHistoryContext (Some (older ++ recent))
          (Some (Z.of_nat (List.length recent)))
        = generateMessageHistoryContext (Some recent)
            (Some (Z.of_nat (List.length recent))))
  /\ (forall messages,
        generateMessageHistoryContext (Some messages) (Some 0%Z)
        = generateMessageHistoryContext (Some messages)
            (Some (Z.of_nat (List.length messages)))).
Proof.
  split; [reflexivity|]. split; [reflexivity|]. split; [|split].
  - intros [|msg messages] Hne; [congruence|].
    unfold generateMessageHistoryContext.
    destruct (mapM historyLine _); cbn [mbind option_bind]; [|discriminate].
    unfold nl. intros Hf. discriminate Hf.
  - intros older recent Hne.
    rewrite (generateMessageHistoryContext_nonempty (older ++ recent))
      by (destruct older; [exact Hne | discriminate]).
    rewrite (generateMessageHistoryContext_nonempty recent) by exact Hne.
    cbn [default id].
    rewrite (sliceFromEnd_window older recent Hne).
    pose proof (sliceFromEnd_window [] recent Hne) as Hall.
    cbn [app] in Hall. rewrite Hall. reflexivity.
  - intros [|msg messages]; [reflexivity|].
    rewrite !generateMessageHistoryContext_nonempty by discriminate.
    cbn [default id]. rewrite sliceFromEnd_zero.
    pose proof (sliceFromEnd_window [] (msg :: messages) ltac:(discriminate)) as Hall.
    cbn [app] in Hall. rewrite Hall. reflexivity.
Qed.

End HistoryFacts.

(* ===================================================================== *)
(** * Worked examples of the further properties *)
(* ===================================================================== *)

Section StoreOperationExamples.
Import JsString Json Platform ArchitectureStore ArchitectureRoutes.

(** The id used in the examples is an ordinary one. *)
Lemma ordinaryId_arch1 : ordinaryId "arch-1".
Proof.
  split; intros Hin;
    repeat (apply elem_of_cons in Hin as [Hin|Hin]; [discriminate Hin|]);
    inversion Hin.
Qed.

(** A store that holds the sample architecture under arch-2. *)
Definition storeWithOne : StoreObject :=
  snd (saveArchitecture (H := helloPlatform) architectureStore_init 3 "arch-2"
         sampleArchitecture None).

(** X1 at a save of arch-1 and a delete of __proto__ in a store that
    holds arch-2. *)
Lemma save_and_delete_keep_other_ids_witness :
  getArchitecture
    (snd (saveArchitecture (H := helloPlatform) storeWithOne 7 "arch-1"
            emptyArchitecture None)) "arch-2"
  = getArchitecture storeWithOne "arch-2"
  /\ getArchitecture (snd (deleteArchitecture storeWithOne "__proto__")) "arch-2"
     = getArchitecture storeWithOne "arch-2".
Proof.
  split.
  - apply (save_and_delete_keep_other_ids (H := helloPlatform) storeWithOne 7
             "arch-1" "arch-2" emptyArchitecture None); discriminate.
  - apply (save_and_delete_keep_other_ids (H := helloPlatform) storeWithOne 7
             "__proto__" "arch-2" emptyArchitecture None). discriminate.
Defined.

(** X2 at the id arch-1. *)
Lemma delete_after_save_witness :
  fst (deleteArchitecture
         (snd (saveArchitecture (H := helloPlatform) storeWithOne 7 "arch-1"
                 emptyArchitecture None)) "arch-1") = true
  /\ getArchitecture
       (snd (deleteArchitecture
               (snd (saveArchitecture (H := helloPlatform) storeWithOne 7 "arch-1"
                       emptyArchitecture None)) "arch-1")) "arch-1" = None
  /\ (own storeWithOne !! "arch-1" = None ->
      deleteArchitecture storeWithOne "arch-1" = (false, storeWithOne)).
Proof.
  apply (delete_after_save (H := helloPlatform) storeWithOne 7 "arch-1"
           emptyArchitecture None ordinaryId_arch1).
  discriminate.
Defined.

(** X3 at the field prompt of the sample architecture. *)
Lemma save_keeps_metadata_witness :
  exists saved savedFields,
    fst (saveArchitecture (H := helloPlatform) architectureStore_init 7 "arch-1"
           sampleArchitecture (Some "Jarvis")) = Some saved
    /\ metadata saved = Some savedFields
    /\ lookup_field "prompt" savedFields
       = lookup_field "prompt" [("prompt", JStr "a small API")].
Proof.
  apply (save_keeps_metadata (H := helloPlatform) architectureStore_init 7 "arch-1"
           sampleArchitecture (Some "Jarvis") [("prompt", JStr "a small API")]
           "prompt");
    [discriminate | reflexivity | apply NoDup_singleton | discriminate | discriminate].
Defined.

(** X4 at a save of arch-1 into a store that holds arch-2: the
    listing then has two entries. *)
Lemma listing_follows_saves_and_deletes_witness :
  (exists stored,
      fst (saveArchitecture (H := helloPlatform) storeWithOne 7 "arch-1"
             emptyArchitecture None) = Some stored
      /\ ("arch-1", stored)
         ∈ getAllArchitectures
             (snd (saveArchitecture (H := helloPlatform) storeWithOne 7 "arch-1"
                     emptyArchitecture None)))
  /\ List.length
       (getAllArchitectures
          (snd (saveArchitecture (H := helloPlatform) storeWithOne 7 "arch-1"
                  emptyArchitecture None))) = 2.
Proof.
  destruct (listing_follows_saves_and_deletes (H := helloPlatform) storeWithOne 7
              "arch-1" emptyArchitecture None ltac:(discriminate) eq_refl)
    as (_ & Hsave & _).
  split; [apply Hsave; discriminate | vm_compute; reflexivity].
Defined.

(** An architecture whose metadata holds Python CDK code. *)
Definition pythonCdkArchitecture : Architecture :=
  mkArchitecture [] []
    (Some [("cdkCode", JStr "app = cdk.App()"); ("cdkLanguage", JStr "python")]).

Definition storeWithCdk : StoreObject :=
  writeProperty architectureStore_init "arch-1" pythonCdkArchitecture.

(** X6 at an architecture with Python code: the file is
    architecture-arch-1.py. *)
Lemma download_returns_the_stored_code_witness :
  status (GET_downloadCdk storeWithCdk "arch-1") = 200
  /\ body (GET_downloadCdk storeWithCdk "arch-1") = Some (JStr "app = cdk.App()")
  /\ headers (GET_downloadCdk storeWithCdk "arch-1")
     = [ ("Content-Type", "text/plain");
         ("Content-Disposition",
          "attachment; filename=" +:+ dq +:+ "architecture-arch-1.py" +:+ dq) ].
Proof.
  destruct (download_returns_the_stored_code storeWithCdk "arch-1"
              pythonCdkArchitecture ltac:(discriminate) eq_refl)
    as [_ Hcode].
  destruct (Hcode eq_refl) as (fileExtension & -> & _ & _ & Hpy & _).
  rewrite (Hpy eq_refl). repeat split; reflexivity.
Defined.

End StoreOperationExamples.

Section SessionExamples.
Import JsString Json Platform IntentDetection JarvisIntegration JarvisOrchestrator.

(** The reference platform draws the random number 0. *)
Lemma helloPlatform_unitRandom : unitRandom (H := helloPlatform).
Proof. intros t. split; vm_compute; [discriminate | reflexivity]. Qed.

(** The state after three greetings in the conversation arch-1. *)
Definition afterThreeGreetings : Globals :=
  repeatUpdate (H := helloPlatform) 3 "arch-1" greeting (mkGlobals ∅ 0).

Definition sessionOfThree : ConversationSession :=
  mkSession "arch-1" 0 6
    [mkEntry greeting 1; mkEntry greeting 3; mkEntry greeting 5] None None.

(** X8 at that state. *)
Lemma analytics_count_the_history_witness :
  exists distribution,
    getConversationAnalytics "arch-1" afterThreeGreetings
    = (Normal (Some sessionOfThree, Some distribution, 0, true), afterThreeGreetings)
    /\ NoDup (List.map fst distribution)
    /\ (forall intent n,
          (intent, n) ∈ distribution ->
          n = occurrences intent (intents sessionOfThree) /\ 1 <= n)
    /\ (forall entry,
          entry ∈ intents sessionOfThree ->
          (entryIntent entry, occurrences (entryIntent entry) (intents sessionOfThree))
          ∈ distribution).
Proof.
  apply (analytics_count_the_history "arch-1" afterThreeGreetings sessionOfThree).
  vm_compute. reflexivity.
Defined.

(** X10 at that state. *)
Lemma sessions_stay_consistent_witness :
  consistentSessions (activeSessions afterThreeGreetings)
  /\ exists distribution,
       fst (getConversationAnalytics "arch-1" afterThreeGreetings)
       = Normal (Some sessionOfThree, distribution, storedMessages sessionOfThree,
                 true).
Proof.
  destruct (sessions_stay_consistent (H := helloPlatform) afterThreeGreetings
              (reachable_repeatUpdate (H := helloPlatform) 3 "arch-1" greeting 0))
    as [Hconsistent Hcount].
  split; [exact Hconsistent|].
  apply Hcount. vm_compute. reflexivity.
Defined.

(** X11 at an array of three, with the random number 0 throughout. *)
Lemma shuffleArray_permutes_witness :
  fst (shuffleArray (H := helloPlatform) ["a"; "b"; "c"] (mkGlobals ∅ 0))
  ≡ₚ ["a"; "b"; "c"]
  /\ List.length
       (fst (shuffleArray (H := helloPlatform) ["a"; "b"; "c"] (mkGlobals ∅ 0)))
     = 3.
Proof.
  apply (shuffleArray_permutes (H := helloPlatform) ["a"; "b"; "c"] (mkGlobals ∅ 0)
           helloPlatform_unitRandom).
Defined.


End SessionExamples.

Section PromptExamples.
Import JsString Regex Json Platform IntentDetection ContextManager
       PromptTemplates ResponseFormatter CohereChat JarvisIntegration.

(** The prompt for a request to generate CDK code in Python. *)
Definition cdkPrompt : string :=
  default ""
    (generateAIPrompt (H := helloPlatform)
       (detectEnhancedIntent "generate cdk code" true) "generate cdk code"
       sampleArchitecture "python").

(** X17 at that prompt. *)
Lemma prompt_contains_the_message_witness :
  intentType (detectEnhancedIntent "generate cdk code" true) = cdk_generation
  /\ contains cdkPrompt "generate cdk code"
  /\ contains cdkPrompt "python".
Proof.
  split; [vm_compute; reflexivity|].
  destruct (prompt_contains_the_message (H := helloPlatform)
              (detectEnhancedIntent "generate cdk code" true) "generate cdk code"
              sampleArchitecture "python" cdkPrompt)
    as (Hmessage & Hlanguage & _).
  - vm_compute. reflexivity.
  - split; [exact Hmessage|]. apply Hlanguage. left. vm_compute. reflexivity.
Defined.

(** X13 at a greeting. *)
Lemma chat_prompt_ignores_the_architecture_witness :
  generateAIPrompt (H := helloPlatform) (detectEnhancedIntent "hello" true) "hello"
    sampleArchitecture "python"
  = Some (systemPrompt (getPromptTemplateForIntent greeting)
          +:+ nl +:+ nl +:+ "USER MESSAGE: " +:+ "hello").
Proof.
  apply (chat_prompt_ignores_the_architecture (H := helloPlatform)
           (detectEnhancedIntent "hello" true) "hello" sampleArchitecture "python").
  left. vm_compute. reflexivity.
Defined.

End PromptExamples.

Section RetryWaitExamples.
Import JsString Platform RetryHelpers.

(** X20 at an operation that always fails, with the default options:
    the first delay, and the step from the second to the third. *)
Lemma delays_never_shrink_witness :
  delays (withExponentialBackoff (H := helloPlatform) alwaysUnavailable noOptions 0 tt)
  = [200; 400; 800]%Q
  /\ (400 <= 800)%Q /\ (800 <= 10000)%Q.
Proof.
  split; [vm_compute; reflexivity|].
  destruct (delays_never_shrink (H := helloPlatform) alwaysUnavailable noOptions 0 tt)
    as [_ Hstep]; try (vm_compute; discriminate).
  destruct (Hstep 1 400%Q 800%Q eq_refl eq_refl) as (Hgrow & Hcap & _).
  split; assumption.
Defined.

(** X21 at the same run: the second wait. *)
Lemma waits_stay_within_the_jitter_witness :
  List.length
    (jitters (withExponentialBackoff (H := helloPlatform) alwaysUnavailable
                noOptions 0 tt))
  = 3
  /\ exists j,
       jitters (withExponentialBackoff (H := helloPlatform) alwaysUnavailable
                  noOptions 0 tt) !! 1 = Some j
       /\ (0 <= j)%Q /\ (j <= 0.25 * 400)%Q
       /\ (400 <= 400 + j)%Q /\ (400 + j <= 400 + 0.25 * 400)%Q.
Proof.
  destruct (waits_stay_within_the_jitter (H := helloPlatform) alwaysUnavailable
              noOptions 0 tt helloPlatform_unitRandom)
    as [Hlength Hwaits]; try (vm_compute; discriminate).
  split; [rewrite Hlength; vm_compute; reflexivity|].
  destruct (Hwaits 1 400%Q eq_refl) as (j & Hj & _ & Hbounds).
  exists j. split; [exact Hj | exact Hbounds].
Defined.

End RetryWaitExamples.

(* ===================================================================== *)
(** * Worked examples *)
(* ===================================================================== *)

Section RegexExamples.
Import JsString Regex.

(** Every pattern of the sources is read as a pattern. *)
Example source_patterns_wellFormed :
  forallb (fun r => forallb (fun p => wellFormed (source p)) (IntentDetection.patterns r))
    IntentDetection.intentRules = true
  /\ forallb (fun p => wellFormed (source (fst p))) IntentDetection.languageRules = true
  /\ forallb (fun p => wellFormed (source p)) IntentDetection.cdkGenerationPatterns = true
  /\ forallb (fun a => wellFormed (source (JarvisIntegration.pattern a)))
       JarvisIntegration.architectureIntents = true
  /\ forallb (fun p => wellFormed (source p))
       (JarvisIntegration.explanationRegex :: JarvisIntegration.fenceArtifacts
        :: ResponseFormatter.codeBlockPattern :: ResponseFormatter.codeSectionPattern
        :: ResponseFormatter.numberedItemPattern
        :: JarvisIntegration.architecturePatterns) = true.
Proof. repeat split; vm_compute; reflexivity. Qed.

(** Captures under quantifiers, as in the examples of ECMA-262: a
    group that takes no part in the last iteration is undefined. *)
Example captures_reset_per_iteration :
  exec (rx "(z)((a+)?(b+)?(c))*") "zaacbbbcac"
  = Some (mkMatch 0 10 [(2, "ac"); (5, "c"); (3, "a"); (1, "z")])
  /\ exec (rx "(a|(b))+") "ba" = Some (mkMatch 0 2 [(1, "a")])
  /\ exec (rx "(a*)*") "b" = Some (mkMatch 0 0 []).
Proof. repeat split; vm_compute; reflexivity. Qed.

(** A lazy quantifier stops at the first closing tag; the match is the
    leftmost one. *)
Example lazy_capture_is_shortest :
  exec (rx "<architecture>([\s\S]*?)<\/architecture>")
    "xx<architecture>a b</architecture>yy</architecture>"
  = Some (mkMatch 2 34 [(1, "a b")]).
Proof. vm_compute. reflexivity. Qed.

(** Replacement of the first match, of every match, and splitting. *)
Example replace_and_split :
  replace "abc" (rxg "b*") "-" = "-a--c-"
  /\ replace "1. foo 2. bar" (rx "\d+\.\s*") "- " = "- foo 2. bar"
  /\ split "a1b22c" (rx "\d*") = ["a"; "b"; "c"]
  /\ split "intro Here's the code: x Implementation: y"
       (rxi "(?:Here'?s the code|Implementation:|Code example)")
     = ["intro "; ": x "; " y"].
Proof. repeat split; vm_compute; reflexivity. Qed.

End RegexExamples.

Section IntentExamples.
Import JsString IntentDetection JarvisIntegration.

(** The classifier at work: the heaviest rule wins, the earlier rule on
    a tie (rationale and system design both weigh 85), and a rule that
    needs context is out without it. *)
Example inferIntent_examples :
  inferIntent "hello" true = greeting
  /\ inferIntent "" true = general_chat
  /\ inferIntent "Please add a lambda to the architecture" true = architecture_update
  /\ inferIntent "Please add a lambda to the architecture" false = general_chat
  /\ inferIntent "generate cdk code for this" true = cdk_generation
  /\ inferIntent "generate cdk code for this" false = code_generation
  /\ inferIntent "design an architecture; analyze the architecture" true
     = architecture_rationale
  /\ inferIntent "design an architecture; analyze the architecture" false
     = system_design.
Proof. repeat split; vm_compute; reflexivity. Qed.

Example detectProgrammingLanguage_examples :
  detectProgrammingLanguage "write it in Python" = Some "python"
  /\ detectProgrammingLanguage "use cdk" = Some "typescript"
  /\ detectProgrammingLanguage "hello" = None.
Proof. repeat split; vm_compute; reflexivity. Qed.

Example detectEnhancedIntent_example :
  detectEnhancedIntent "Please add a Lambda function to the architecture" true
  = mkEnhanced architecture_update 0.9%Q (Some "add_service")
      (Some [("serviceName", "Lambda function to the architecture")])
      (Some "/(?:add|include|incorporate)\s+(?:a|an)?\s*([A-Za-z0-9\s]+)(?:\s+to|\s+in|\s+into|\s+for)?/i").
Proof. vm_compute. reflexivity. Qed.

End IntentExamples.

Section RetryDefaults.
Import JsString Platform RetryHelpers.

(** An operation that fails twice with a timeout and then succeeds; its
    state counts the invocations. *)
Definition thirdTimeLucky (calls : nat) : (Error + string) * nat :=
  (if calls <? 2 then inl (mkError None (Some "request timeout")) else inr "done",
   S calls).

(** With the default options: three invocations, waits of 200 and 400
    milliseconds, and the result of the first success. *)
Example backoff_default_run :
  let r := withExponentialBackoff (H := helloPlatform) thirdTimeLucky noOptions 0 0 in
  outcome r = inr "done"
  /\ List.length (attempts r) = 3
  /\ delays r = [200%Q; 400%Q]
  /\ finalState r = 3.
Proof. repeat split; vm_compute; reflexivity. Qed.

End RetryDefaults.
